(** * FrameTimeline: token ledger, jank classification and display-frame history

    A shallow embedding of
    [services/surfaceflinger/FrameTimeline/FrameTimeline.cpp]:
    the [TokenManager], [SurfaceFrame], [FrameTimeline::DisplayFrame] and
    [FrameTimeline] classes, followed by the properties established about
    them.

    Conventions.
    - [nsecs_t] and [int64_t] values are [Z]; subtraction and [std::abs]
      are written with their 64-bit two's-complement wrap-around
      ([sub64], [abs64]).  Signed overflow is undefined in C++; the
      wrap-around is what the hardware does.  [%] is [Z.rem] (truncated,
      sign of the dividend) for a divisor that is not zero.
    - A method that mutates [*this] is a function from the object to the
      updated object.  Where the process does not go on, the function has
      the [None] result: a [LOG_ALWAYS_FATAL_IF] abort, a division by
      zero, [pop_front] on an empty deque.
    - Calls into the metrics collaborator
      ([TimeStats::incrementJankyFrames]) and into the tracing back end
      are returned as a list of outputs.
    - The [DisplayFrame] objects are shared ([std::shared_ptr]) between
      the current-frame slot, the pending-fence queue and the history
      deque: they live in a heap (a list, a pointer is an index).  A
      display frame holds its surface frames by value: what a producer
      does to a surface frame, it does before the frame is added. *)

From Stdlib Require Import ZArith Lia Bool.
From stdpp Require Import base tactics decidable option list numbers strings sorting.

Local Open Scope Z_scope.

(** ** 64-bit arithmetic *)

Definition INT64_MAX : Z := 2 ^ 63 - 1.

Definition int64 (z : Z) : Prop := - 2 ^ 63 <= z < 2 ^ 63.

Definition wrap64 (z : Z) : Z := (z + 2 ^ 63) mod 2 ^ 64 - 2 ^ 63.

Definition sub64 (a b : Z) : Z := wrap64 (a - b).

Definition abs64 (a : Z) : Z := wrap64 (Z.abs a).

(** ** Constants of headers that are not part of the sources

    [FrameTimeline.h], [ui/Fence.h] and [gui/FrameTimelineInfo.h] declare
    these; the functions below take them as parameters. *)

Class Header := {
  kMaxRetentionTime : Z;            (* TokenManager::kMaxRetentionTime *)
  kDefaultMaxDisplayFrames : N;     (* FrameTimeline::kDefaultMaxDisplayFrames *)
  SIGNAL_TIME_PENDING : Z;          (* Fence::SIGNAL_TIME_PENDING *)
  SIGNAL_TIME_INVALID : Z;          (* Fence::SIGNAL_TIME_INVALID *)
  INVALID_VSYNC_ID : Z;             (* FrameTimelineInfo::INVALID_VSYNC_ID *)
}.

(** ** Enumerations *)

Module PredictionState.
Inductive t := Valid | Expired | None.
#[global] Instance eq_dec : EqDecision t.
Proof. solve_decision. Defined.
End PredictionState.

Module PresentState.
Inductive t := Presented | Dropped | Unknown.
#[global] Instance eq_dec : EqDecision t.
Proof. solve_decision. Defined.
End PresentState.

Inductive FramePresentMetadata :=
  OnTimePresent | LatePresent | EarlyPresent | UnknownPresent.

Inductive FrameReadyMetadata := OnTimeFinish | LateFinish | UnknownFinish.

Inductive FrameStartMetadata := OnTimeStart | LateStart | EarlyStart | UnknownStart.

#[global] Instance FramePresentMetadata_eq_dec : EqDecision FramePresentMetadata.
Proof. solve_decision. Defined.

#[global] Instance FrameReadyMetadata_eq_dec : EqDecision FrameReadyMetadata.
Proof. solve_decision. Defined.

#[global] Instance FrameStartMetadata_eq_dec : EqDecision FrameStartMetadata.
Proof. solve_decision. Defined.

(** Modelled from the spec: the values of the [JankType] bitmask
    ([gui/JankInfo.h] is not part of the sources).  The spec gives the
    type as a bitmask over the causes None, DisplayDriverLate,
    CompositorCpuDeadlineMissed, CompositorGpuDeadlineMissed,
    ProducerDeadlineMissed, PredictionError, CompositorScheduling,
    BufferStuffing, Unknown: None is the empty mask and every cause is one
    bit, in that order.  The names are those the code uses. *)
Module JankType.
Definition None : Z := 0.
Definition DisplayHAL : Z := 1.
Definition SurfaceFlingerCpuDeadlineMissed : Z := 2.
Definition SurfaceFlingerGpuDeadlineMissed : Z := 4.
Definition AppDeadlineMissed : Z := 8.
Definition PredictionError : Z := 16.
Definition SurfaceFlingerScheduling : Z := 32.
Definition BufferStuffing : Z := 64.
Definition Unknown : Z := 128.
End JankType.

(** ** Plain data *)

Record TimelineItem := {
  startTime : Z;
  endTime : Z;
  presentTime : Z;
}.

(** [TimelineItem()] *)
Definition TimelineItem_default : TimelineItem :=
  {| startTime := 0; endTime := 0; presentTime := 0 |}.

Record JankClassificationThresholds := {
  presentThreshold : Z;
  deadlineThreshold : Z;
  startThreshold : Z;
}.

(** [Fps] (declared in [Fps.h], not part of the sources): only its period
    in nanoseconds is used here. *)
Record Fps := { getPeriodNsecs : Z }.

(** The argument of [TimeStats::incrementJankyFrames]. *)
Record JankyFramesInfo := {
  info_refreshRate : Fps;
  info_renderRate : option Fps;
  info_uid : Z;
  info_layerName : string;
  info_jankType : Z;
  info_displayDeadlineDelta : Z;
  info_displayPresentDelta : Z;
  info_appDeadlineDelta : Z;
}.

(** ** [getMinTime] *)

Definition getMinTime (predictionState : PredictionState.t)
    (predictions actuals : TimelineItem) : Z :=
  let minTime := INT64_MAX in
  let minTime :=
    if decide (predictionState = PredictionState.Valid)
    then Z.min minTime (startTime predictions) else minTime in
  let minTime :=
    if decide (startTime actuals ≠ 0)
    then Z.min minTime (startTime actuals) else minTime in
  let minTime :=
    if decide (endTime actuals ≠ 0)
    then Z.min minTime (endTime actuals) else minTime in
  let minTime :=
    if decide (presentTime actuals ≠ 0)
    then Z.min minTime (endTime actuals) else minTime in
  minTime.

(** The test both classifiers use for "delta is a factor of vsync". *)
Definition isVsyncFactor (deltaToVsync period threshold : Z) : bool :=
  bool_decide (deltaToVsync < threshold
               ∨ deltaToVsync >= sub64 period threshold).

(** ** Names and decoders *)

(** The overloads of [toString] for the enumerations. *)
Class ToString (A : Type) := toString : A -> string.

#[global] Instance toString_PredictionState : ToString PredictionState.t :=
  λ predictionState,
    match predictionState with
    | PredictionState.Valid => "Valid"
    | PredictionState.Expired => "Expired"
    | PredictionState.None => "None"
    end.

#[global] Instance toString_FramePresentMetadata : ToString FramePresentMetadata :=
  λ presentMetadata,
    match presentMetadata with
    | OnTimePresent => "On Time Present"
    | LatePresent => "Late Present"
    | EarlyPresent => "Early Present"
    | UnknownPresent => "Unknown Present"
    end.

#[global] Instance toString_FrameReadyMetadata : ToString FrameReadyMetadata :=
  λ finishMetadata,
    match finishMetadata with
    | OnTimeFinish => "On Time Finish"
    | LateFinish => "Late Finish"
    | UnknownFinish => "Unknown Finish"
    end.

#[global] Instance toString_FrameStartMetadata : ToString FrameStartMetadata :=
  λ startMetadata,
    match startMetadata with
    | OnTimeStart => "On Time Start"
    | LateStart => "Late Start"
    | EarlyStart => "Early Start"
    | UnknownStart => "Unknown Start"
    end.

#[global] Instance toString_PresentState : ToString PresentState.t :=
  λ presentState,
    match presentState with
    | PresentState.Presented => "Presented"
    | PresentState.Dropped => "Dropped"
    | PresentState.Unknown => "Unknown"
    end.

(** One block of the two decoders of a jank-type bitmask: if the bit of
    [cause] is set, take note of it and clear the bit. *)
Definition takeJank {A} (cause : Z) (note : A -> A) (st : A * Z) : A * Z :=
  let '(acc, jankType) := st in
  if decide (Z.land jankType cause ≠ 0)
  then (note acc, Z.land jankType (Z.lnot cause))
  else (acc, jankType).

(** [LOG_ALWAYS_FATAL_IF(jankType != 0, ...)] aborts: no result. *)
Definition jankTypeBitmaskToString (jankType : Z) : option string :=
  if decide (jankType = JankType.None) then Some "None"
  else
    let emplace_back (name : string) (janks : list string) := janks ++ [name] in
    let st := ([], jankType) in
    let st := takeJank JankType.DisplayHAL (emplace_back "Display HAL") st in
    let st := takeJank JankType.SurfaceFlingerCpuDeadlineMissed
                (emplace_back "SurfaceFlinger CPU Deadline Missed") st in
    let st := takeJank JankType.SurfaceFlingerGpuDeadlineMissed
                (emplace_back "SurfaceFlinger GPU Deadline Missed") st in
    let st := takeJank JankType.AppDeadlineMissed
                (emplace_back "App Deadline Missed") st in
    let st := takeJank JankType.PredictionError
                (emplace_back "Prediction Error") st in
    let st := takeJank JankType.SurfaceFlingerScheduling
                (emplace_back "SurfaceFlinger Scheduling") st in
    let st := takeJank JankType.BufferStuffing
                (emplace_back "Buffer Stuffing") st in
    let st := takeJank JankType.Unknown (emplace_back "Unknown jank") st in
    let '(janks, jankType) := st in
    if decide (jankType ≠ 0) then None
    else Some (fold_left
                 (λ l r, if decide (l = "") then r
                         else String.append l (String.append ", " r))
                 janks "").

(** The values of [FrameTimelineEvent] in the trace protocol, which is not
    part of the sources. *)
Class FrameTimelineEvent := {
  JANK_NONE : Z;
  JANK_DISPLAY_HAL : Z;
  JANK_SF_CPU_DEADLINE_MISSED : Z;
  JANK_SF_GPU_DEADLINE_MISSED : Z;
  JANK_APP_DEADLINE_MISSED : Z;
  JANK_PREDICTION_ERROR : Z;
  JANK_SF_SCHEDULING : Z;
  JANK_BUFFER_STUFFING : Z;
  JANK_UNKNOWN : Z;
  PRESENT_EARLY : Z;
  PRESENT_LATE : Z;
  PRESENT_ON_TIME : Z;
  PRESENT_UNSPECIFIED : Z;
}.

Section Proto.
Context `{FrameTimelineEvent}.

Definition toProto (presentMetadata : FramePresentMetadata) : Z :=
  match presentMetadata with
  | EarlyPresent => PRESENT_EARLY
  | LatePresent => PRESENT_LATE
  | OnTimePresent => PRESENT_ON_TIME
  | UnknownPresent => PRESENT_UNSPECIFIED
  end.

Definition jankTypeBitmaskToProto (jankType : Z) : option Z :=
  if decide (jankType = JankType.None) then Some JANK_NONE
  else
    let st := (0, jankType) in
    let st := takeJank JankType.DisplayHAL (λ p, Z.lor p JANK_DISPLAY_HAL) st in
    let st := takeJank JankType.SurfaceFlingerCpuDeadlineMissed
                (λ p, Z.lor p JANK_SF_CPU_DEADLINE_MISSED) st in
    let st := takeJank JankType.SurfaceFlingerGpuDeadlineMissed
                (λ p, Z.lor p JANK_SF_GPU_DEADLINE_MISSED) st in
    let st := takeJank JankType.AppDeadlineMissed
                (λ p, Z.lor p JANK_APP_DEADLINE_MISSED) st in
    let st := takeJank JankType.PredictionError
                (λ p, Z.lor p JANK_PREDICTION_ERROR) st in
    let st := takeJank JankType.SurfaceFlingerScheduling
                (λ p, Z.lor p JANK_SF_SCHEDULING) st in
    let st := takeJank JankType.BufferStuffing
                (λ p, Z.lor p JANK_BUFFER_STUFFING) st in
    let st := takeJank JankType.Unknown (λ p, Z.lor p JANK_UNKNOWN) st in
    let '(protoJank, jankType) := st in
    if decide (jankType ≠ 0) then None else Some protoJank.

End Proto.

(** ** [dumpTable] *)

(** The durations, in nanoseconds, that [dumpTable] hands to the
    formatter for one row; [None] where it writes "N/A".  The conversion to
    milliseconds and the text are not modelled. *)
Record TableRow := {
  row_start : option Z;
  row_end : option Z;
  row_present : option Z;
}.

(** The "Expected" row, when there is one, and the "Actual" row. *)
Definition dumpTable (predictions actuals : TimelineItem)
    (predictionState : PredictionState.t) (baseTime : Z)
    : option TableRow * TableRow :=
  (if decide (predictionState = PredictionState.Valid)
   then Some {| row_start := Some (sub64 (startTime predictions) baseTime);
                row_end := Some (sub64 (endTime predictions) baseTime);
                row_present := Some (sub64 (presentTime predictions) baseTime) |}
   else None,
   {| row_start :=
        if decide (startTime actuals = 0) then None
        else Some (Z.max 0 (sub64 (startTime actuals) baseTime));
      row_end :=
        if decide (endTime actuals <= 0) then None
        else Some (sub64 (endTime actuals) baseTime);
      row_present :=
        if decide (presentTime actuals = 0) then None
        else Some (Z.max 0 (sub64 (presentTime actuals) baseTime)) |}).

(** ** [SurfaceFrame] *)

Module SurfaceFrame.

Record t := {
  mToken : Z;
  mInputEventId : Z;
  mOwnerPid : Z;
  mOwnerUid : Z;
  mLayerName : string;
  mDebugName : string;
  mPresentState : PresentState.t;
  mPredictionState : PredictionState.t;
  mPredictions : TimelineItem;
  mActuals : TimelineItem;
  mActualQueueTime : Z;
  mLastLatchTime : Z;
  mRenderRate : option Fps;
  mJankType : Z;
  mFramePresentMetadata : FramePresentMetadata;
  mFrameReadyMetadata : FrameReadyMetadata;
  mJankClassificationThresholds : JankClassificationThresholds;
}.

(** The constructor.  The members it does not initialise take the default
    member initialisers of the class declaration, which is not part of the
    sources: no jank type, unknown metadata, zero times and no render
    rate, the unset values of the spec's data model. *)
Definition make (vsyncId inputEventId ownerPid ownerUid : Z)
    (layerName debugName : string) (predictionState : PredictionState.t)
    (predictions : TimelineItem)
    (thresholds : JankClassificationThresholds) : t :=
  {| mToken := vsyncId;
     mInputEventId := inputEventId;
     mOwnerPid := ownerPid;
     mOwnerUid := ownerUid;
     mLayerName := layerName;
     mDebugName := debugName;
     mPresentState := PresentState.Unknown;
     mPredictionState := predictionState;
     mPredictions := predictions;
     mActuals := {| startTime := 0; endTime := 0; presentTime := 0 |};
     mActualQueueTime := 0;
     mLastLatchTime := 0;
     mRenderRate := None;
     mJankType := JankType.None;
     mFramePresentMetadata := UnknownPresent;
     mFrameReadyMetadata := UnknownFinish;
     mJankClassificationThresholds := thresholds |}.

(** Assignments to single members. *)
Definition with_mActuals (a : TimelineItem) (f : t) : t :=
  {| mToken := mToken f; mInputEventId := mInputEventId f;
     mOwnerPid := mOwnerPid f; mOwnerUid := mOwnerUid f;
     mLayerName := mLayerName f; mDebugName := mDebugName f;
     mPresentState := mPresentState f;
     mPredictionState := mPredictionState f;
     mPredictions := mPredictions f; mActuals := a;
     mActualQueueTime := mActualQueueTime f;
     mLastLatchTime := mLastLatchTime f; mRenderRate := mRenderRate f;
     mJankType := mJankType f;
     mFramePresentMetadata := mFramePresentMetadata f;
     mFrameReadyMetadata := mFrameReadyMetadata f;
     mJankClassificationThresholds := mJankClassificationThresholds f |}.

Definition with_mActualQueueTime (q : Z) (f : t) : t :=
  {| mToken := mToken f; mInputEventId := mInputEventId f;
     mOwnerPid := mOwnerPid f; mOwnerUid := mOwnerUid f;
     mLayerName := mLayerName f; mDebugName := mDebugName f;
     mPresentState := mPresentState f;
     mPredictionState := mPredictionState f;
     mPredictions := mPredictions f; mActuals := mActuals f;
     mActualQueueTime := q;
     mLastLatchTime := mLastLatchTime f; mRenderRate := mRenderRate f;
     mJankType := mJankType f;
     mFramePresentMetadata := mFramePresentMetadata f;
     mFrameReadyMetadata := mFrameReadyMetadata f;
     mJankClassificationThresholds := mJankClassificationThresholds f |}.

Definition with_mPresentState (p : PresentState.t) (latch : Z) (f : t) : t :=
  {| mToken := mToken f; mInputEventId := mInputEventId f;
     mOwnerPid := mOwnerPid f; mOwnerUid := mOwnerUid f;
     mLayerName := mLayerName f; mDebugName := mDebugName f;
     mPresentState := p;
     mPredictionState := mPredictionState f;
     mPredictions := mPredictions f; mActuals := mActuals f;
     mActualQueueTime := mActualQueueTime f;
     mLastLatchTime := latch; mRenderRate := mRenderRate f;
     mJankType := mJankType f;
     mFramePresentMetadata := mFramePresentMetadata f;
     mFrameReadyMetadata := mFrameReadyMetadata f;
     mJankClassificationThresholds := mJankClassificationThresholds f |}.

Definition with_mRenderRate (r : option Fps) (f : t) : t :=
  {| mToken := mToken f; mInputEventId := mInputEventId f;
     mOwnerPid := mOwnerPid f; mOwnerUid := mOwnerUid f;
     mLayerName := mLayerName f; mDebugName := mDebugName f;
     mPresentState := mPresentState f;
     mPredictionState := mPredictionState f;
     mPredictions := mPredictions f; mActuals := mActuals f;
     mActualQueueTime := mActualQueueTime f;
     mLastLatchTime := mLastLatchTime f; mRenderRate := r;
     mJankType := mJankType f;
     mFramePresentMetadata := mFramePresentMetadata f;
     mFrameReadyMetadata := mFrameReadyMetadata f;
     mJankClassificationThresholds := mJankClassificationThresholds f |}.

(** The three members the classifier writes. *)
Definition with_classification (jank : Z) (present : FramePresentMetadata)
    (ready : FrameReadyMetadata) (f : t) : t :=
  {| mToken := mToken f; mInputEventId := mInputEventId f;
     mOwnerPid := mOwnerPid f; mOwnerUid := mOwnerUid f;
     mLayerName := mLayerName f; mDebugName := mDebugName f;
     mPresentState := mPresentState f;
     mPredictionState := mPredictionState f;
     mPredictions := mPredictions f; mActuals := mActuals f;
     mActualQueueTime := mActualQueueTime f;
     mLastLatchTime := mLastLatchTime f; mRenderRate := mRenderRate f;
     mJankType := jank;
     mFramePresentMetadata := present;
     mFrameReadyMetadata := ready;
     mJankClassificationThresholds := mJankClassificationThresholds f |}.

Definition setActualStartTime (actualStartTime : Z) (f : t) : t :=
  with_mActuals {| startTime := actualStartTime;
                   endTime := endTime (mActuals f);
                   presentTime := presentTime (mActuals f) |} f.

Definition setActualQueueTime (actualQueueTime : Z) (f : t) : t :=
  with_mActualQueueTime actualQueueTime f.

Definition setAcquireFenceTime (acquireFenceTime : Z) (f : t) : t :=
  with_mActuals {| startTime := startTime (mActuals f);
                   endTime := Z.max acquireFenceTime (mActualQueueTime f);
                   presentTime := presentTime (mActuals f) |} f.

(** [LOG_ALWAYS_FATAL_IF(mPresentState != PresentState::Unknown, ...)]
    aborts the process: no object is returned. *)
Definition setPresentState (presentState : PresentState.t)
    (lastLatchTime : Z) (f : t) : option t :=
  if decide (mPresentState f ≠ PresentState.Unknown) then None
  else Some (with_mPresentState presentState lastLatchTime f).

Definition setRenderRate (renderRate : Fps) (f : t) : t :=
  with_mRenderRate (Some renderRate) f.

Definition getJankType (f : t) : option Z :=
  if decide (presentTime (mActuals f) = 0) then None else Some (mJankType f).

Definition getBaseTime (f : t) : Z :=
  getMinTime (mPredictionState f) (mPredictions f) (mActuals f).

(** The jank type the [Valid] branch of [onPresent] computes, from the
    value [jank] the member had on entry. *)
Definition classify (jank : Z) (present : FramePresentMetadata)
    (ready : FrameReadyMetadata) (deltaToVsync period threshold : Z)
    (lastLatchTime predictedEnd displayFrameJankType : Z) : Z :=
  if decide (present = OnTimePresent) then JankType.None
  else if decide (present = EarlyPresent) then
    if decide (ready = OnTimeFinish) then
      if isVsyncFactor deltaToVsync period threshold
      then JankType.SurfaceFlingerScheduling
      else JankType.PredictionError
    else if decide (ready = LateFinish) then JankType.Unknown
    else jank
  else
    let jank :=
      if decide (lastLatchTime ≠ 0 ∧ predictedEnd <= lastLatchTime)
      then Z.lor jank JankType.BufferStuffing else jank in
    if decide (ready = OnTimeFinish) then
      if decide (displayFrameJankType ≠ JankType.None)
      then Z.lor jank displayFrameJankType
      else if isVsyncFactor deltaToVsync period threshold
           then Z.lor jank JankType.SurfaceFlingerScheduling
           else Z.lor jank JankType.PredictionError
    else if decide (ready = LateFinish) then
      if decide (displayFrameJankType = JankType.None)
      then Z.lor jank JankType.AppDeadlineMissed
      else Z.lor jank displayFrameJankType
    else jank.

(** [onPresent].  The remainder [std::abs(presentDelta) %
    refreshRate.getPeriodNsecs()] is taken before any test of the [Valid]
    branch; with a period of 0 it is undefined (the process dies of a
    division by zero): no result. *)
Definition onPresent (presentTime' displayFrameJankType : Z)
    (refreshRate : Fps) (displayDeadlineDelta displayPresentDelta : Z)
    (f : t) : option (t * list JankyFramesInfo) :=
  if decide (mPresentState f ≠ PresentState.Presented) then Some (f, [])
  else
    let f := with_mActuals {| startTime := startTime (mActuals f);
                              endTime := endTime (mActuals f);
                              presentTime := presentTime' |} f in
    if decide (mPredictionState f = PredictionState.None) then Some (f, [])
    else if decide (mPredictionState f = PredictionState.Expired) then
      let f := with_classification JankType.Unknown UnknownPresent
                                   UnknownFinish f in
      let kAppDeadlineDelta := -1 in
      Some (f, [ {| info_refreshRate := refreshRate;
                    info_renderRate := mRenderRate f;
                    info_uid := mOwnerUid f;
                    info_layerName := mLayerName f;
                    info_jankType := mJankType f;
                    info_displayDeadlineDelta := displayDeadlineDelta;
                    info_displayPresentDelta := displayPresentDelta;
                    info_appDeadlineDelta := kAppDeadlineDelta |} ])
    else
      let thresholds := mJankClassificationThresholds f in
      let presentDelta :=
        sub64 (presentTime (mActuals f)) (presentTime (mPredictions f)) in
      let deadlineDelta :=
        sub64 (endTime (mActuals f)) (endTime (mPredictions f)) in
      if decide (getPeriodNsecs refreshRate = 0) then None
      else
        let deltaToVsync :=
          Z.rem (abs64 presentDelta) (getPeriodNsecs refreshRate) in
        let ready :=
          if decide (deadlineDelta > deadlineThreshold thresholds)
          then LateFinish else OnTimeFinish in
        let present :=
          if decide (abs64 presentDelta > presentThreshold thresholds)
          then (if decide (presentDelta > 0) then LatePresent else EarlyPresent)
          else OnTimePresent in
        let jank :=
          classify (mJankType f) present ready deltaToVsync
                   (getPeriodNsecs refreshRate) (presentThreshold thresholds)
                   (mLastLatchTime f) (endTime (mPredictions f))
                   displayFrameJankType in
        let f := with_classification jank present ready f in
        Some (f, [ {| info_refreshRate := refreshRate;
                      info_renderRate := mRenderRate f;
                      info_uid := mOwnerUid f;
                      info_layerName := mLayerName f;
                      info_jankType := mJankType f;
                      info_displayDeadlineDelta := displayDeadlineDelta;
                      info_displayPresentDelta := displayPresentDelta;
                      info_appDeadlineDelta := deadlineDelta |} ]).

(** What [dump] writes of the frame, as far as it is modelled: the jank
    type, decoded, and the table.  No result when the decoder aborts. *)
Record Dump := {
  dump_jankType : string;
  dump_table : option TableRow * TableRow;
}.

Definition dump (baseTime : Z) (f : t) : option Dump :=
  jankType ← jankTypeBitmaskToString (mJankType f);
  Some {| dump_jankType := jankType;
          dump_table := dumpTable (mPredictions f) (mActuals f)
                                  (mPredictionState f) baseTime |}.

End SurfaceFrame.

(** ** [TokenManager] *)

Module TokenManager.

Record TokenManagerPrediction := {
  timestamp : Z;
  predictions : TimelineItem;
}.

(** [mPredictions] is a [std::map] keyed by token: an association list in
    ascending key order, which is the order [begin()] .. [end()] visits. *)
Abbreviation PredictionMap := (list (Z * TokenManagerPrediction)).

(** [m.find(token)] *)
Fixpoint map_find (token : Z) (m : PredictionMap) : option TokenManagerPrediction :=
  match m with
  | [] => None
  | (k, v) :: rest => if decide (k = token) then Some v else map_find token rest
  end.

(** [m[token] = v] *)
Fixpoint map_assign (token : Z) (v : TokenManagerPrediction) (m : PredictionMap)
    : PredictionMap :=
  match m with
  | [] => [(token, v)]
  | (k, v') :: rest =>
      if decide (token < k) then (token, v) :: (k, v') :: rest
      else if decide (token = k) then (token, v) :: rest
      else (k, v') :: map_assign token v rest
  end.

Record t := {
  mCurrentToken : Z;
  mPredictions : PredictionMap;
}.

Section WithHeader.
Context `{Header}.

(** The initial value of [mCurrentToken] is [INVALID_VSYNC_ID + 1]. *)
Definition make : t :=
  {| mCurrentToken := INVALID_VSYNC_ID + 1; mPredictions := [] |}.

(** The loop of [flushTokens]: erase from the front while the entry is at
    least [kMaxRetentionTime] old, stop at the first one that is not. *)
Fixpoint flushTokens_loop (flushTime : Z) (m : PredictionMap) : PredictionMap :=
  match m with
  | [] => []
  | (k, v) :: rest =>
      if decide (sub64 flushTime (timestamp v) >= kMaxRetentionTime)
      then flushTokens_loop flushTime rest
      else (k, v) :: rest
  end.

Definition flushTokens (flushTime : Z) (tm : t) : t :=
  {| mCurrentToken := mCurrentToken tm;
     mPredictions := flushTokens_loop flushTime (mPredictions tm) |}.

(** [now1] and [now2] are the values the two calls of [systemTime()]
    return. *)
Definition generateTokenForPredictions (now1 now2 : Z)
    (predictions' : TimelineItem) (tm : t) : Z * t :=
  let assignedToken := mCurrentToken tm in
  let tm :=
    {| mCurrentToken := wrap64 (mCurrentToken tm + 1);
       mPredictions :=
         map_assign assignedToken
           {| timestamp := now1; predictions := predictions' |}
           (mPredictions tm) |} in
  let tm := flushTokens now2 tm in
  (assignedToken, tm).

Definition getPredictionsForToken (token : Z) (tm : t) : option TimelineItem :=
  match map_find token (mPredictions tm) with
  | Some p => Some (predictions p)
  | None => None
  end.

End WithHeader.

End TokenManager.

(** ** [FrameTimeline::DisplayFrame] *)

Module DisplayFrame.

Record t := {
  mToken : Z;
  mPredictionState : PredictionState.t;
  mSurfaceFlingerPredictions : TimelineItem;
  mSurfaceFlingerActuals : TimelineItem;
  mRefreshRate : Fps;
  mJankType : Z;
  mFramePresentMetadata : FramePresentMetadata;
  mFrameReadyMetadata : FrameReadyMetadata;
  mFrameStartMetadata : FrameStartMetadata;
  mSurfaceFrames : list SurfaceFrame.t;
  mJankClassificationThresholds : JankClassificationThresholds;
}.

Section WithHeader.
Context `{Header}.

(** The constructor.  The members it does not initialise take the default
    member initialisers of the class declaration, which is not part of the
    sources: the invalid token, no predictions, no jank type, unknown
    metadata, and a default [Fps], whose period is 0. *)
Definition make (thresholds : JankClassificationThresholds) : t :=
  {| mToken := INVALID_VSYNC_ID;
     mPredictionState := PredictionState.None;
     mSurfaceFlingerPredictions := TimelineItem_default;
     mSurfaceFlingerActuals := TimelineItem_default;
     mRefreshRate := {| getPeriodNsecs := 0 |};
     mJankType := JankType.None;
     mFramePresentMetadata := UnknownPresent;
     mFrameReadyMetadata := UnknownFinish;
     mFrameStartMetadata := UnknownStart;
     mSurfaceFrames := [];
     mJankClassificationThresholds := thresholds |}.

End WithHeader.

Definition addSurfaceFrame (surfaceFrame : SurfaceFrame.t) (f : t) : t :=
  {| mToken := mToken f;
     mPredictionState := mPredictionState f;
     mSurfaceFlingerPredictions := mSurfaceFlingerPredictions f;
     mSurfaceFlingerActuals := mSurfaceFlingerActuals f;
     mRefreshRate := mRefreshRate f;
     mJankType := mJankType f;
     mFramePresentMetadata := mFramePresentMetadata f;
     mFrameReadyMetadata := mFrameReadyMetadata f;
     mFrameStartMetadata := mFrameStartMetadata f;
     mSurfaceFrames := mSurfaceFrames f ++ [surfaceFrame];
     mJankClassificationThresholds := mJankClassificationThresholds f |}.

Definition onSfWakeUp (token : Z) (refreshRate : Fps)
    (predictions : option TimelineItem) (wakeUpTime : Z) (f : t) : t :=
  {| mToken := token;
     mPredictionState :=
       match predictions with
       | None => PredictionState.Expired
       | Some _ => PredictionState.Valid
       end;
     mSurfaceFlingerPredictions :=
       match predictions with
       | None => mSurfaceFlingerPredictions f
       | Some p => p
       end;
     mSurfaceFlingerActuals :=
       {| startTime := wakeUpTime;
          endTime := endTime (mSurfaceFlingerActuals f);
          presentTime := presentTime (mSurfaceFlingerActuals f) |};
     mRefreshRate := refreshRate;
     mJankType := mJankType f;
     mFramePresentMetadata := mFramePresentMetadata f;
     mFrameReadyMetadata := mFrameReadyMetadata f;
     mFrameStartMetadata := mFrameStartMetadata f;
     mSurfaceFrames := mSurfaceFrames f;
     mJankClassificationThresholds := mJankClassificationThresholds f |}.

Definition setActualEndTime (actualEndTime : Z) (f : t) : t :=
  {| mToken := mToken f;
     mPredictionState := mPredictionState f;
     mSurfaceFlingerPredictions := mSurfaceFlingerPredictions f;
     mSurfaceFlingerActuals :=
       {| startTime := startTime (mSurfaceFlingerActuals f);
          endTime := actualEndTime;
          presentTime := presentTime (mSurfaceFlingerActuals f) |};
     mRefreshRate := mRefreshRate f;
     mJankType := mJankType f;
     mFramePresentMetadata := mFramePresentMetadata f;
     mFrameReadyMetadata := mFrameReadyMetadata f;
     mFrameStartMetadata := mFrameStartMetadata f;
     mSurfaceFrames := mSurfaceFrames f;
     mJankClassificationThresholds := mJankClassificationThresholds f |}.

(** The jank type [onPresent] computes, from the value [jank] the member
    had on entry. *)
Definition classify (jank : Z) (present : FramePresentMetadata)
    (ready : FrameReadyMetadata) (deltaToVsync period threshold : Z) : Z :=
  if decide (present ≠ OnTimePresent) then
    if decide (present = EarlyPresent) then
      if decide (ready = OnTimeFinish) then
        if isVsyncFactor deltaToVsync period threshold
        then JankType.SurfaceFlingerScheduling
        else JankType.PredictionError
      else if decide (ready = LateFinish) then JankType.SurfaceFlingerScheduling
      else JankType.Unknown
    else if decide (present = LatePresent) then
      if decide (ready = OnTimeFinish) then
        if isVsyncFactor deltaToVsync period threshold
        then JankType.DisplayHAL
        else JankType.PredictionError
      else if decide (ready = LateFinish)
           then JankType.SurfaceFlingerCpuDeadlineMissed
      else JankType.Unknown
    else JankType.Unknown
  else jank.

(** The loop over [mSurfaceFrames] that ends [onPresent]; no result when
    a surface frame has none. *)
Fixpoint presentSurfaceFrames (signalTime jank : Z) (refreshRate : Fps)
    (deadlineDelta deltaToVsync : Z) (frames : list SurfaceFrame.t)
    : option (list SurfaceFrame.t * list JankyFramesInfo) :=
  match frames with
  | [] => Some ([], [])
  | surfaceFrame :: rest =>
      match SurfaceFrame.onPresent signalTime jank refreshRate deadlineDelta
                                   deltaToVsync surfaceFrame with
      | Some (surfaceFrame, out) =>
          match presentSurfaceFrames signalTime jank refreshRate deadlineDelta
                                     deltaToVsync rest with
          | Some (rest, outs) => Some (surfaceFrame :: rest, out ++ outs)
          | None => None
          end
      | None => None
      end
  end.

(** [onPresent].  The remainder [std::abs(presentDelta) %
    mRefreshRate.getPeriodNsecs()] is taken before any test; with a period
    of 0, which is the period of a frame that [onSfWakeUp] never reached,
    it is undefined (the process dies of a division by zero): no
    result. *)
Definition onPresent (signalTime : Z) (f : t)
    : option (t * list JankyFramesInfo) :=
  let actuals :=
    {| startTime := startTime (mSurfaceFlingerActuals f);
       endTime := endTime (mSurfaceFlingerActuals f);
       presentTime := signalTime |} in
  let predictions := mSurfaceFlingerPredictions f in
  let thresholds := mJankClassificationThresholds f in
  let presentDelta := sub64 (presentTime actuals) (presentTime predictions) in
  let deadlineDelta := sub64 (endTime actuals) (endTime predictions) in
  if decide (getPeriodNsecs (mRefreshRate f) = 0) then None
  else
    let deltaToVsync :=
      Z.rem (abs64 presentDelta) (getPeriodNsecs (mRefreshRate f)) in
    let present :=
      if decide (abs64 presentDelta > presentThreshold thresholds)
      then (if decide (presentDelta > 0) then LatePresent else EarlyPresent)
      else OnTimePresent in
    let ready :=
      if decide (sub64 (endTime actuals) (endTime predictions)
                 > deadlineThreshold thresholds)
      then LateFinish else OnTimeFinish in
    let start :=
      if decide (abs64 (sub64 (startTime actuals) (startTime predictions))
                 > startThreshold thresholds)
      then (if decide (startTime actuals > startTime predictions)
            then LateStart else EarlyStart)
      else mFrameStartMetadata f in
    let jank :=
      classify (mJankType f) present ready deltaToVsync
               (getPeriodNsecs (mRefreshRate f)) (presentThreshold thresholds) in
    match presentSurfaceFrames signalTime jank (mRefreshRate f) deadlineDelta
                               deltaToVsync (mSurfaceFrames f) with
    | Some (surfaceFrames, outs) =>
        Some ({| mToken := mToken f;
                 mPredictionState := mPredictionState f;
                 mSurfaceFlingerPredictions := predictions;
                 mSurfaceFlingerActuals := actuals;
                 mRefreshRate := mRefreshRate f;
                 mJankType := jank;
                 mFramePresentMetadata := present;
                 mFrameReadyMetadata := ready;
                 mFrameStartMetadata := start;
                 mSurfaceFrames := surfaceFrames;
                 mJankClassificationThresholds := thresholds |}, outs)
    | None => None
    end.

Definition getBaseTime (f : t) : Z :=
  let baseTime :=
    getMinTime (mPredictionState f) (mSurfaceFlingerPredictions f)
               (mSurfaceFlingerActuals f) in
  fold_left
    (fun baseTime surfaceFrame =>
       let surfaceFrameBaseTime := SurfaceFrame.getBaseTime surfaceFrame in
       if decide (surfaceFrameBaseTime ≠ 0)
       then Z.min baseTime surfaceFrameBaseTime else baseTime)
    (mSurfaceFrames f) baseTime.

(** The test at the head of [dumpJank]: whether the frame is dumped.  The
    text that [dump] then writes is not modelled.  [getJankType()] is a
    [std::optional]; compared with [!=] to a value, an empty optional is
    unequal to it. *)
Definition dumpJank_dumps (f : t) : bool :=
  if decide (mJankType f = JankType.None) then
    existsb
      (λ surfaceFrame,
         match SurfaceFrame.getJankType surfaceFrame with
         | Some jankType => bool_decide (jankType ≠ JankType.None)
         | None => true
         end)
      (mSurfaceFrames f)
  else true.

(** What [dump] writes of the frame, as far as it is modelled: the jank
    type, decoded, the table, and what the surface frames write, in their
    order.  No result when a decoder aborts, and none when the period is
    0: for the line "Present delta % refreshrate" the function takes
    [std::abs(presentDelta) % mRefreshRate.getPeriodNsecs()]. *)
Record Dump := {
  dump_jankType : string;
  dump_table : option TableRow * TableRow;
  dump_surfaceFrames : list SurfaceFrame.Dump;
}.

Definition dump (baseTime : Z) (f : t) : option Dump :=
  jankType ← jankTypeBitmaskToString (mJankType f);
  if decide (getPeriodNsecs (mRefreshRate f) = 0) then None
  else
    let table := dumpTable (mSurfaceFlingerPredictions f)
                           (mSurfaceFlingerActuals f) (mPredictionState f)
                           baseTime in
    surfaceFrames ← mapM (SurfaceFrame.dump baseTime) (mSurfaceFrames f);
    Some {| dump_jankType := jankType;
            dump_table := table;
            dump_surfaceFrames := surfaceFrames |}.

Definition dumpAll (baseTime : Z) (f : t) : option Dump := dump baseTime f.

(** [Some None] when the frame is skipped; otherwise the number written
    after "Display Frame" and the dump. *)
Definition dumpJank (baseTime : Z) (displayFrameCount : nat) (f : t)
    : option (option (nat * Dump)) :=
  if dumpJank_dumps f then
    dumped ← dump baseTime f;
    Some (Some (displayFrameCount, dumped))
  else Some None.

End DisplayFrame.

(** ** [FrameTimeline] *)

(** What a [FenceTime] answers when it is polled. *)
Record FenceTime := {
  isValid : bool;
  getSignalTime : Z;
}.

(** Calls that leave the object: the metrics collaborator and the trace
    of a classified display frame (the packets themselves are not
    modelled). *)
Inductive Output :=
  | IncrementJankyFrames (info : JankyFramesInfo)
  | Trace (displayFrame : nat).

Module FrameTimeline.

(** A [std::shared_ptr<DisplayFrame>] is an index into [heap]; a
    [std::shared_ptr<FenceTime>] is [None] when null and the name of a
    fence otherwise. *)
Record t := {
  heap : list DisplayFrame.t;
  mCurrentDisplayFrame : nat;
  mPendingPresentFences : list (option nat * nat);
  mDisplayFrames : list nat;
  mMaxDisplayFrames : N;
  mTokenManager : TokenManager.t;
  mSurfaceFlingerPid : Z;
  mJankClassificationThresholds : JankClassificationThresholds;
}.

Definition with_heap (h : list DisplayFrame.t) (ft : t) : t :=
  {| heap := h;
     mCurrentDisplayFrame := mCurrentDisplayFrame ft;
     mPendingPresentFences := mPendingPresentFences ft;
     mDisplayFrames := mDisplayFrames ft;
     mMaxDisplayFrames := mMaxDisplayFrames ft;
     mTokenManager := mTokenManager ft;
     mSurfaceFlingerPid := mSurfaceFlingerPid ft;
     mJankClassificationThresholds := mJankClassificationThresholds ft |}.

Definition with_mPendingPresentFences (q : list (option nat * nat)) (ft : t) : t :=
  {| heap := heap ft;
     mCurrentDisplayFrame := mCurrentDisplayFrame ft;
     mPendingPresentFences := q;
     mDisplayFrames := mDisplayFrames ft;
     mMaxDisplayFrames := mMaxDisplayFrames ft;
     mTokenManager := mTokenManager ft;
     mSurfaceFlingerPid := mSurfaceFlingerPid ft;
     mJankClassificationThresholds := mJankClassificationThresholds ft |}.

Definition with_mTokenManager (tm : TokenManager.t) (ft : t) : t :=
  {| heap := heap ft;
     mCurrentDisplayFrame := mCurrentDisplayFrame ft;
     mPendingPresentFences := mPendingPresentFences ft;
     mDisplayFrames := mDisplayFrames ft;
     mMaxDisplayFrames := mMaxDisplayFrames ft;
     mTokenManager := tm;
     mSurfaceFlingerPid := mSurfaceFlingerPid ft;
     mJankClassificationThresholds := mJankClassificationThresholds ft |}.

Section WithHeader.
Context `{Header}.

(** The constructor: the first current display frame is allocated. *)
Definition make (surfaceFlingerPid : Z)
    (thresholds : JankClassificationThresholds) : t :=
  {| heap := [DisplayFrame.make thresholds];
     mCurrentDisplayFrame := 0%nat;
     mPendingPresentFences := [];
     mDisplayFrames := [];
     mMaxDisplayFrames := kDefaultMaxDisplayFrames;
     mTokenManager := TokenManager.make;
     mSurfaceFlingerPid := surfaceFlingerPid;
     mJankClassificationThresholds := thresholds |}.

Definition addSurfaceFrame (surfaceFrame : SurfaceFrame.t) (ft : t) : t :=
  with_heap (alter (DisplayFrame.addSurfaceFrame surfaceFrame)
                   (mCurrentDisplayFrame ft) (heap ft)) ft.

Definition setSfWakeUp (token wakeUpTime : Z) (refreshRate : Fps) (ft : t) : t :=
  with_heap
    (alter (DisplayFrame.onSfWakeUp token refreshRate
              (TokenManager.getPredictionsForToken token (mTokenManager ft))
              wakeUpTime)
           (mCurrentDisplayFrame ft) (heap ft)) ft.

(** [displayFrame->onPresent(signalTime); displayFrame->trace(...)] on the
    frame a pointer designates; no result when [onPresent] has none. *)
Definition presentDisplayFrame (displayFrame : nat) (signalTime : Z)
    (h : list DisplayFrame.t) : option (list DisplayFrame.t * list Output) :=
  match h !! displayFrame with
  | Some f =>
      match DisplayFrame.onPresent signalTime f with
      | Some (f, outs) =>
          Some (<[displayFrame := f]> h,
                map IncrementJankyFrames outs ++ [Trace displayFrame])
      | None => None
      end
  | None => Some (h, [])
  end.

(** The loop of [flushPendingPresentFences], entry by entry.  [continue]
    keeps the entry and moves on; [erase] followed by [--i] removes it and
    moves on to the one that followed it.  [fences] is what each fence
    answers during this call. *)
Fixpoint flushPendingPresentFences_loop (fences : nat -> FenceTime)
    (pending : list (option nat * nat)) (h : list DisplayFrame.t)
    : option (list (option nat * nat) * list DisplayFrame.t * list Output) :=
  match pending with
  | [] => Some ([], h, [])
  | (fence, displayFrame) :: rest =>
      let polled :=
        match fence with
        | Some name => isValid (fences name)
        | None => false
        end in
      let signalTime :=
        match fence with
        | Some name =>
            if isValid (fences name) then getSignalTime (fences name)
            else SIGNAL_TIME_INVALID
        | None => SIGNAL_TIME_INVALID
        end in
      if polled && bool_decide (signalTime = SIGNAL_TIME_PENDING) then
        match flushPendingPresentFences_loop fences rest h with
        | Some (rest, h, outs) => Some ((fence, displayFrame) :: rest, h, outs)
        | None => None
        end
      else
        match (if decide (signalTime ≠ SIGNAL_TIME_INVALID)
               then presentDisplayFrame displayFrame signalTime h
               else Some (h, [])) with
        | Some (h, out) =>
            match flushPendingPresentFences_loop fences rest h with
            | Some (rest, h, outs) => Some (rest, h, out ++ outs)
            | None => None
            end
        | None => None
        end
  end.

Definition flushPendingPresentFences (fences : nat -> FenceTime) (ft : t)
    : option (t * list Output) :=
  match flushPendingPresentFences_loop fences (mPendingPresentFences ft)
          (heap ft) with
  | Some (pending, h, outs) =>
      Some (with_mPendingPresentFences pending (with_heap h ft), outs)
  | None => None
  end.

(** [while (mDisplayFrames.size() >= mMaxDisplayFrames) pop_front()].
    [pop_front] on an empty deque is undefined: no result. *)
Fixpoint popOlderFrames (maxDisplayFrames : N) (displayFrames : list nat)
    : option (list nat) :=
  if decide (N.of_nat (length displayFrames) >= maxDisplayFrames)%N then
    match displayFrames with
    | [] => None
    | _ :: rest => popOlderFrames maxDisplayFrames rest
    end
  else Some displayFrames.

Definition finalizeCurrentDisplayFrame (ft : t) : option t :=
  match popOlderFrames (mMaxDisplayFrames ft) (mDisplayFrames ft) with
  | None => None
  | Some displayFrames =>
      Some {| heap := heap ft ++ [DisplayFrame.make (mJankClassificationThresholds ft)];
              mCurrentDisplayFrame := length (heap ft);
              mPendingPresentFences := mPendingPresentFences ft;
              mDisplayFrames := displayFrames ++ [mCurrentDisplayFrame ft];
              mMaxDisplayFrames := mMaxDisplayFrames ft;
              mTokenManager := mTokenManager ft;
              mSurfaceFlingerPid := mSurfaceFlingerPid ft;
              mJankClassificationThresholds := mJankClassificationThresholds ft |}
  end.

Definition setSfPresent (sfPresentTime : Z) (presentFence : option nat)
    (fences : nat -> FenceTime) (ft : t) : option (t * list Output) :=
  let ft :=
    with_heap (alter (DisplayFrame.setActualEndTime sfPresentTime)
                     (mCurrentDisplayFrame ft) (heap ft)) ft in
  let ft :=
    with_mPendingPresentFences
      (mPendingPresentFences ft ++ [(presentFence, mCurrentDisplayFrame ft)]) ft in
  match flushPendingPresentFences fences ft with
  | Some (ft, outs) =>
      match finalizeCurrentDisplayFrame ft with
      | Some ft => Some (ft, outs)
      | None => None
      end
  | None => None
  end.

Definition setMaxDisplayFrames (size : N) (ft : t) : t :=
  {| heap := heap ft;
     mCurrentDisplayFrame := mCurrentDisplayFrame ft;
     mPendingPresentFences := [];
     mDisplayFrames := [];
     mMaxDisplayFrames := size;
     mTokenManager := mTokenManager ft;
     mSurfaceFlingerPid := mSurfaceFlingerPid ft;
     mJankClassificationThresholds := mJankClassificationThresholds ft |}.

Definition reset (ft : t) : t :=
  setMaxDisplayFrames kDefaultMaxDisplayFrames ft.

(** [frameTimelineInfo] is given by its two members. *)
Definition createSurfaceFrameForToken (vsyncId inputEventId : Z)
    (ownerPid ownerUid : Z) (layerName debugName : string) (ft : t)
    : SurfaceFrame.t :=
  if decide (vsyncId = INVALID_VSYNC_ID) then
    SurfaceFrame.make vsyncId inputEventId ownerPid ownerUid layerName
      debugName PredictionState.None TimelineItem_default
      (mJankClassificationThresholds ft)
  else
    match TokenManager.getPredictionsForToken vsyncId (mTokenManager ft) with
    | Some predictions =>
        SurfaceFrame.make vsyncId inputEventId ownerPid ownerUid layerName
          debugName PredictionState.Valid predictions
          (mJankClassificationThresholds ft)
    | None =>
        SurfaceFrame.make vsyncId inputEventId ownerPid ownerUid layerName
          debugName PredictionState.Expired TimelineItem_default
          (mJankClassificationThresholds ft)
    end.

(** The local [baseTime] of [dumpAll] and of [dumpJank]. *)
Definition dump_baseTime (ft : t) : Z :=
  match mDisplayFrames ft with
  | [] => 0
  | first :: _ =>
      match heap ft !! first with
      | Some f => DisplayFrame.getBaseTime f
      | None => 0
      end
  end.

(** The display frames [dumpJank] dumps: the positions [i] in the history
    for which it writes "Display Frame i". *)
Definition dumpJank_frames (ft : t) : list nat :=
  omap (λ '(i, displayFrame),
          match heap ft !! displayFrame with
          | Some f => if DisplayFrame.dumpJank_dumps f then Some i else None
          | None => None
          end)
       (imap (λ i displayFrame, (i, displayFrame)) (mDisplayFrames ft)).

(** [dumpAll]: the number written after "Display Frame" and the dump of
    each display frame of the history.  No result when the dump of a
    frame has none: a decoder aborts, or the period of the frame is 0. *)
Definition dumpAll (ft : t) : option (list (nat * DisplayFrame.Dump)) :=
  let baseTime := dump_baseTime ft in
  mapM (λ '(i, displayFrame),
          f ← heap ft !! displayFrame;
          dumped ← DisplayFrame.dumpAll baseTime f;
          Some (i, dumped))
       (imap (λ i displayFrame, (i, displayFrame)) (mDisplayFrames ft)).

Definition dumpJank (ft : t) : option (list (nat * DisplayFrame.Dump)) :=
  let baseTime := dump_baseTime ft in
  written ← mapM (λ '(i, displayFrame),
                    f ← heap ft !! displayFrame;
                    DisplayFrame.dumpJank baseTime i f)
                 (imap (λ i displayFrame, (i, displayFrame))
                       (mDisplayFrames ft));
  Some (omap id written).



(** The calls a client makes (the first one through [getTokenManager()]),
    and a run of them. *)
Inductive Call :=
  | GenerateTokenForPredictions (now1 now2 : Z) (predictions : TimelineItem)
  | AddSurfaceFrame (surfaceFrame : SurfaceFrame.t)
  | SetSfWakeUp (token wakeUpTime : Z) (refreshRate : Fps)
  | SetSfPresent (sfPresentTime : Z) (presentFence : option nat)
                 (fences : nat -> FenceTime)
  | SetMaxDisplayFrames (size : N)
  | ResetTimeline.

Definition call (c : Call) (ft : t) : option (t * list Output) :=
  match c with
  | GenerateTokenForPredictions now1 now2 predictions =>
      Some (with_mTokenManager
              (TokenManager.generateTokenForPredictions now1 now2 predictions
                 (mTokenManager ft)).2 ft, [])
  | AddSurfaceFrame surfaceFrame => Some (addSurfaceFrame surfaceFrame ft, [])
  | SetSfWakeUp token wakeUpTime refreshRate =>
      Some (setSfWakeUp token wakeUpTime refreshRate ft, [])
  | SetSfPresent sfPresentTime presentFence fences =>
      setSfPresent sfPresentTime presentFence fences ft
  | SetMaxDisplayFrames size => Some (setMaxDisplayFrames size ft, [])
  | ResetTimeline => Some (reset ft, [])
  end.

Fixpoint run (calls : list Call) (ft : t) : option (t * list Output) :=
  match calls with
  | [] => Some (ft, [])
  | c :: rest =>
      match call c ft with
      | Some (ft, out) =>
          match run rest ft with
          | Some (ft, outs) => Some (ft, out ++ outs)
          | None => None
          end
      | None => None
      end
  end.

End WithHeader.

End FrameTimeline.

(** ** Concrete values for the examples *)

(** The header constants as the platform declares them: a retention of
    120 ms, a history of 64 display frames, [INT64_MAX] and [-1] for a
    pending and an invalid signal time, [-1] for the invalid vsync id. *)
Definition platform_header : Header :=
  {| kMaxRetentionTime := 120000000;
     kDefaultMaxDisplayFrames := 64;
     SIGNAL_TIME_PENDING := INT64_MAX;
     SIGNAL_TIME_INVALID := -1;
     INVALID_VSYNC_ID := -1 |}.

(** Thresholds of 2 ms and a 60 Hz refresh rate. *)
Definition thresholds_2ms : JankClassificationThresholds :=
  {| presentThreshold := 2000000;
     deadlineThreshold := 2000000;
     startThreshold := 2000000 |}.

Definition fps60 : Fps := {| getPeriodNsecs := 16666666 |}.

(** A display frame predicted to end at 10 ms and to present at 30 ms that
    ends at 15 ms. *)
Definition display_early_late : DisplayFrame.t :=
  {| DisplayFrame.mToken := 1;
     DisplayFrame.mPredictionState := PredictionState.Valid;
     DisplayFrame.mSurfaceFlingerPredictions :=
       {| startTime := 1000000; endTime := 10000000; presentTime := 30000000 |};
     DisplayFrame.mSurfaceFlingerActuals :=
       {| startTime := 1000000; endTime := 15000000; presentTime := 0 |};
     DisplayFrame.mRefreshRate := fps60;
     DisplayFrame.mJankType := JankType.None;
     DisplayFrame.mFramePresentMetadata := UnknownPresent;
     DisplayFrame.mFrameReadyMetadata := UnknownFinish;
     DisplayFrame.mFrameStartMetadata := UnknownStart;
     DisplayFrame.mSurfaceFrames := [];
     DisplayFrame.mJankClassificationThresholds := thresholds_2ms |}.

(** A surface frame as [createSurfaceFrameForToken] builds it for a token
    with predictions (0, 10 ms, 16 ms). *)
Definition surface_valid : SurfaceFrame.t :=
  SurfaceFrame.make 1 0 100 10001 "layer" "layer#0" PredictionState.Valid
    {| startTime := 0; endTime := 10000000; presentTime := 16000000 |}
    thresholds_2ms.

(** The same frame once its acquire fence has signalled at 11 ms and it
    has been latched and presented. *)
Definition surface_presented : SurfaceFrame.t :=
  SurfaceFrame.with_mPresentState PresentState.Presented 0
    (SurfaceFrame.setAcquireFenceTime 11000000 surface_valid).

(** ** Runs of the token manager *)

(** One call of [generateTokenForPredictions]: the two clock readings it
    takes and the predictions it is given. *)
Record Issue := {
  now1 : Z;
  now2 : Z;
  issued : TimelineItem;
}.

(** The clock is monotonic and stays below 2^63: every reading is at least
    the one before. *)
Fixpoint clock_ok (last : Z) (evs : list Issue) : Prop :=
  match evs with
  | [] => True
  | e :: rest =>
      last <= now1 e ∧ now1 e <= now2 e ∧ now2 e < 2 ^ 63 ∧ clock_ok (now2 e) rest
  end.

(** The time of the latest eviction pass: the second reading of the last
    call, [start] when there was none. *)
Definition lastFlush (start : Z) (evs : list Issue) : Z :=
  fold_left (λ _ e, now2 e) evs start.

(** What a run of calls enters into the map, had nothing been evicted. *)
Fixpoint issuedEntries (token : Z) (evs : list Issue) : TokenManager.PredictionMap :=
  match evs with
  | [] => []
  | e :: rest =>
      (token, {| TokenManager.timestamp := now1 e;
                 TokenManager.predictions := issued e |})
        :: issuedEntries (token + 1) rest
  end.

Section TokenRuns.
Context `{Header}.

(** The calls in order: the tokens they return and the final state. *)
Fixpoint issueAll (evs : list Issue) (tm : TokenManager.t) : list Z * TokenManager.t :=
  match evs with
  | [] => ([], tm)
  | e :: rest =>
      let '(token, tm) :=
        TokenManager.generateTokenForPredictions (now1 e) (now2 e) (issued e) tm in
      let '(tokens, tm) := issueAll rest tm in
      (token :: tokens, tm)
  end.

(** An entry is younger than the retention window at [flushTime]. *)
Definition young (flushTime : Z) (kv : Z * TokenManager.TokenManagerPrediction) : Prop :=
  flushTime - TokenManager.timestamp kv.2 < kMaxRetentionTime.

#[global] Instance young_dec flushTime kv : Decision (young flushTime kv).
Proof. unfold young. apply _. Defined.

(** C1 as stated: a lookup at time [T] finds the predictions of an issued
    token exactly when [T] minus the issue time is less than the
    retention window. *)
Definition lookup_iff_young_at_lookup : Prop :=
  ∀ (evs : list Issue) (i : nat) (e : Issue) (token T : Z),
    clock_ok 0 evs ->
    evs !! i = Some e ->
    (issueAll evs TokenManager.make).1 !! i = Some token ->
    lastFlush 0 evs <= T ->
    (TokenManager.getPredictionsForToken token (issueAll evs TokenManager.make).2
       = Some (issued e)
     <-> T - now1 e < kMaxRetentionTime).

(** Entries in the order of their keys and of their time stamps. *)
Definition entry_le (a b : Z * TokenManager.TokenManagerPrediction) : Prop :=
  a.1 < b.1 ∧ TokenManager.timestamp a.2 <= TokenManager.timestamp b.2.

(** The state of the map after a run, in terms of the calls made:
    [entries] is everything issued so far and [last] the time of the
    latest eviction pass. *)
Definition ledger_inv (tm : TokenManager.t) (entries : TokenManager.PredictionMap)
    (last : Z) : Prop :=
  TokenManager.mPredictions tm = filter (young last) entries
  ∧ StronglySorted entry_le entries
  ∧ Forall (λ kv, kv.1 < TokenManager.mCurrentToken tm
                  ∧ 0 <= TokenManager.timestamp kv.2 <= last) entries
  ∧ last < 2 ^ 63 ∧ - 2 ^ 63 <= TokenManager.mCurrentToken tm ∧ 0 <= last.

End TokenRuns.

(** ** The pending-fence queue *)

(** The display frames a list of outputs traces, in order. *)
Definition traced (outs : list Output) : list nat :=
  omap (λ o, match o with Trace d => Some d | IncrementJankyFrames _ => None end)
       outs.

Section PendingQueue.
Context `{Header}.

(** The fence of a queue entry is valid and has not signalled yet. *)
Definition stillPending (fences : nat -> FenceTime) (e : option nat * nat) : Prop :=
  match e.1 with
  | Some name =>
      isValid (fences name) = true
      ∧ getSignalTime (fences name) = SIGNAL_TIME_PENDING
  | None => False
  end.

(** The fence of a queue entry is valid and has a signal time. *)
Definition resolved (fences : nat -> FenceTime) (e : option nat * nat) : Prop :=
  match e.1 with
  | Some name =>
      isValid (fences name) = true
      ∧ getSignalTime (fences name) ≠ SIGNAL_TIME_PENDING
      ∧ getSignalTime (fences name) ≠ SIGNAL_TIME_INVALID
  | None => False
  end.

#[global] Instance stillPending_dec fences e : Decision (stillPending fences e).
Proof. unfold stillPending. destruct (e.1); apply _. Defined.

#[global] Instance resolved_dec fences e : Decision (resolved fences e).
Proof. unfold resolved. destruct (e.1); apply _. Defined.

(** C3 as stated: in every state a run of calls reaches, a flush never
    classifies (and traces) the frame of a queue entry while an entry
    before it stays in the queue. *)
Definition classified_only_from_front : Prop :=
  ∀ (calls : list FrameTimeline.Call) pid thresholds ft outs
    (fences : nat -> FenceTime) ft' outs' (i j : nat)
    (ei ej : option nat * nat),
    FrameTimeline.run calls (FrameTimeline.make pid thresholds) = Some (ft, outs) ->
    FrameTimeline.flushPendingPresentFences fences ft = Some (ft', outs') ->
    FrameTimeline.mPendingPresentFences ft !! i = Some ei ->
    FrameTimeline.mPendingPresentFences ft !! j = Some ej ->
    (i < j)%nat ->
    ej.2 ∈ traced outs' ->
    ei ∉ FrameTimeline.mPendingPresentFences ft'.

End PendingQueue.

(** The signal time the fence of a queue entry answers with. *)
Definition signalOf (fences : nat -> FenceTime) (fence : option nat) : Z :=
  match fence with
  | Some name => getSignalTime (fences name)
  | None => 0
  end.

(** The frame a pointer designates has been reached by [onSfWakeUp] with a
    refresh period that is not 0. *)
Definition woken (h : list DisplayFrame.t) (d : nat) : Prop :=
  ∃ f, h !! d = Some f ∧ getPeriodNsecs (DisplayFrame.mRefreshRate f) ≠ 0.

(** No fence has signalled. *)
Definition fences_pending : nat -> FenceTime :=
  λ _, {| isValid := true; getSignalTime := INT64_MAX |}.

(** Fence 1 signalled at 250; the others have not. *)
Definition fences_second_signalled : nat -> FenceTime :=
  λ name, if decide (name = 1%nat)
          then {| isValid := true; getSignalTime := 250 |}
          else {| isValid := true; getSignalTime := INT64_MAX |}.

(** Two presents whose fences are both still pending afterwards. *)
Definition two_presents : list FrameTimeline.Call :=
  [ FrameTimeline.SetSfPresent 100 (Some 0%nat) fences_pending;
    FrameTimeline.SetSfPresent 200 (Some 1%nat) fences_pending ].

(** The state after [two_presents]: frames 0 and 1 are in the queue and
    in the history, frame 2 is the current one. *)
Definition after_two_presents : FrameTimeline.t :=
  match @FrameTimeline.run platform_header two_presents
          (@FrameTimeline.make platform_header 1 thresholds_2ms) with
  | Some (ft, _) => ft
  | None => @FrameTimeline.make platform_header 1 thresholds_2ms
  end.

(** Two frames, each woken at 60 Hz and presented; both fences are still
    pending afterwards. *)
Definition two_woken_presents : list FrameTimeline.Call :=
  [ FrameTimeline.SetSfWakeUp 0 50 fps60;
    FrameTimeline.SetSfPresent 100 (Some 0%nat) fences_pending;
    FrameTimeline.SetSfWakeUp 0 150 fps60;
    FrameTimeline.SetSfPresent 200 (Some 1%nat) fences_pending ].

(** The state after [two_woken_presents]: frames 0 and 1 are in the queue
    and in the history, frame 2 is the current one. *)
Definition after_two_woken_presents : FrameTimeline.t :=
  match @FrameTimeline.run platform_header two_woken_presents
          (@FrameTimeline.make platform_header 1 thresholds_2ms) with
  | Some (ft, _) => ft
  | None => @FrameTimeline.make platform_header 1 thresholds_2ms
  end.

(** ** The history *)

(** The last [n] elements of a list, in their order. *)
Definition lastn {A} (n : nat) (l : list A) : list A := drop (length l - n) l.

(** A call that resizes the history. *)
Definition is_resize (c : FrameTimeline.Call) : Prop :=
  match c with
  | FrameTimeline.SetMaxDisplayFrames _ | FrameTimeline.ResetTimeline => True
  | _ => False
  end.

Section History.
Context `{Header}.

(** The display frames a run finalizes, in the order it does: the current
    frame of every [setSfPresent]. *)
Fixpoint finalized (calls : list FrameTimeline.Call) (ft : FrameTimeline.t)
    : list nat :=
  match calls with
  | [] => []
  | c :: rest =>
      match FrameTimeline.call c ft with
      | Some (ft', _) =>
          match c with
          | FrameTimeline.SetSfPresent _ _ _ =>
              FrameTimeline.mCurrentDisplayFrame ft :: finalized rest ft'
          | _ => finalized rest ft'
          end
      | None => []
      end
  end.

(** A run that drives the timeline as its callers do: every display frame
    is woken with a refresh period that is not 0 before it is presented,
    and the history is never given the depth 0.  [woken] tells whether the
    current frame has been woken so. *)
Fixpoint well_driven (woken : bool) (calls : list FrameTimeline.Call) : Prop :=
  match calls with
  | [] => True
  | FrameTimeline.SetSfWakeUp _ _ refreshRate :: rest =>
      well_driven (bool_decide (getPeriodNsecs refreshRate ≠ 0)) rest
  | FrameTimeline.SetSfPresent _ _ _ :: rest =>
      woken = true ∧ well_driven false rest
  | FrameTimeline.SetMaxDisplayFrames size :: rest =>
      (1 <= size)%N ∧ well_driven woken rest
  | FrameTimeline.ResetTimeline :: rest =>
      (1 <= kDefaultMaxDisplayFrames)%N ∧ well_driven woken rest
  | _ :: rest => well_driven woken rest
  end.

(** What holds of the state during such a run: the queue points to woken
    frames that are older than the current one, the current frame exists,
    and is woken when [woken] says so, and the depth is not 0. *)
Definition driven_inv (woken' : bool) (ft : FrameTimeline.t) : Prop :=
  (FrameTimeline.mCurrentDisplayFrame ft < length (FrameTimeline.heap ft))%nat
  ∧ Forall (λ e, (e.2 < FrameTimeline.mCurrentDisplayFrame ft)%nat
                 ∧ woken (FrameTimeline.heap ft) e.2)
           (FrameTimeline.mPendingPresentFences ft)
  ∧ (woken' = true ->
     woken (FrameTimeline.heap ft) (FrameTimeline.mCurrentDisplayFrame ft))
  ∧ (1 <= FrameTimeline.mMaxDisplayFrames ft)%N.

(** C8 as stated, for a history depth [d]: a run without a resize on a
    new timeline of that depth returns when it is well driven, and when it
    returns it ends with the last min(n, d) of the n frames it finalized,
    in their order. *)
Definition history_keeps_last (d : N) : Prop :=
  ∀ pid thresholds (calls : list FrameTimeline.Call),
    let ft := FrameTimeline.setMaxDisplayFrames d
                (FrameTimeline.make pid thresholds) in
    Forall (λ c, ¬ is_resize c) calls ->
    (well_driven false calls -> is_Some (FrameTimeline.run calls ft))
    ∧ ∀ ft' outs,
        FrameTimeline.run calls ft = Some (ft', outs) ->
        FrameTimeline.mDisplayFrames ft'
        = lastn (N.to_nat d) (finalized calls ft)
        ∧ length (FrameTimeline.mDisplayFrames ft')
          = Nat.min (length (finalized calls ft)) (N.to_nat d).

End History.

(** Three frames, each woken at 60 Hz and presented: the fences of the
    first two are pending when they are submitted; at the third present,
    fence 1 has signalled, and it is the fence of the third frame too. *)
Definition three_woken_presents : list FrameTimeline.Call :=
  two_woken_presents
  ++ [ FrameTimeline.SetSfWakeUp 0 250 fps60;
       FrameTimeline.SetSfPresent 300 (Some 1%nat) fences_second_signalled ].

(** Five frames, each woken at 60 Hz and presented without a fence. *)
Definition five_presents : list FrameTimeline.Call :=
  [ FrameTimeline.SetSfWakeUp 0 50 fps60;
    FrameTimeline.SetSfPresent 100 None fences_pending;
    FrameTimeline.SetSfWakeUp 0 150 fps60;
    FrameTimeline.SetSfPresent 200 None fences_pending;
    FrameTimeline.SetSfWakeUp 0 250 fps60;
    FrameTimeline.SetSfPresent 300 None fences_pending;
    FrameTimeline.SetSfWakeUp 0 350 fps60;
    FrameTimeline.SetSfPresent 400 None fences_pending;
    FrameTimeline.SetSfWakeUp 0 450 fps60;
    FrameTimeline.SetSfPresent 500 None fences_pending ].

(** ** Resizing the history *)

Section Resize.
Context `{Header}.

(** Every pointer of the object designates a frame of the heap, and the
    current frame is not in the queue. *)
Definition wf (ft : FrameTimeline.t) : Prop :=
  (FrameTimeline.mCurrentDisplayFrame ft < length (FrameTimeline.heap ft))%nat
  ∧ Forall (λ e, (e.2 < length (FrameTimeline.heap ft))%nat
                 ∧ e.2 ≠ FrameTimeline.mCurrentDisplayFrame ft)
           (FrameTimeline.mPendingPresentFences ft).

(** The frame [d] is out of reach of the object: it is not the current
    frame and neither the queue nor the history points to it. *)
Definition unreachable (d : nat) (ft : FrameTimeline.t) : Prop :=
  (d < length (FrameTimeline.heap ft))%nat
  ∧ d ≠ FrameTimeline.mCurrentDisplayFrame ft
  ∧ (d ∉ (FrameTimeline.mPendingPresentFences ft).*2)
  ∧ (d ∉ FrameTimeline.mDisplayFrames ft).

End Resize.

(** ** The base time of a dump *)







Section Dump.
Context `{Header}.


End Dump.






(** ** Further concrete values *)

(** A surface frame whose token had been evicted when it was created,
    latched and presented. *)
Definition surface_expired_presented : SurfaceFrame.t :=
  SurfaceFrame.with_mPresentState PresentState.Presented 0
    (SurfaceFrame.make 7 0 100 10001 "layer" "layer#0" PredictionState.Expired
       TimelineItem_default thresholds_2ms).

(** A display frame with predictions (1 ms, 10 ms, 16 ms) that woke up at
    1 ms and ended at 11 ms, carrying a presented, a dropped and an
    expired surface frame. *)
Definition display_with_children : DisplayFrame.t :=
  {| DisplayFrame.mToken := 2;
     DisplayFrame.mPredictionState := PredictionState.Valid;
     DisplayFrame.mSurfaceFlingerPredictions :=
       {| startTime := 1000000; endTime := 10000000; presentTime := 16000000 |};
     DisplayFrame.mSurfaceFlingerActuals :=
       {| startTime := 1000000; endTime := 11000000; presentTime := 0 |};
     DisplayFrame.mRefreshRate := fps60;
     DisplayFrame.mJankType := JankType.None;
     DisplayFrame.mFramePresentMetadata := UnknownPresent;
     DisplayFrame.mFrameReadyMetadata := UnknownFinish;
     DisplayFrame.mFrameStartMetadata := UnknownStart;
     DisplayFrame.mSurfaceFrames :=
       [ surface_presented;
         SurfaceFrame.with_mPresentState PresentState.Dropped 0 surface_valid;
         surface_expired_presented ];
     DisplayFrame.mJankClassificationThresholds := thresholds_2ms |}.

(** A surface frame takes part in the metrics: it is presented and has a
    token. *)
Definition reportsJank (sf : SurfaceFrame.t) : Prop :=
  SurfaceFrame.mPresentState sf = PresentState.Presented
  ∧ SurfaceFrame.mPredictionState sf ≠ PredictionState.None.

#[global] Instance reportsJank_dec sf : Decision (reportsJank sf).
Proof. unfold reportsJank. apply _. Defined.

(** ** The state of a frame timeline *)

(** What holds of a frame timeline between two calls: the current frame
    is the newest frame of the heap; the queue and the history point to
    older frames only, in the order in which the frames were made; and the
    history is within its maximum. *)
Definition timeline_inv (ft : FrameTimeline.t) : Prop :=
  S (FrameTimeline.mCurrentDisplayFrame ft) = length (FrameTimeline.heap ft)
  ∧ Forall (λ d, (d < FrameTimeline.mCurrentDisplayFrame ft)%nat)
           (FrameTimeline.mPendingPresentFences ft).*2
  ∧ Forall (λ d, (d < FrameTimeline.mCurrentDisplayFrame ft)%nat)
           (FrameTimeline.mDisplayFrames ft)
  ∧ StronglySorted lt (FrameTimeline.mPendingPresentFences ft).*2
  ∧ StronglySorted lt (FrameTimeline.mDisplayFrames ft)
  ∧ (N.of_nat (length (FrameTimeline.mDisplayFrames ft))
     <= FrameTimeline.mMaxDisplayFrames ft)%N.

(** The frame [d] was made before the current one and is not in the
    queue. *)
Definition settled (d : nat) (ft : FrameTimeline.t) : Prop :=
  (d < FrameTimeline.mCurrentDisplayFrame ft)%nat
  ∧ (d ∉ (FrameTimeline.mPendingPresentFences ft).*2).

(** The calls of a run that issue a token. *)
Fixpoint issuesOf (calls : list FrameTimeline.Call) : list Issue :=
  match calls with
  | [] => []
  | FrameTimeline.GenerateTokenForPredictions t1 t2 p :: rest =>
      {| now1 := t1; now2 := t2; issued := p |} :: issuesOf rest
  | _ :: rest => issuesOf rest
  end.

(** Two tokens, issued 200 ms apart: when the second one is issued, the
    first one is older than the retention window. *)
Definition token_calls : list FrameTimeline.Call :=
  [ FrameTimeline.GenerateTokenForPredictions 0 1
      {| startTime := 1000000; endTime := 10000000; presentTime := 16000000 |};
    FrameTimeline.GenerateTokenForPredictions 200000000 200000001
      {| startTime := 201000000; endTime := 210000000;
         presentTime := 216000000 |} ].

(** The state after [token_calls]. *)
Definition after_token_calls : FrameTimeline.t :=
  match @FrameTimeline.run platform_header token_calls
          (@FrameTimeline.make platform_header 1 thresholds_2ms) with
  | Some (ft, _) => ft
  | None => @FrameTimeline.make platform_header 1 thresholds_2ms
  end.

(** ** Jank types the decoders accept *)

(** A bitmask of the eight causes. *)
Definition decodable (jankType : Z) : Prop := 0 <= jankType < 256.

(** The jank type of a display frame and those of its surface frames are
    bitmasks of the eight causes. *)
Definition frame_decodable (f : DisplayFrame.t) : Prop :=
  decodable (DisplayFrame.mJankType f)
  ∧ Forall (λ sf, decodable (SurfaceFrame.mJankType sf))
           (DisplayFrame.mSurfaceFrames f).

(** The surface frames a run adds carry bitmasks of the eight causes, as
    the frames [createSurfaceFrameForToken] makes do. *)
Definition addsDecodable (calls : list FrameTimeline.Call) : Prop :=
  Forall (λ c, match c with
               | FrameTimeline.AddSurfaceFrame sf =>
                   decodable (SurfaceFrame.mJankType sf)
               | _ => True
               end) calls.

(** A run that wakes a frame up, adds a surface frame made for the second
    token of [token_calls], latched and presented, presents it, and wakes
    up and presents a second frame. *)
Definition decodable_calls : list FrameTimeline.Call :=
  token_calls
  ++ [ FrameTimeline.SetSfWakeUp 1 201000000 fps60;
       FrameTimeline.AddSurfaceFrame
         (SurfaceFrame.with_mPresentState PresentState.Presented 205000000
            (@FrameTimeline.createSurfaceFrameForToken platform_header 1 0 100
               10001 "layer" "layer#0" after_token_calls));
       FrameTimeline.SetSfPresent 230000000 (Some 1%nat) fences_pending;
       FrameTimeline.SetSfWakeUp 0 240000000 fps60;
       FrameTimeline.SetSfPresent 250000000 (Some 2%nat) fences_second_signalled ].

(** Values for the constants of the trace protocol, for concrete runs. *)
Definition sample_events : FrameTimelineEvent :=
  {| JANK_NONE := 1;
     JANK_DISPLAY_HAL := 8;
     JANK_SF_CPU_DEADLINE_MISSED := 16;
     JANK_SF_GPU_DEADLINE_MISSED := 32;
     JANK_APP_DEADLINE_MISSED := 64;
     JANK_PREDICTION_ERROR := 4;
     JANK_SF_SCHEDULING := 2;
     JANK_BUFFER_STUFFING := 128;
     JANK_UNKNOWN := 256;
     PRESENT_EARLY := 3;
     PRESENT_LATE := 2;
     PRESENT_ON_TIME := 1;
     PRESENT_UNSPECIFIED := 0 |}.


(** ** The tables of a dump *)

(** A time well inside the 64-bit range. *)
Definition in_range (t : Z) : Prop := - 2 ^ 62 <= t < 2 ^ 62.

(** The times of a record that enter its base time are well inside the
    64-bit range. *)
Definition record_in_range (predictions actuals : TimelineItem) : Prop :=
  in_range (startTime predictions)
  ∧ in_range (startTime actuals)
  ∧ in_range (endTime actuals).

Definition frame_in_range (f : DisplayFrame.t) : Prop :=
  record_in_range (DisplayFrame.mSurfaceFlingerPredictions f)
                  (DisplayFrame.mSurfaceFlingerActuals f)
  ∧ Forall (λ sf, record_in_range (SurfaceFrame.mPredictions sf)
                                  (SurfaceFrame.mActuals sf))
           (DisplayFrame.mSurfaceFrames f).

(** The table of a record shows its predicted start (when there is an
    "Expected" row), its actual start and its actual end (when they are
    not "N/A") as their distance to the base time, and none of these is
    negative. *)
Definition exact_offsets (state : PredictionState.t)
    (predictions actuals : TimelineItem) (baseTime : Z)
    (table : option TableRow * TableRow) : Prop :=
  (state = PredictionState.Valid ->
   ∃ expected, table.1 = Some expected
     ∧ row_start expected = Some (startTime predictions - baseTime)
     ∧ 0 <= startTime predictions - baseTime)
  ∧ (startTime actuals ≠ 0 ->
     row_start table.2 = Some (startTime actuals - baseTime)
     ∧ 0 <= startTime actuals - baseTime)
  ∧ (0 < endTime actuals ->
     row_end table.2 = Some (endTime actuals - baseTime)
     ∧ 0 <= endTime actuals - baseTime).

(** A display frame predicted at (20 ms, 30 ms, 36 ms) that woke up at
    21 ms and ended composition at 31 ms, with a surface frame predicted
    at (5 ms, 15 ms, 36 ms) that started at 6 ms. *)
Definition display_dumped : DisplayFrame.t :=
  {| DisplayFrame.mToken := 2;
     DisplayFrame.mPredictionState := PredictionState.Valid;
     DisplayFrame.mSurfaceFlingerPredictions :=
       {| startTime := 20000000; endTime := 30000000; presentTime := 36000000 |};
     DisplayFrame.mSurfaceFlingerActuals :=
       {| startTime := 21000000; endTime := 31000000; presentTime := 0 |};
     DisplayFrame.mRefreshRate := fps60;
     DisplayFrame.mJankType := JankType.None;
     DisplayFrame.mFramePresentMetadata := UnknownPresent;
     DisplayFrame.mFrameReadyMetadata := UnknownFinish;
     DisplayFrame.mFrameStartMetadata := UnknownStart;
     DisplayFrame.mSurfaceFrames :=
       [ SurfaceFrame.setActualStartTime 6000000
           (SurfaceFrame.make 1 0 100 10001 "layer" "layer#0"
              PredictionState.Valid
              {| startTime := 5000000; endTime := 15000000;
                 presentTime := 36000000 |}
              thresholds_2ms) ];
     DisplayFrame.mJankClassificationThresholds := thresholds_2ms |}.
(** * Properties *)

(** ** 64-bit arithmetic *)

Lemma wrap64_id z : int64 z -> wrap64 z = z.
Proof.
  unfold int64, wrap64. intros Hz.
  rewrite Z.mod_small; lia.
Qed.

Lemma sub64_nonneg a b : 0 <= b <= a -> a < 2 ^ 63 -> sub64 a b = a - b.
Proof. intros ? ?. apply wrap64_id. unfold int64. lia. Qed.

(** ** The surface-frame classifier *)

Section SurfaceClassifier.

Import SurfaceFrame.

Variables (presentTime' displayFrameJankType : Z) (refreshRate : Fps).
Variables (displayDeadlineDelta displayPresentDelta : Z).

Local Abbreviation present_with f :=
  (onPresent presentTime' displayFrameJankType refreshRate
             displayDeadlineDelta displayPresentDelta f).

(** What [onPresent] returns, written out, by the present state and the
    prediction state of the frame. *)
Lemma onPresent_unpresented_eq (f : t) :
  mPresentState f ≠ PresentState.Presented -> present_with f = Some (f, []).
Proof.
  intros Hstate. unfold onPresent.
  destruct (decide (mPresentState f ≠ PresentState.Presented)) as [_|Hn];
    [reflexivity | contradiction].
Qed.

Lemma onPresent_none_eq (f : t) :
  mPresentState f = PresentState.Presented ->
  mPredictionState f = PredictionState.None ->
  present_with f
  = Some (with_mActuals {| startTime := startTime (mActuals f);
                           endTime := endTime (mActuals f);
                           presentTime := presentTime' |} f, []).
Proof.
  intros Hstate Hpred. unfold onPresent.
  destruct (decide (mPresentState f ≠ PresentState.Presented)) as [?|_];
    [congruence|].
  cbn [mPredictionState with_mActuals]. rewrite Hpred.
  destruct (decide (PredictionState.None = PredictionState.None));
    [|congruence].
  reflexivity.
Qed.

Lemma onPresent_expired_eq (f : t) :
  mPresentState f = PresentState.Presented ->
  mPredictionState f = PredictionState.Expired ->
  present_with f
  = Some (with_classification JankType.Unknown UnknownPresent UnknownFinish
            (with_mActuals {| startTime := startTime (mActuals f);
                              endTime := endTime (mActuals f);
                              presentTime := presentTime' |} f),
          [ {| info_refreshRate := refreshRate;
               info_renderRate := mRenderRate f;
               info_uid := mOwnerUid f;
               info_layerName := mLayerName f;
               info_jankType := JankType.Unknown;
               info_displayDeadlineDelta := displayDeadlineDelta;
               info_displayPresentDelta := displayPresentDelta;
               info_appDeadlineDelta := -1 |} ]).
Proof.
  intros Hstate Hpred. unfold onPresent.
  destruct (decide (mPresentState f ≠ PresentState.Presented)) as [?|_];
    [congruence|].
  cbn [mPredictionState with_mActuals]. rewrite Hpred.
  destruct (decide (PredictionState.Expired = PredictionState.None));
    [discriminate|].
  destruct (decide (PredictionState.Expired = PredictionState.Expired));
    [|congruence].
  reflexivity.
Qed.

(** C9.  A surface frame whose present state is not [Presented] (it is
    [Dropped] or [Unknown]) is returned by [onPresent] as it was: the
    actual present time, the jank type and both metadata keep their values
    (the whole record is unchanged) and nothing is sent to the metrics
    collaborator. *)
Theorem onPresent_unpresented_untouched (f : t) :
  mPresentState f ≠ PresentState.Presented ->
  present_with f = Some (f, []).
Proof. apply onPresent_unpresented_eq. Qed.

(** What [onPresent] returns, written out, for a presented frame with
    valid predictions. *)
Lemma onPresent_valid_eq (f : t) :
  mPresentState f = PresentState.Presented ->
  mPredictionState f = PredictionState.Valid ->
  getPeriodNsecs refreshRate ≠ 0 ->
  present_with f
  = let thresholds := mJankClassificationThresholds f in
    let presentDelta := sub64 presentTime' (presentTime (mPredictions f)) in
    let deadlineDelta :=
      sub64 (endTime (mActuals f)) (endTime (mPredictions f)) in
    let ready :=
      if decide (deadlineDelta > deadlineThreshold thresholds)
      then LateFinish else OnTimeFinish in
    let present :=
      if decide (abs64 presentDelta > presentThreshold thresholds)
      then (if decide (presentDelta > 0) then LatePresent else EarlyPresent)
      else OnTimePresent in
    let jank :=
      classify (mJankType f) present ready
        (Z.rem (abs64 presentDelta) (getPeriodNsecs refreshRate))
        (getPeriodNsecs refreshRate) (presentThreshold thresholds)
        (mLastLatchTime f) (endTime (mPredictions f)) displayFrameJankType in
    Some (with_classification jank present ready
            (with_mActuals {| startTime := startTime (mActuals f);
                              endTime := endTime (mActuals f);
                              presentTime := presentTime' |} f),
          [ {| info_refreshRate := refreshRate;
               info_renderRate := mRenderRate f;
               info_uid := mOwnerUid f;
               info_layerName := mLayerName f;
               info_jankType := jank;
               info_displayDeadlineDelta := displayDeadlineDelta;
               info_displayPresentDelta := displayPresentDelta;
               info_appDeadlineDelta := deadlineDelta |} ]).
Proof.
  intros Hstate Hpred Hperiod. unfold onPresent.
  destruct (decide (mPresentState f ≠ PresentState.Presented)) as [?|_];
    [congruence|].
  cbn [mPredictionState with_mActuals]. rewrite Hpred.
  destruct (decide (PredictionState.Valid = PredictionState.None));
    [discriminate|].
  destruct (decide (PredictionState.Valid = PredictionState.Expired));
    [discriminate|].
  cbv zeta.
  destruct (decide (getPeriodNsecs refreshRate = 0)); [contradiction|].
  reflexivity.
Qed.

(** With a period of 0 the [Valid] branch has no result. *)
Lemma onPresent_valid_zero (f : t) :
  mPresentState f = PresentState.Presented ->
  mPredictionState f = PredictionState.Valid ->
  getPeriodNsecs refreshRate = 0 ->
  present_with f = None.
Proof.
  intros Hstate Hpred Hperiod. unfold onPresent.
  destruct (decide (mPresentState f ≠ PresentState.Presented)) as [?|_];
    [congruence|].
  cbn [mPredictionState with_mActuals]. rewrite Hpred.
  destruct (decide (PredictionState.Valid = PredictionState.None));
    [discriminate|].
  destruct (decide (PredictionState.Valid = PredictionState.Expired));
    [discriminate|].
  cbv zeta.
  destruct (decide (getPeriodNsecs refreshRate = 0)); [reflexivity|contradiction].
Qed.

(** [onPresent] has no result exactly on the path that divides by a
    period of 0. *)
Lemma onPresent_None_iff (f : t) :
  present_with f = None
  <-> mPresentState f = PresentState.Presented
      ∧ mPredictionState f = PredictionState.Valid
      ∧ getPeriodNsecs refreshRate = 0.
Proof.
  split.
  - intros Hnone.
    destruct (decide (mPresentState f = PresentState.Presented)) as [Hp|Hp];
      [|by rewrite onPresent_unpresented_eq in Hnone].
    destruct (mPredictionState f) eqn:Hpred.
    + destruct (decide (getPeriodNsecs refreshRate = 0)) as [Hz|Hz]; [done|].
      by rewrite onPresent_valid_eq in Hnone.
    + by rewrite onPresent_expired_eq in Hnone.
    + by rewrite onPresent_none_eq in Hnone.
  - intros (Hp & Hv & Hz). by apply onPresent_valid_zero.
Qed.

Lemma onPresent_is_Some (f : t) :
  getPeriodNsecs refreshRate ≠ 0 -> is_Some (present_with f).
Proof.
  intros Hperiod. destruct (present_with f) eqn:Hrun; [by eexists|].
  apply onPresent_None_iff in Hrun. tauto.
Qed.

(** The members [onPresent] writes when the frame is presented with valid
    predictions. *)
Lemma onPresent_valid (f : t) :
  mPresentState f = PresentState.Presented ->
  mPredictionState f = PredictionState.Valid ->
  getPeriodNsecs refreshRate ≠ 0 ->
  let presentDelta := sub64 presentTime' (presentTime (mPredictions f)) in
  let deadlineDelta := sub64 (endTime (mActuals f)) (endTime (mPredictions f)) in
  let thresholds := mJankClassificationThresholds f in
  let ready :=
    if decide (deadlineDelta > deadlineThreshold thresholds)
    then LateFinish else OnTimeFinish in
  let present :=
    if decide (abs64 presentDelta > presentThreshold thresholds)
    then (if decide (presentDelta > 0) then LatePresent else EarlyPresent)
    else OnTimePresent in
  ∃ r out,
    present_with f = Some (r, out)
    ∧ mFramePresentMetadata r = present
    ∧ mFrameReadyMetadata r = ready
    ∧ mJankType r =
        classify (mJankType f) present ready
          (Z.rem (abs64 presentDelta) (getPeriodNsecs refreshRate))
          (getPeriodNsecs refreshRate) (presentThreshold thresholds)
          (mLastLatchTime f) (endTime (mPredictions f)) displayFrameJankType.
Proof.
  intros Hstate Hpred Hperiod. cbv zeta.
  rewrite onPresent_valid_eq by assumption. cbv zeta.
  eexists _, _. split; [reflexivity|]. cbn. auto.
Qed.

(** C6.  For a presented surface frame with valid predictions and a
    refresh period that is not 0, the classifier returns and records
    [OnTimePresent] exactly when the distance between the actual and the
    predicted present time is at most the present threshold, and then the
    jank type is [None], whatever the finish metadata and the jank type of
    the display frame are. *)
Theorem onPresent_on_time_no_jank (f : t) :
  mPresentState f = PresentState.Presented ->
  mPredictionState f = PredictionState.Valid ->
  getPeriodNsecs refreshRate ≠ 0 ->
  ∃ r out,
    present_with f = Some (r, out)
    ∧ (mFramePresentMetadata r = OnTimePresent
       <-> abs64 (sub64 presentTime' (presentTime (mPredictions f)))
           <= presentThreshold (mJankClassificationThresholds f))
    ∧ (mFramePresentMetadata r = OnTimePresent -> mJankType r = JankType.None).
Proof.
  intros Hstate Hpred Hperiod.
  destruct (onPresent_valid f Hstate Hpred Hperiod)
    as (r & out & Hrun & Hp & _ & Hj).
  exists r, out. split; [exact Hrun|].
  rewrite Hj, Hp. clear Hj Hp. split.
  - repeat case_decide; split; intros; try discriminate; try lia; reflexivity.
  - intros ->. reflexivity.
Qed.

(** C5.  For a presented surface frame with valid predictions and a
    refresh period that is not 0 that the classifier finds [LatePresent]:
    [BufferStuffing] is OR-ed into the jank type when the last latch time
    is non-zero and the predicted end is not after it; then with
    [OnTimeFinish] the jank type of the display frame is OR-ed in when
    that is not [None], and otherwise the vsync-factor test on
    |presentDelta| mod period chooses between [SurfaceFlingerScheduling]
    and [PredictionError]; with [LateFinish], [AppDeadlineMissed] is OR-ed
    in when the display frame has no jank and the display frame's jank
    type otherwise. *)
Theorem onPresent_late_present (f : t) :
  mPresentState f = PresentState.Presented ->
  mPredictionState f = PredictionState.Valid ->
  getPeriodNsecs refreshRate ≠ 0 ->
  let period := getPeriodNsecs refreshRate in
  let threshold := presentThreshold (mJankClassificationThresholds f) in
  let deltaToVsync :=
    Z.rem (abs64 (sub64 presentTime' (presentTime (mPredictions f)))) period in
  let vsyncFactor :=
    deltaToVsync < threshold ∨ deltaToVsync >= sub64 period threshold in
  let stuffed :=
    if decide (mLastLatchTime f ≠ 0
               ∧ endTime (mPredictions f) <= mLastLatchTime f)
    then Z.lor (mJankType f) JankType.BufferStuffing else mJankType f in
  ∃ r out,
    present_with f = Some (r, out)
    ∧ (mFramePresentMetadata r = LatePresent ->
       let ready := mFrameReadyMetadata r in
       let jank := mJankType r in
       (ready = OnTimeFinish ∨ ready = LateFinish)
       ∧ (ready = OnTimeFinish -> displayFrameJankType ≠ JankType.None ->
          jank = Z.lor stuffed displayFrameJankType)
       ∧ (ready = OnTimeFinish -> displayFrameJankType = JankType.None ->
          vsyncFactor -> jank = Z.lor stuffed JankType.SurfaceFlingerScheduling)
       ∧ (ready = OnTimeFinish -> displayFrameJankType = JankType.None ->
          ¬ vsyncFactor -> jank = Z.lor stuffed JankType.PredictionError)
       ∧ (ready = LateFinish -> displayFrameJankType = JankType.None ->
          jank = Z.lor stuffed JankType.AppDeadlineMissed)
       ∧ (ready = LateFinish -> displayFrameJankType ≠ JankType.None ->
          jank = Z.lor stuffed displayFrameJankType)).
Proof.
  intros Hstate Hpred Hperiod. cbv zeta.
  destruct (onPresent_valid f Hstate Hpred Hperiod)
    as (r & out & Hrun & Hp & Hr & Hj).
  exists r, out. split; [exact Hrun|]. intros Hlate.
  rewrite Hj, Hr. rewrite Hp in Hlate. rewrite Hlate. clear Hj Hr Hp Hlate.
  unfold classify, isVsyncFactor.
  destruct (decide (LatePresent = OnTimePresent)) as [?|_]; [discriminate|].
  destruct (decide (LatePresent = EarlyPresent)) as [?|_]; [discriminate|].
  cbv zeta.
  destruct (decide (sub64 (endTime (mActuals f)) (endTime (mPredictions f))
                    > deadlineThreshold (mJankClassificationThresholds f)));
    cbn [decide]; (split; [auto|]);
    repeat split; intros; try discriminate;
    repeat case_decide; try case_bool_decide;
    try discriminate; try reflexivity; try contradiction; try tauto.
Qed.

End SurfaceClassifier.

(** C7.  [setPresentState] aborts exactly when the present state of the
    frame is already something other than [Unknown]; called on a frame
    that has none it stores the state and the last latch time and changes
    nothing else, and so does the first call on a newly constructed
    frame. *)
Theorem setPresentState_fatal_iff_already_set
    (f : SurfaceFrame.t) (presentState : PresentState.t) (lastLatchTime : Z) :
  (SurfaceFrame.setPresentState presentState lastLatchTime f = None
   <-> SurfaceFrame.mPresentState f ≠ PresentState.Unknown)
  ∧ (SurfaceFrame.mPresentState f = PresentState.Unknown ->
     ∃ f', SurfaceFrame.setPresentState presentState lastLatchTime f = Some f'
       ∧ SurfaceFrame.mPresentState f' = presentState
       ∧ SurfaceFrame.mLastLatchTime f' = lastLatchTime
       ∧ f' = SurfaceFrame.with_mPresentState presentState lastLatchTime f)
  ∧ (∀ vsyncId inputEventId pid uid layerName debugName state predictions
       thresholds,
       ∃ f', SurfaceFrame.setPresentState presentState lastLatchTime
               (SurfaceFrame.make vsyncId inputEventId pid uid layerName
                  debugName state predictions thresholds) = Some f'
         ∧ SurfaceFrame.mPresentState f' = presentState
         ∧ SurfaceFrame.mLastLatchTime f' = lastLatchTime).
Proof.
  unfold SurfaceFrame.setPresentState. split; [|split].
  - case_decide; split; intros; try discriminate; try contradiction; auto.
  - intros Hu. case_decide; [contradiction|]. eexists. repeat split.
  - intros. cbn. eexists. repeat split.
Qed.

Lemma onPresent_unpresented_untouched_witness :
  SurfaceFrame.onPresent 16000000 JankType.None fps60 0 0 surface_valid
  = Some (surface_valid, []).
Proof.
  apply (onPresent_unpresented_untouched 16000000 JankType.None fps60 0 0
           surface_valid).
  discriminate.
Defined.

Lemma onPresent_on_time_no_jank_witness :
  ∃ r out,
    SurfaceFrame.onPresent 16000000 JankType.DisplayHAL fps60 0 0
      surface_presented = Some (r, out)
    ∧ SurfaceFrame.mJankType r = JankType.None.
Proof.
  destruct (onPresent_on_time_no_jank 16000000 JankType.DisplayHAL fps60 0 0
              surface_presented eq_refl eq_refl ltac:(discriminate))
    as (r & out & Hrun & Hiff & Hnone).
  exists r, out. split; [exact Hrun|].
  apply Hnone, Hiff. vm_compute. discriminate.
Defined.

Lemma onPresent_late_present_witness :
  ∃ r out,
    SurfaceFrame.onPresent 26000000 JankType.None fps60 0 0
      surface_presented = Some (r, out)
    ∧ SurfaceFrame.mJankType r = JankType.PredictionError.
Proof.
  destruct (onPresent_late_present 26000000 JankType.None fps60 0 0
              surface_presented eq_refl eq_refl ltac:(discriminate))
    as (r & out & Hrun & Hlate).
  exists r, out. split; [exact Hrun|].
  vm_compute in Hrun. injection Hrun as <- _.
  cbv zeta in Hlate. destruct (Hlate eq_refl) as (_ & _ & _ & Herr & _).
  apply Herr; [reflexivity | reflexivity |].
  vm_compute. intros [Hlt | Hge]; [discriminate Hlt | apply Hge; reflexivity].
Defined.

(** ** The display-frame classifier *)

(** The loop over the surface frames, as one pass over the list. *)
Lemma presentSurfaceFrames_mapM signalTime jank refreshRate deadlineDelta
    deltaToVsync (frames : list SurfaceFrame.t) :
  DisplayFrame.presentSurfaceFrames signalTime jank refreshRate deadlineDelta
    deltaToVsync frames
  = (λ children, (children.*1, concat children.*2))
    <$> mapM (SurfaceFrame.onPresent signalTime jank refreshRate deadlineDelta
                deltaToVsync) frames.
Proof.
  induction frames as [|sf frames IH]; [reflexivity|].
  cbn [DisplayFrame.presentSurfaceFrames]. rewrite IH. cbn.
  destruct (SurfaceFrame.onPresent _ _ _ _ _ sf) as [[sf' out]|]; [|reflexivity].
  cbn. by destruct (mapM _ frames).
Qed.

(** What [DisplayFrame::onPresent] returns, written out, for a period that
    is not 0: the frame with its verdict, and every surface frame as its
    own [onPresent] leaves it when it is given the verdict. *)
Lemma DisplayFrame_onPresent_eq (f : DisplayFrame.t) (signalTime : Z) :
  getPeriodNsecs (DisplayFrame.mRefreshRate f) ≠ 0 ->
  let predictions := DisplayFrame.mSurfaceFlingerPredictions f in
  let actuals := DisplayFrame.mSurfaceFlingerActuals f in
  let thresholds := DisplayFrame.mJankClassificationThresholds f in
  let period := getPeriodNsecs (DisplayFrame.mRefreshRate f) in
  let presentDelta := sub64 signalTime (presentTime predictions) in
  let deadlineDelta := sub64 (endTime actuals) (endTime predictions) in
  let deltaToVsync := Z.rem (abs64 presentDelta) period in
  let present :=
    if decide (abs64 presentDelta > presentThreshold thresholds)
    then (if decide (presentDelta > 0) then LatePresent else EarlyPresent)
    else OnTimePresent in
  let ready :=
    if decide (deadlineDelta > deadlineThreshold thresholds)
    then LateFinish else OnTimeFinish in
  let start :=
    if decide (abs64 (sub64 (startTime actuals) (startTime predictions))
               > startThreshold thresholds)
    then (if decide (startTime actuals > startTime predictions)
          then LateStart else EarlyStart)
    else DisplayFrame.mFrameStartMetadata f in
  let jank :=
    DisplayFrame.classify (DisplayFrame.mJankType f) present ready deltaToVsync
      period (presentThreshold thresholds) in
  ∃ children,
    mapM (SurfaceFrame.onPresent signalTime jank (DisplayFrame.mRefreshRate f)
            deadlineDelta deltaToVsync) (DisplayFrame.mSurfaceFrames f)
    = Some children
    ∧ DisplayFrame.onPresent signalTime f
      = Some ({| DisplayFrame.mToken := DisplayFrame.mToken f;
                 DisplayFrame.mPredictionState := DisplayFrame.mPredictionState f;
                 DisplayFrame.mSurfaceFlingerPredictions := predictions;
                 DisplayFrame.mSurfaceFlingerActuals :=
                   {| startTime := startTime actuals;
                      endTime := endTime actuals;
                      presentTime := signalTime |};
                 DisplayFrame.mRefreshRate := DisplayFrame.mRefreshRate f;
                 DisplayFrame.mJankType := jank;
                 DisplayFrame.mFramePresentMetadata := present;
                 DisplayFrame.mFrameReadyMetadata := ready;
                 DisplayFrame.mFrameStartMetadata := start;
                 DisplayFrame.mSurfaceFrames := children.*1;
                 DisplayFrame.mJankClassificationThresholds := thresholds |},
              concat children.*2).
Proof.
  intros Hperiod. cbv zeta.
  match goal with |- ∃ children, mapM ?g ?l = _ ∧ _ =>
    destruct (mapM_is_Some_2 g l) as [children Hchildren]
  end.
  { apply Forall_forall. intros sf _. by apply onPresent_is_Some. }
  exists children. split; [exact Hchildren|].
  unfold DisplayFrame.onPresent. cbv zeta.
  destruct (decide (getPeriodNsecs (DisplayFrame.mRefreshRate f) = 0));
    [contradiction|].
  rewrite presentSurfaceFrames_mapM. cbn [presentTime endTime startTime].
  rewrite Hchildren. reflexivity.
Qed.

(** [DisplayFrame::onPresent] has no result exactly for a period of 0. *)
Lemma DisplayFrame_onPresent_None_iff (f : DisplayFrame.t) (signalTime : Z) :
  DisplayFrame.onPresent signalTime f = None
  <-> getPeriodNsecs (DisplayFrame.mRefreshRate f) = 0.
Proof.
  split.
  - intros Hnone.
    destruct (decide (getPeriodNsecs (DisplayFrame.mRefreshRate f) = 0))
      as [Hz|Hz]; [exact Hz|].
    destruct (DisplayFrame_onPresent_eq f signalTime Hz) as (children & _ & Heq).
    cbv zeta in Heq. congruence.
  - intros Hz. unfold DisplayFrame.onPresent. cbv zeta. by rewrite decide_True.
Qed.

(** The members [onPresent] writes, and those it keeps. *)
Lemma DisplayFrame_onPresent_fields (f : DisplayFrame.t) (signalTime : Z) :
  getPeriodNsecs (DisplayFrame.mRefreshRate f) ≠ 0 ->
  let predictions := DisplayFrame.mSurfaceFlingerPredictions f in
  let actuals := DisplayFrame.mSurfaceFlingerActuals f in
  let thresholds := DisplayFrame.mJankClassificationThresholds f in
  let period := getPeriodNsecs (DisplayFrame.mRefreshRate f) in
  let presentDelta := sub64 signalTime (presentTime predictions) in
  let present :=
    if decide (abs64 presentDelta > presentThreshold thresholds)
    then (if decide (presentDelta > 0) then LatePresent else EarlyPresent)
    else OnTimePresent in
  let ready :=
    if decide (sub64 (endTime actuals) (endTime predictions)
               > deadlineThreshold thresholds)
    then LateFinish else OnTimeFinish in
  ∃ r outs,
    DisplayFrame.onPresent signalTime f = Some (r, outs)
    ∧ DisplayFrame.mFramePresentMetadata r = present
    ∧ DisplayFrame.mFrameReadyMetadata r = ready
    ∧ DisplayFrame.mJankType r =
        DisplayFrame.classify (DisplayFrame.mJankType f) present ready
          (Z.rem (abs64 presentDelta) period) period (presentThreshold thresholds)
    ∧ presentTime (DisplayFrame.mSurfaceFlingerActuals r) = signalTime
    ∧ DisplayFrame.mRefreshRate r = DisplayFrame.mRefreshRate f.
Proof.
  intros Hperiod. cbv zeta.
  destruct (DisplayFrame_onPresent_eq f signalTime Hperiod)
    as (children & _ & Heq).
  cbv zeta in Heq. eexists _, _. split; [exact Heq|]. cbn. auto.
Qed.

(** C2 (as the code has it).  The display-frame classifier has a decision
    table of its own.  For a frame whose refresh period is not 0 it
    returns; the present metadata is never unknown after it ran and the
    finish metadata is [OnTimeFinish] or [LateFinish].  With
    [OnTimePresent] the jank type keeps the value it had ([None] for a new
    frame).  With [EarlyPresent]: [OnTimeFinish] gives
    [SurfaceFlingerScheduling] when |presentDelta| mod period is a factor
    of vsync and [PredictionError] otherwise; [LateFinish] gives
    [SurfaceFlingerScheduling], not [Unknown].  With [LatePresent]:
    [OnTimeFinish] gives [DisplayHAL] when the delta is a factor of vsync
    and [PredictionError] otherwise; [LateFinish] gives
    [SurfaceFlingerCpuDeadlineMissed]. *)
Theorem DisplayFrame_onPresent_table (f : DisplayFrame.t) (signalTime : Z) :
  getPeriodNsecs (DisplayFrame.mRefreshRate f) ≠ 0 ->
  let period := getPeriodNsecs (DisplayFrame.mRefreshRate f) in
  let threshold :=
    presentThreshold (DisplayFrame.mJankClassificationThresholds f) in
  let deltaToVsync :=
    Z.rem (abs64 (sub64 signalTime
                    (presentTime (DisplayFrame.mSurfaceFlingerPredictions f))))
          period in
  let vsyncFactor :=
    deltaToVsync < threshold ∨ deltaToVsync >= sub64 period threshold in
  ∃ r outs,
    DisplayFrame.onPresent signalTime f = Some (r, outs)
    ∧ let present := DisplayFrame.mFramePresentMetadata r in
      let ready := DisplayFrame.mFrameReadyMetadata r in
      let jank := DisplayFrame.mJankType r in
      present ≠ UnknownPresent
      ∧ (ready = OnTimeFinish ∨ ready = LateFinish)
      ∧ (present = OnTimePresent -> jank = DisplayFrame.mJankType f)
      ∧ (present = EarlyPresent -> ready = OnTimeFinish -> vsyncFactor ->
         jank = JankType.SurfaceFlingerScheduling)
      ∧ (present = EarlyPresent -> ready = OnTimeFinish -> ¬ vsyncFactor ->
         jank = JankType.PredictionError)
      ∧ (present = EarlyPresent -> ready = LateFinish ->
         jank = JankType.SurfaceFlingerScheduling)
      ∧ (present = LatePresent -> ready = OnTimeFinish -> vsyncFactor ->
         jank = JankType.DisplayHAL)
      ∧ (present = LatePresent -> ready = OnTimeFinish -> ¬ vsyncFactor ->
         jank = JankType.PredictionError)
      ∧ (present = LatePresent -> ready = LateFinish ->
         jank = JankType.SurfaceFlingerCpuDeadlineMissed).
Proof.
  intros Hperiod. cbv zeta.
  destruct (DisplayFrame_onPresent_fields f signalTime Hperiod)
    as (r & outs & Hrun & Hp & Hr & Hj & _).
  exists r, outs. split; [exact Hrun|].
  rewrite Hj, Hp, Hr. clear Hj Hp Hr.
  unfold DisplayFrame.classify, isVsyncFactor.
  repeat split;
    repeat case_decide; try case_bool_decide; intros;
    try discriminate; try congruence; try tauto; auto.
Qed.

Lemma DisplayFrame_onPresent_table_witness :
  ∃ r outs,
    DisplayFrame.onPresent 20000000 display_early_late = Some (r, outs)
    ∧ DisplayFrame.mFramePresentMetadata r = EarlyPresent
    ∧ DisplayFrame.mFrameReadyMetadata r = LateFinish
    ∧ DisplayFrame.mJankType r = JankType.SurfaceFlingerScheduling.
Proof.
  destruct (DisplayFrame_onPresent_table display_early_late 20000000
              ltac:(discriminate))
    as (r & outs & Hrun & Htable).
  exists r, outs. split; [exact Hrun|].
  vm_compute in Hrun. injection Hrun as <- _.
  cbv zeta in Htable. destruct Htable as (_ & _ & _ & _ & _ & Hel & _).
  split; [reflexivity|]. split; [reflexivity|].
  apply Hel; reflexivity.
Defined.

(** C2 (as stated) fails: the frame [display_early_late], which has a
    refresh rate of 60 Hz, presented at 20 ms, is [EarlyPresent] and
    [LateFinish], and its jank type is [SurfaceFlingerScheduling]. *)
Lemma DisplayFrame_early_late_is_not_unknown :
  ¬ (∀ (f : DisplayFrame.t) (signalTime : Z) r outs,
       DisplayFrame.onPresent signalTime f = Some (r, outs) ->
       DisplayFrame.mFramePresentMetadata r = EarlyPresent ->
       DisplayFrame.mFrameReadyMetadata r = LateFinish ->
       DisplayFrame.mJankType r = JankType.Unknown).
Proof.
  intros Hclaim.
  destruct (DisplayFrame.onPresent 20000000 display_early_late)
    as [[r outs]|] eqn:Hrun; [|vm_compute in Hrun; discriminate].
  specialize (Hclaim display_early_late 20000000 r outs Hrun).
  vm_compute in Hrun. injection Hrun as <- _.
  specialize (Hclaim eq_refl eq_refl).
  vm_compute in Hclaim. discriminate Hclaim.
Qed.

(** ** The token manager *)

Section TokenLedger.
Context `{Header}.

Import TokenManager.

Lemma map_assign_above token v (m : PredictionMap) :
  Forall (λ kv, kv.1 < token) m -> map_assign token v m = m ++ [(token, v)].
Proof.
  induction m as [|[k v'] m IH]; intros Hall; [reflexivity|].
  apply Forall_cons in Hall as [Hk Hall]. cbn in *.
  destruct (decide (token < k)); [lia|].
  destruct (decide (token = k)); [lia|].
  by rewrite IH.
Qed.

Lemma map_find_sorted token v (m : PredictionMap) :
  StronglySorted entry_le m ->
  map_find token m = Some v <-> (token, v) ∈ m.
Proof.
  induction m as [|[k v'] m IH]; intros Hs.
  - cbn. split; [discriminate | intros Hin; inversion Hin].
  - apply StronglySorted_cons in Hs as [Hall Hs]. cbn.
    rewrite elem_of_cons. destruct (decide (k = token)) as [->|Hne].
    + split; [intros [= ->]; by left|].
      intros [[= ->]|Hin]; [reflexivity|].
      rewrite Forall_forall in Hall. apply Hall in Hin.
      unfold entry_le in Hin. cbn in Hin. lia.
    + rewrite (IH Hs). split; [by right|].
      intros [[= ? ?]|Hin]; [congruence | exact Hin].
Qed.

Lemma filter_all {A} (P : A -> Prop) `{!∀ x, Decision (P x)} (l : list A) :
  Forall P l -> filter P l = l.
Proof.
  induction 1 as [|x l Hx _ IH]; [reflexivity|].
  by rewrite filter_cons_True, IH.
Qed.

Lemma StronglySorted_filter_entries (P : Z * TokenManagerPrediction -> Prop)
    `{!∀ x, Decision (P x)} (m : PredictionMap) :
  StronglySorted entry_le m -> StronglySorted entry_le (filter P m).
Proof.
  induction m as [|x m IH]; intros Hs; [constructor|].
  apply StronglySorted_cons in Hs as [Hall Hs].
  rewrite filter_cons. destruct (decide (P x)); [|by apply IH].
  apply StronglySorted_cons. split; [|by apply IH].
  rewrite Forall_forall in *. intros y Hy.
  apply list_elem_of_filter in Hy as [_ Hy]. by apply Hall.
Qed.

(** On a map in time order whose time stamps are behind the clock, the
    eviction loop removes exactly the entries that are not young. *)
Lemma flushTokens_loop_filter flushTime (m : PredictionMap) :
  StronglySorted entry_le m ->
  Forall (λ kv, 0 <= timestamp kv.2 <= flushTime) m ->
  flushTime < 2 ^ 63 ->
  flushTokens_loop flushTime m = filter (young flushTime) m.
Proof.
  intros Hs Hall Hlt. induction m as [|[k v] m IH]; [reflexivity|].
  apply StronglySorted_cons in Hs as [Hle Hs].
  apply Forall_cons in Hall as [Hv Hall]. cbn in Hv. cbn [flushTokens_loop].
  rewrite sub64_nonneg by lia.
  destruct (decide (flushTime - timestamp v >= kMaxRetentionTime)) as [Hold|Hyoung].
  - rewrite filter_cons_False by (unfold young; cbn; lia). by apply IH.
  - rewrite filter_cons_True by (unfold young; cbn; lia).
    f_equal. symmetry. apply filter_all.
    rewrite Forall_forall in *. intros y Hy.
    specialize (Hle y Hy). unfold entry_le in Hle. unfold young. cbn in Hle. lia.
Qed.

(** The eviction loop never removes a young entry, whatever the map. *)
Lemma flushTokens_loop_keeps_young flushTime (m : PredictionMap) k v :
  (k, v) ∈ m ->
  sub64 flushTime (timestamp v) < kMaxRetentionTime ->
  (k, v) ∈ flushTokens_loop flushTime m.
Proof.
  intros Hin Hyoung. induction m as [|[k' v'] m IH]; [inversion Hin|].
  cbn [flushTokens_loop].
  destruct (decide (sub64 flushTime (timestamp v') >= kMaxRetentionTime))
    as [Hold|_]; [|exact Hin].
  apply elem_of_cons in Hin as [[= -> ->]|Hin]; [lia | by apply IH].
Qed.

Lemma young_mono f1 f2 kv :
  f1 <= f2 -> young f2 kv -> young f1 kv.
Proof. unfold young. lia. Qed.

Lemma generateToken_inv (tm : t) entries last e :
  ledger_inv tm entries last ->
  last <= now1 e -> now1 e <= now2 e -> now2 e < 2 ^ 63 ->
  mCurrentToken tm + 1 < 2 ^ 63 ->
  let r := generateTokenForPredictions (now1 e) (now2 e) (issued e) tm in
  r.1 = mCurrentToken tm
  ∧ mCurrentToken r.2 = mCurrentToken tm + 1
  ∧ ledger_inv r.2
      (entries ++ [(mCurrentToken tm,
                    {| timestamp := now1 e; predictions := issued e |})])
      (now2 e).
Proof.
  intros (Hmap & Hsorted & Hall & Hlast & Htok & Hlast0) H1 H2 H3 H4. cbv zeta.
  unfold generateTokenForPredictions, flushTokens. cbn.
  rewrite wrap64_id by (unfold int64; lia).
  split; [reflexivity|]. split; [reflexivity|].
  set (new := (mCurrentToken tm, {| timestamp := now1 e; predictions := issued e |})).
  assert (Hsorted' : StronglySorted entry_le (entries ++ [new])).
  { apply StronglySorted_app. split; [|split].
    - intros a b Ha Hb. apply list_elem_of_singleton in Hb as ->.
      rewrite Forall_forall in Hall. specialize (Hall a Ha).
      unfold entry_le, new. cbn. lia.
    - exact Hsorted.
    - repeat constructor. }
  assert (Hall' : Forall (λ kv, kv.1 < mCurrentToken tm + 1
                                ∧ 0 <= timestamp kv.2 <= now2 e) (entries ++ [new])).
  { apply Forall_app. split.
    - eapply Forall_impl; [exact Hall|]. cbn. intros a Ha. lia.
    - repeat constructor; unfold new; cbn; lia. }
  repeat split; cbn; try assumption; try lia.
  rewrite Hmap, map_assign_above.
  2:{ rewrite Forall_forall in *. intros y Hy.
      apply list_elem_of_filter in Hy as [_ Hy]. apply Hall in Hy. lia. }
  rewrite flushTokens_loop_filter; try lia.
  - rewrite !filter_app. f_equal.
    rewrite list_filter_filter. apply list_filter_iff.
    intros x. split; [tauto|]. intros Hy. split; [exact Hy|].
    eapply young_mono; [|exact Hy]. lia.
  - apply StronglySorted_app. apply StronglySorted_app in Hsorted' as (Hab & _ & Hnew).
    split; [|split].
    + intros a b Ha Hb. apply Hab; [|exact Hb].
      by apply list_elem_of_filter in Ha as [_ Ha].
    + by apply StronglySorted_filter_entries.
    + exact Hnew.
  - apply Forall_app in Hall' as [Hall1 Hall2]. apply Forall_app. split.
    + rewrite Forall_forall in *. intros y Hy.
      apply list_elem_of_filter in Hy as [_ Hy]. apply Hall1 in Hy. lia.
    + eapply Forall_impl; [exact Hall2|]. cbn. intros a Ha. lia.
Qed.

Lemma issuedEntries_lookup token evs (i : nat) :
  issuedEntries token evs !! i
  = (λ e, (token + Z.of_nat i,
           {| timestamp := now1 e; predictions := issued e |})) <$> evs !! i.
Proof.
  revert token i. induction evs as [|e evs IH]; intros token i; [reflexivity|].
  destruct i as [|i]; cbn.
  - by rewrite Z.add_0_r.
  - rewrite IH. destruct (evs !! i); cbn; [|reflexivity].
    do 2 f_equal. lia.
Qed.

Lemma issueAll_inv evs : ∀ (tm : t) entries last,
  ledger_inv tm entries last ->
  clock_ok last evs ->
  mCurrentToken tm + Z.of_nat (length evs) < 2 ^ 63 ->
  (issueAll evs tm).1 = (issuedEntries (mCurrentToken tm) evs).*1
  ∧ ledger_inv (issueAll evs tm).2
      (entries ++ issuedEntries (mCurrentToken tm) evs) (lastFlush last evs).
Proof.
  induction evs as [|e evs IH]; intros tm entries last Hinv Hclock Hroom.
  - cbn. by rewrite app_nil_r.
  - destruct Hclock as (H1 & H2 & H3 & Hclock).
    cbn [length] in Hroom.
    destruct (generateToken_inv tm entries last e Hinv H1 H2 H3 ltac:(lia))
      as (Htok & Hnext & Hinv').
    cbn [issueAll issuedEntries lastFlush fold_left].
    destruct (generateTokenForPredictions _ _ _ tm) as [token tm1].
    cbn in Htok, Hnext, Hinv'. subst token.
    specialize (IH tm1 _ _ Hinv' Hclock ltac:(lia)).
    destruct (issueAll evs tm1) as [tokens tm2]. cbn in IH |- *.
    rewrite Hnext in IH. destruct IH as [-> IH].
    split; [reflexivity|]. by rewrite <- app_assoc in IH.
Qed.

Lemma ledger_inv_make : - 2 ^ 63 <= INVALID_VSYNC_ID + 1 -> ledger_inv make [] 0.
Proof.
  intros Hid. unfold ledger_inv. cbn.
  repeat split; try constructor; try lia; done.
Qed.

(** C1 (as the code has it).  After any run of
    [generateTokenForPredictions] calls under a monotonic clock, a lookup
    finds the predictions of an issued token exactly when the token was
    younger than the retention window at the latest eviction pass, which
    is the end of the latest call.  Hence a lookup made while the age of
    the token is less than the window always finds them.  A token that
    was never issued is not found.  An eviction pass never removes an
    entry whose age is less than the window. *)
Theorem TokenManager_retention (evs : list Issue) :
  clock_ok 0 evs ->
  - 2 ^ 63 <= INVALID_VSYNC_ID + 1 ->
  INVALID_VSYNC_ID + 1 + Z.of_nat (length evs) < 2 ^ 63 ->
  let tokens := (issueAll evs make).1 in
  let tm := (issueAll evs make).2 in
  (∀ (i : nat) e token,
     evs !! i = Some e -> tokens !! i = Some token ->
     (getPredictionsForToken token tm = Some (issued e)
      <-> lastFlush 0 evs - now1 e < kMaxRetentionTime)
     ∧ (∀ T, lastFlush 0 evs <= T -> T - now1 e < kMaxRetentionTime ->
        getPredictionsForToken token tm = Some (issued e)))
  ∧ (∀ token, token ∉ tokens -> getPredictionsForToken token tm = None)
  ∧ (∀ (tm' : t) flushTime k v,
       (k, v) ∈ mPredictions tm' ->
       sub64 flushTime (timestamp v) < kMaxRetentionTime ->
       (k, v) ∈ mPredictions (flushTokens flushTime tm')).
Proof.
  intros Hclock Hid Hroom. cbv zeta.
  destruct (issueAll_inv evs make [] 0 (ledger_inv_make Hid) Hclock Hroom)
    as [Htokens (Hmap & Hsorted & _)].
  rewrite app_nil_l in Hmap, Hsorted. cbn [make mCurrentToken] in *.
  set (token0 := INVALID_VSYNC_ID + 1) in *.
  assert (Hfind : ∀ token v,
            map_find token (mPredictions (issueAll evs make).2) = Some v
            <-> young (lastFlush 0 evs) (token, v)
                ∧ (token, v) ∈ issuedEntries token0 evs).
  { intros token v. rewrite Hmap.
    rewrite map_find_sorted by by apply StronglySorted_filter_entries.
    apply list_elem_of_filter. }
  split; [|split].
  - intros i e token Hi Htok.
    rewrite Htokens, list_lookup_fmap, issuedEntries_lookup, Hi in Htok.
    cbn in Htok. injection Htok as <-.
    assert (Hiff : getPredictionsForToken (token0 + Z.of_nat i)
                     (issueAll evs make).2 = Some (issued e)
                   <-> lastFlush 0 evs - now1 e < kMaxRetentionTime).
    { unfold getPredictionsForToken. split.
      - destruct (map_find _ _) as [v|] eqn:Hv; [|discriminate].
        intros [= Hp]. apply Hfind in Hv as [Hy Hin].
        apply list_elem_of_lookup in Hin as [j Hj].
        rewrite issuedEntries_lookup in Hj.
        destruct (evs !! j) as [e'|] eqn:Hj'; [|discriminate]. cbn in Hj.
        injection Hj as Hij <-. assert (j = i) as -> by lia.
        rewrite Hi in Hj'. injection Hj' as <-. exact Hy.
      - intros Hy.
        assert (Hv : map_find (token0 + Z.of_nat i)
                       (mPredictions (issueAll evs make).2)
                     = Some {| timestamp := now1 e; predictions := issued e |}).
        { apply Hfind. split; [exact Hy|].
          apply list_elem_of_lookup. exists i.
          by rewrite issuedEntries_lookup, Hi. }
        by rewrite Hv. }
    split; [exact Hiff|]. intros T HT Hage. apply Hiff. lia.
  - intros token Hnot. unfold getPredictionsForToken.
    destruct (map_find _ _) as [v|] eqn:Hv; [|reflexivity].
    apply Hfind in Hv as [_ Hin]. exfalso. apply Hnot.
    rewrite Htokens. apply list_elem_of_fmap. by exists (token, v).
  - intros tm' flushTime k v Hin Hy. cbn.
    by apply flushTokens_loop_keeps_young.
Qed.

End TokenLedger.

Lemma TokenManager_retention_witness :
  @TokenManager.getPredictionsForToken 0
    (@issueAll platform_header
       [ {| now1 := 10; now2 := 11; issued := TimelineItem_default |} ]
       (@TokenManager.make platform_header)).2
  = Some TimelineItem_default.
Proof.
  destruct (@TokenManager_retention platform_header
              [ {| now1 := 10; now2 := 11; issued := TimelineItem_default |} ])
    as [Hlookup _].
  - cbn. lia.
  - cbn. lia.
  - cbn. lia.
  - destruct (Hlookup 0%nat
                {| now1 := 10; now2 := 11; issued := TimelineItem_default |} 0
                eq_refl eq_refl) as [_ Hyoung].
    apply (Hyoung 100); cbn; lia.
Defined.

(** C1 (as stated) fails: a token issued at time 0 and looked up at
    200 ms, with no call in between, is still found although it is older
    than the 120 ms window. *)
Lemma TokenManager_old_token_still_found :
  ¬ @lookup_iff_young_at_lookup platform_header.
Proof.
  intros Hclaim.
  assert (Hclock : clock_ok 0
            [ {| now1 := 0; now2 := 0; issued := TimelineItem_default |} ])
    by (cbn; lia).
  pose proof (Hclaim _ 0%nat _ 0 200000000 Hclock eq_refl eq_refl
                ltac:(cbn; lia)) as [Hage _].
  specialize (Hage eq_refl). cbn in Hage. lia.
Qed.


(** ** The pending-fence queue *)

Lemma traced_app outs1 outs2 : traced (outs1 ++ outs2) = traced outs1 ++ traced outs2.
Proof. apply omap_app. Qed.

Lemma traced_increments (outs : list JankyFramesInfo) :
  traced (map IncrementJankyFrames outs) = [].
Proof. induction outs; [reflexivity | assumption]. Qed.

(** A frame stays woken when the refresh rates of the heap stay. *)
Lemma woken_rates (h h' : list DisplayFrame.t) (d : nat) :
  DisplayFrame.mRefreshRate <$> h' = DisplayFrame.mRefreshRate <$> h ->
  woken h d -> woken h' d.
Proof.
  intros Hrates (f & Hf & Hperiod). unfold woken.
  pose proof (f_equal (λ l, l !! d) Hrates) as Hd. cbn beta in Hd.
  rewrite !list_lookup_fmap, Hf in Hd.
  destruct (h' !! d) as [f'|]; [|discriminate]. injection Hd as Hd.
  exists f'. split; [reflexivity|]. by rewrite Hd.
Qed.

Section PendingQueueFacts.
Context `{Header}.

Import FrameTimeline.

(** [presentDisplayFrame], read backwards. *)
Lemma presentDisplayFrame_Some (d : nat) signalTime (h h1 : list DisplayFrame.t)
    out :
  presentDisplayFrame d signalTime h = Some (h1, out) ->
  (h !! d = None ∧ h1 = h ∧ out = [])
  ∨ ∃ f f' outs,
      h !! d = Some f
      ∧ DisplayFrame.onPresent signalTime f = Some (f', outs)
      ∧ h1 = <[d := f']> h
      ∧ out = map IncrementJankyFrames outs ++ [Trace d].
Proof.
  unfold presentDisplayFrame. intros Hp.
  destruct (h !! d) as [f|]; [|injection Hp as <- <-; by left].
  destruct (DisplayFrame.onPresent signalTime f) as [[f' outs]|] eqn:Hf;
    [|discriminate].
  injection Hp as <- <-. right. by exists f, f', outs.
Qed.

(** Presenting a woken frame returns. *)
Lemma presentDisplayFrame_woken (d : nat) signalTime (h : list DisplayFrame.t) :
  woken h d ->
  ∃ f f' outs,
    h !! d = Some f
    ∧ DisplayFrame.onPresent signalTime f = Some (f', outs)
    ∧ presentDisplayFrame d signalTime h
      = Some (<[d := f']> h, map IncrementJankyFrames outs ++ [Trace d]).
Proof.
  intros (f & Hf & Hperiod).
  destruct (DisplayFrame.onPresent signalTime f) as [[f' outs]|] eqn:Hp;
    [|by apply DisplayFrame_onPresent_None_iff in Hp].
  exists f, f', outs. unfold presentDisplayFrame. by rewrite Hf, Hp.
Qed.

(** What presenting a frame leaves as it was. *)
Lemma presentDisplayFrame_spec (d : nat) signalTime (h h1 : list DisplayFrame.t)
    out :
  presentDisplayFrame d signalTime h = Some (h1, out) ->
  length h1 = length h
  ∧ DisplayFrame.mRefreshRate <$> h1 = DisplayFrame.mRefreshRate <$> h
  ∧ (∀ d', d' ≠ d -> h1 !! d' = h !! d')
  ∧ ((d < length h)%nat -> traced out = [d])
  ∧ (∀ d', d' ∈ traced out -> d' = d).
Proof.
  intros Hp.
  apply presentDisplayFrame_Some in Hp
    as [(Hnone & -> & ->)|(f & f' & outs & Hf & Hon & -> & ->)].
  - split; [done|]. split; [done|]. split; [done|]. split.
    + intros Hd. apply lookup_ge_None in Hnone. lia.
    + intros d' Hd'. by apply elem_of_nil in Hd'.
  - rewrite traced_app, traced_increments. cbn.
    split; [apply length_insert|]. split; [|split; [|split]].
    + rewrite list_fmap_insert.
      destruct (decide (getPeriodNsecs (DisplayFrame.mRefreshRate f) = 0))
        as [Hz|Hz]; [apply (DisplayFrame_onPresent_None_iff f signalTime) in Hz;
                     congruence|].
      destruct (DisplayFrame_onPresent_fields f signalTime Hz)
        as (r & o & Hr & _ & _ & _ & _ & Hrate).
      rewrite Hon in Hr. injection Hr as <- <-. rewrite Hrate.
      apply list_insert_id. by rewrite list_lookup_fmap, Hf.
    + intros d' Hne. by apply list_lookup_insert_ne.
    + done.
    + intros d' Hd'. by apply list_elem_of_singleton in Hd'.
Qed.

(** The test of the loop that keeps an entry is [stillPending]. *)
Lemma flush_keeps_iff_stillPending (fences : nat -> FenceTime)
    (fence : option nat) (d : nat) :
  (match fence with
   | Some name => isValid (fences name)
   | None => false
   end
   && bool_decide
        (match fence with
         | Some name =>
             if isValid (fences name) then getSignalTime (fences name)
             else SIGNAL_TIME_INVALID
         | None => SIGNAL_TIME_INVALID
         end = SIGNAL_TIME_PENDING))
  = bool_decide (stillPending fences (fence, d)).
Proof.
  destruct (decide (stillPending fences (fence, d))) as [Hp|Hp].
  - rewrite (bool_decide_eq_true_2 _ Hp).
    unfold stillPending in Hp. cbn [fst] in Hp.
    destruct fence as [name|]; [|done]. destruct Hp as [-> Hs].
    cbn [andb]. by apply bool_decide_eq_true_2.
  - rewrite (bool_decide_eq_false_2 _ Hp).
    unfold stillPending in Hp. cbn [fst] in Hp.
    destruct fence as [name|]; [|done].
    destruct (isValid (fences name)); [|done].
    cbn [andb]. apply bool_decide_eq_false_2. tauto.
Qed.

(** The loop of the flush, by the state of the fence of the first
    entry. *)
Lemma flushPendingPresentFences_loop_cons (fences : nat -> FenceTime)
    (fence : option nat) (d : nat) (pending : list (option nat * nat))
    (h : list DisplayFrame.t) :
  flushPendingPresentFences_loop fences ((fence, d) :: pending) h
  = if decide (stillPending fences (fence, d)) then
      match flushPendingPresentFences_loop fences pending h with
      | Some (rest, h', outs) => Some ((fence, d) :: rest, h', outs)
      | None => None
      end
    else if decide (resolved fences (fence, d)) then
      match presentDisplayFrame d (signalOf fences fence) h with
      | Some (h1, out) =>
          match flushPendingPresentFences_loop fences pending h1 with
          | Some (rest, h', outs) => Some (rest, h', out ++ outs)
          | None => None
          end
      | None => None
      end
    else flushPendingPresentFences_loop fences pending h.
Proof.
  cbn [flushPendingPresentFences_loop].
  rewrite (flush_keeps_iff_stillPending fences fence d).
  destruct (decide (stillPending fences (fence, d))) as [Hp|Hp].
  - by rewrite bool_decide_eq_true_2.
  - rewrite bool_decide_eq_false_2 by exact Hp.
    unfold stillPending in Hp. cbn [fst] in Hp.
    destruct (decide (resolved fences (fence, d))) as [Hr|Hr];
      unfold resolved in Hr; cbn [fst] in Hr.
    + destruct fence as [name|]; [|done]. destruct Hr as (Hv & _ & Hs).
      rewrite Hv. rewrite decide_True by exact Hs. reflexivity.
    + match goal with |- context [decide (?s ≠ SIGNAL_TIME_INVALID)] =>
        assert (Hinvalid : s = SIGNAL_TIME_INVALID)
      end.
      { destruct fence as [name|]; [|reflexivity].
        destruct (isValid (fences name)); [|reflexivity].
        destruct (decide (getSignalTime (fences name) = SIGNAL_TIME_INVALID));
          [assumption|tauto]. }
      rewrite decide_False by (rewrite Hinvalid; tauto).
      by destruct (flushPendingPresentFences_loop fences pending h)
        as [[[rest h'] outs]|].
Qed.

(** The same, read backwards. *)
Lemma flushPendingPresentFences_loop_cons_Some (fences : nat -> FenceTime)
    (fence : option nat) (d : nat) (pending rest : list (option nat * nat))
    (h h' : list DisplayFrame.t) outs :
  flushPendingPresentFences_loop fences ((fence, d) :: pending) h
  = Some (rest, h', outs) ->
  (stillPending fences (fence, d) ∧ ¬ resolved fences (fence, d)
   ∧ ∃ rest0, rest = (fence, d) :: rest0
      ∧ flushPendingPresentFences_loop fences pending h = Some (rest0, h', outs))
  ∨ (¬ stillPending fences (fence, d) ∧ resolved fences (fence, d)
     ∧ ∃ h1 out outs0,
         presentDisplayFrame d (signalOf fences fence) h = Some (h1, out)
         ∧ flushPendingPresentFences_loop fences pending h1
           = Some (rest, h', outs0)
         ∧ outs = out ++ outs0)
  ∨ (¬ stillPending fences (fence, d) ∧ ¬ resolved fences (fence, d)
     ∧ flushPendingPresentFences_loop fences pending h = Some (rest, h', outs)).
Proof.
  rewrite flushPendingPresentFences_loop_cons. intros Hloop.
  destruct (decide (stillPending fences (fence, d))) as [Hp|Hp].
  - left. split; [exact Hp|]. split.
    + unfold stillPending, resolved in *. cbn [fst] in *.
      destruct fence; tauto.
    + destruct (flushPendingPresentFences_loop fences pending h)
        as [[[rest0 h0] outs0]|] eqn:Hrest; [|discriminate].
      injection Hloop as <- <- <-. by exists rest0.
  - right. destruct (decide (resolved fences (fence, d))) as [Hr|Hr].
    + left. split; [exact Hp|]. split; [exact Hr|].
      destruct (presentDisplayFrame d _ h) as [[h1 out]|] eqn:Hpd;
        [|discriminate].
      destruct (flushPendingPresentFences_loop fences pending h1)
        as [[[rest0 h0] outs0]|] eqn:Hrest; [|discriminate].
      injection Hloop as <- <- <-. by exists h1, out, outs0.
    + right. auto.
Qed.

(** What a flush that returns has done: the queue it leaves, the frames
    it traces, and the heap it keeps in size and in refresh rates. *)
Lemma flushPendingPresentFences_loop_spec (fences : nat -> FenceTime)
    (pending : list (option nat * nat)) :
  ∀ (h h' : list DisplayFrame.t) rest outs,
  flushPendingPresentFences_loop fences pending h = Some (rest, h', outs) ->
  rest = filter (stillPending fences) pending
  ∧ length h' = length h
  ∧ DisplayFrame.mRefreshRate <$> h' = DisplayFrame.mRefreshRate <$> h
  ∧ (Forall (λ e, (e.2 < length h)%nat) pending ->
     traced outs = (filter (resolved fences) pending).*2)
  ∧ (∀ d, d ∈ traced outs -> d ∈ (filter (resolved fences) pending).*2).
Proof.
  induction pending as [|[fence d] pending IH]; intros h h' rest outs Hloop.
  - cbn in Hloop. injection Hloop as <- <- <-. cbn. repeat split; auto.
  - rewrite !filter_cons.
    apply flushPendingPresentFences_loop_cons_Some in Hloop
      as [(Hp & Hr & rest0 & -> & Hloop)
         |[(Hp & Hr & h1 & out & outs0 & Hpd & Hloop & ->)
          |(Hp & Hr & Hloop)]];
      rewrite ?(decide_True (P := stillPending fences (fence, d))) by exact Hp;
      rewrite ?(decide_False (P := stillPending fences (fence, d))) by exact Hp;
      rewrite ?(decide_True (P := resolved fences (fence, d))) by exact Hr;
      rewrite ?(decide_False (P := resolved fences (fence, d))) by exact Hr.
    + destruct (IH _ _ _ _ Hloop) as (-> & Hlen & Hrates & Htr & Hin).
      repeat split; auto.
      intros Hall. apply Forall_cons in Hall as [_ Hall]. auto.
    + destruct (presentDisplayFrame_spec _ _ _ _ _ Hpd)
        as (Hlen1 & Hrates1 & _ & Htr1 & Hin1).
      destruct (IH _ _ _ _ Hloop) as (-> & Hlen & Hrates & Htr & Hin).
      split; [reflexivity|]. split; [congruence|]. split; [congruence|].
      split.
      * intros Hall. apply Forall_cons in Hall as [Hd Hall]. cbn [snd] in Hd.
        rewrite traced_app, (Htr1 Hd), fmap_cons. cbn [snd app]. f_equal.
        apply Htr. by rewrite Hlen1.
      * intros d' Hd'. rewrite traced_app, elem_of_app in Hd'.
        rewrite fmap_cons. cbn [snd]. apply elem_of_cons.
        destruct Hd' as [Hd'|Hd']; [left; by apply Hin1 | right; by apply Hin].
    + destruct (IH _ _ _ _ Hloop) as (-> & Hlen & Hrates & Htr & Hin).
      repeat split; auto.
      intros Hall. apply Forall_cons in Hall as [_ Hall]. auto.
Qed.

(** A frame the queue does not point to is left alone. *)
Lemma flushPendingPresentFences_loop_other fences (d : nat)
    (pending : list (option nat * nat)) :
  ∀ (h h' : list DisplayFrame.t) rest outs,
  d ∉ pending.*2 ->
  flushPendingPresentFences_loop fences pending h = Some (rest, h', outs) ->
  h' !! d = h !! d
  ∧ (d ∉ traced outs)
  ∧ (d ∉ rest.*2).
Proof.
  intros h h' rest outs Hd Hloop.
  assert (Hsub : ∀ (P : option nat * nat -> Prop) `{!∀ e, Decision (P e)},
            d ∈ (filter P pending).*2 -> d ∈ pending.*2).
  { intros P ? Hx. apply list_elem_of_fmap in Hx as (e & -> & He).
    apply list_elem_of_filter in He as [_ He].
    apply list_elem_of_fmap. by exists e. }
  split; [|split].
  - clear Hsub. revert h h' rest outs Hd Hloop.
    induction pending as [|[fence d'] pending IH];
      intros h h' rest outs Hd Hloop.
    + cbn in Hloop. by injection Hloop as _ <- _.
    + rewrite fmap_cons, not_elem_of_cons in Hd. destruct Hd as [Hne Hd].
      cbn [snd] in Hne.
      apply flushPendingPresentFences_loop_cons_Some in Hloop
        as [(_ & _ & rest0 & _ & Hloop)
           |[(_ & _ & h1 & out & outs0 & Hpd & Hloop & ->)
            |(_ & _ & Hloop)]].
      * by eapply IH.
      * destruct (presentDisplayFrame_spec _ _ _ _ _ Hpd)
          as (_ & _ & Hother & _).
        rewrite <- (Hother d Hne). by eapply IH.
      * by eapply IH.
  - destruct (flushPendingPresentFences_loop_spec _ _ _ _ _ _ Hloop)
      as (_ & _ & _ & _ & Hin).
    intros Hx. apply Hd. eapply Hsub. by apply Hin.
  - destruct (flushPendingPresentFences_loop_spec _ _ _ _ _ _ Hloop)
      as (-> & _).
    intros Hx. apply Hd. by eapply Hsub.
Qed.

(** What a flush that returns does to the frames of a queue in which no
    frame occurs twice. *)
Lemma flushPendingPresentFences_loop_heap (fences : nat -> FenceTime)
    (pending : list (option nat * nat)) :
  ∀ (h h' : list DisplayFrame.t) rest outs,
  NoDup pending.*2 ->
  flushPendingPresentFences_loop fences pending h = Some (rest, h', outs) ->
  ∀ fence (d : nat) f, (fence, d) ∈ pending -> h !! d = Some f ->
  (resolved fences (fence, d) ->
   ∃ f' o, DisplayFrame.onPresent (signalOf fences fence) f = Some (f', o)
           ∧ h' !! d = Some f')
  ∧ (¬ resolved fences (fence, d) -> h' !! d = Some f).
Proof.
  induction pending as [|[fence0 d0] pending IH];
    intros h h' rest outs Hnd Hloop fence d f Hin Hf; [inversion Hin|].
  rewrite fmap_cons in Hnd. apply NoDup_cons in Hnd as [Hfresh Hnd].
  cbn [snd] in Hfresh.
  apply elem_of_cons in Hin as [Hhead|Hin].
  - (* the first entry *)
    injection Hhead as -> ->.
    apply flushPendingPresentFences_loop_cons_Some in Hloop
      as [(_ & Hr & rest0 & _ & Hloop)
         |[(_ & Hr & h1 & out & outs0 & Hpd & Hloop & ->)
          |(_ & Hr & Hloop)]].
    + destruct (flushPendingPresentFences_loop_other _ _ _ _ _ _ _ Hfresh Hloop)
        as (Hsame & _).
      split; [tauto|]. intros _. by rewrite Hsame.
    + destruct (flushPendingPresentFences_loop_other _ _ _ _ _ _ _ Hfresh Hloop)
        as (Hsame & _).
      split; [|tauto]. intros _.
      apply presentDisplayFrame_Some in Hpd
        as [(Hnone & _)|(f0 & f' & o & Hf0 & Hon & -> & _)]; [congruence|].
      rewrite Hf in Hf0. injection Hf0 as <-.
      exists f', o. split; [exact Hon|]. rewrite Hsame.
      apply list_lookup_insert_eq. by eapply lookup_lt_Some.
    + destruct (flushPendingPresentFences_loop_other _ _ _ _ _ _ _ Hfresh Hloop)
        as (Hsame & _).
      split; [tauto|]. intros _. by rewrite Hsame.
  - (* a later entry *)
    assert (Hne : d ≠ d0).
    { intros ->. apply Hfresh. apply list_elem_of_fmap. by exists (fence, d0). }
    apply flushPendingPresentFences_loop_cons_Some in Hloop
      as [(_ & _ & rest0 & _ & Hloop)
         |[(_ & _ & h1 & out & outs0 & Hpd & Hloop & ->)
          |(_ & _ & Hloop)]].
    + by eapply IH.
    + destruct (presentDisplayFrame_spec _ _ _ _ _ Hpd) as (_ & _ & Hother & _).
      eapply IH; [exact Hnd | exact Hloop | exact Hin |].
      by rewrite (Hother d Hne).
    + by eapply IH.
Qed.

(** A flush returns when the frames it has to present are woken. *)
Lemma flushPendingPresentFences_loop_returns (fences : nat -> FenceTime)
    (pending : list (option nat * nat)) : ∀ (h : list DisplayFrame.t),
  Forall (λ e, resolved fences e -> woken h e.2) pending ->
  is_Some (flushPendingPresentFences_loop fences pending h).
Proof.
  induction pending as [|[fence d] pending IH]; intros h Hall; [by eexists|].
  apply Forall_cons in Hall as [Hd Hall]. cbn [snd] in Hd.
  rewrite flushPendingPresentFences_loop_cons.
  destruct (decide (stillPending fences (fence, d))).
  - destruct (IH h Hall) as [[[rest h'] outs] ->]. by eexists.
  - destruct (decide (resolved fences (fence, d))) as [Hr|Hr]; [|by apply IH].
    destruct (presentDisplayFrame_woken d (signalOf fences fence) h (Hd Hr))
      as (f & f' & o & Hf & Hon & Hpd).
    rewrite Hpd.
    destruct (presentDisplayFrame_spec _ _ _ _ _ Hpd) as (_ & Hrates & _).
    destruct (IH (<[d := f']> h)) as [[[rest h'] outs] ->]; [|by eexists].
    eapply Forall_impl; [exact Hall|]. intros e He Hre.
    eapply woken_rates; [exact Hrates | by apply He].
Qed.

(** A queue of pending entries is left as it is. *)
Lemma flushPendingPresentFences_loop_all_pending (fences : nat -> FenceTime)
    (pending : list (option nat * nat)) (h : list DisplayFrame.t) :
  Forall (stillPending fences) pending ->
  flushPendingPresentFences_loop fences pending h = Some (pending, h, []).
Proof.
  induction 1 as [|[fence d] pending Hp _ IH]; [reflexivity|].
  rewrite flushPendingPresentFences_loop_cons, decide_True by exact Hp.
  by rewrite IH.
Qed.

(** C3 (as the code has it).  A flush goes through the whole queue in
    submission order.  When the frames of the entries whose fence has a
    signal time are woken (their refresh period is not 0), it returns.
    The entries it leaves are exactly those whose fence is valid and has
    not signalled, in their order; the frames it classifies and traces are
    exactly those of the entries whose fence has a signal time, in their
    order, whether or not an entry before them stays pending: each of them
    becomes the frame [onPresent] makes of it at that signal time, and
    every other frame stays as it was; every entry that is not pending is
    erased.  The history is not touched by a flush. *)
Theorem flushPendingPresentFences_order (fences : nat -> FenceTime) (ft : t) :
  Forall (λ e, (e.2 < length (heap ft))%nat) (mPendingPresentFences ft) ->
  NoDup (mPendingPresentFences ft).*2 ->
  Forall (λ e, resolved fences e -> woken (heap ft) e.2)
         (mPendingPresentFences ft) ->
  ∃ ft' outs,
    flushPendingPresentFences fences ft = Some (ft', outs)
    ∧ mPendingPresentFences ft'
      = filter (stillPending fences) (mPendingPresentFences ft)
    ∧ traced outs = (filter (resolved fences) (mPendingPresentFences ft)).*2
    ∧ mDisplayFrames ft' = mDisplayFrames ft
    ∧ length (heap ft') = length (heap ft)
    ∧ (∀ fence (d : nat) f,
         (fence, d) ∈ mPendingPresentFences ft -> heap ft !! d = Some f ->
         (resolved fences (fence, d) ->
          ∃ f' o,
            DisplayFrame.onPresent (signalOf fences fence) f = Some (f', o)
            ∧ heap ft' !! d = Some f')
         ∧ (¬ resolved fences (fence, d) -> heap ft' !! d = Some f))
    ∧ (∀ d : nat, d ∉ (mPendingPresentFences ft).*2 ->
         heap ft' !! d = heap ft !! d).
Proof.
  intros Hall Hnd Hwoken. unfold flushPendingPresentFences.
  destruct (flushPendingPresentFences_loop_returns fences _ _ Hwoken)
    as [[[rest h'] outs] Hloop].
  rewrite Hloop. eexists _, outs. split; [reflexivity|].
  destruct (flushPendingPresentFences_loop_spec _ _ _ _ _ _ Hloop)
    as (-> & Hlen & _ & Htraced & _).
  cbn. split; [reflexivity|]. split; [by apply Htraced|].
  split; [reflexivity|]. split; [exact Hlen|]. split.
  - intros fence d f Hin Hf.
    by eapply flushPendingPresentFences_loop_heap.
  - intros d Hd.
    by destruct (flushPendingPresentFences_loop_other _ _ _ _ _ _ _ Hd Hloop).
Qed.

End PendingQueueFacts.

Lemma flushPendingPresentFences_order_witness :
  ∃ ft' outs f1,
    @FrameTimeline.flushPendingPresentFences platform_header
      fences_second_signalled after_two_woken_presents = Some (ft', outs)
    ∧ FrameTimeline.mPendingPresentFences ft' = [(Some 0%nat, 0%nat)]
    ∧ traced outs = [1%nat]
    ∧ FrameTimeline.heap ft' !! 1%nat = Some f1
    ∧ DisplayFrame.mFramePresentMetadata f1 = OnTimePresent.
Proof.
  destruct (@flushPendingPresentFences_order platform_header
              fences_second_signalled after_two_woken_presents)
    as (ft' & outs & Hflush & Hqueue & Htraced & _ & _ & Hframes & _).
  - vm_compute. repeat constructor.
  - apply (bool_decide_unpack _). vm_compute. exact I.
  - vm_compute. repeat constructor; intros _; eexists;
      (split; [reflexivity | discriminate]).
  - destruct (FrameTimeline.heap after_two_woken_presents !! 1%nat)
      as [f|] eqn:Hf; [|vm_compute in Hf; discriminate].
    destruct (Hframes (Some 1%nat) 1%nat f) as [Hresolved _].
    + vm_compute. right. left.
    + exact Hf.
    + destruct Hresolved as (f1 & o & Hon & Hf1).
      { vm_compute. repeat split; discriminate. }
      exists ft', outs, f1. split; [exact Hflush|].
      split; [rewrite Hqueue; reflexivity|].
      split; [rewrite Htraced; reflexivity|]. split; [exact Hf1|].
      vm_compute in Hf. injection Hf as <-.
      vm_compute in Hon. injection Hon as <- _. reflexivity.
Defined.

(** C3 (as stated) fails: after [two_woken_presents] the queue holds
    frame 0 and then frame 1; when the fence of frame 1 has signalled and
    that of frame 0 has not, a flush classifies frame 1 and leaves frame 0
    pending. *)
Lemma flush_classifies_behind_pending_entry :
  ¬ @classified_only_from_front platform_header.
Proof.
  intros Hclaim.
  assert (Hrun : @FrameTimeline.run platform_header two_woken_presents
                   (@FrameTimeline.make platform_header 1 thresholds_2ms)
                 = Some (after_two_woken_presents, []))
    by (vm_compute; reflexivity).
  destruct (@FrameTimeline.flushPendingPresentFences platform_header
              fences_second_signalled after_two_woken_presents)
    as [[ft' outs']|] eqn:Hflush; [|vm_compute in Hflush; discriminate].
  apply (Hclaim _ _ _ _ _ fences_second_signalled ft' outs' 0%nat 1%nat
           (Some 0%nat, 0%nat) (Some 1%nat, 1%nat) Hrun Hflush).
  - vm_compute. reflexivity.
  - vm_compute. reflexivity.
  - lia.
  - vm_compute in Hflush. injection Hflush as _ <-. vm_compute. constructor.
  - vm_compute in Hflush. injection Hflush as <- _. vm_compute. constructor.
Qed.

(** ** The history of display frames *)

Lemma lastn_length {A} (n : nat) (l : list A) :
  length (lastn n l) = Nat.min (length l) n.
Proof. unfold lastn. rewrite length_drop. lia. Qed.

Lemma lastn_snoc {A} (n : nat) (l : list A) (x : A) :
  lastn (S n) (l ++ [x]) = lastn n l ++ [x].
Proof.
  unfold lastn. rewrite length_app. cbn [length].
  rewrite drop_app_le by lia. f_equal. f_equal. lia.
Qed.

Lemma lastn_lastn_app {A} (n : nat) (l k : list A) :
  lastn n (lastn n l ++ k) = lastn n (l ++ k).
Proof.
  unfold lastn. rewrite !length_app, length_drop.
  destruct (decide (n <= length k)%nat) as [Hk|Hk].
  - rewrite !drop_app_ge by (rewrite ?length_drop; lia).
    rewrite length_drop. f_equal. lia.
  - rewrite !drop_app_le by (rewrite ?length_drop; lia).
    rewrite drop_drop. f_equal. f_equal. lia.
Qed.

Section HistoryFacts.
Context `{Header}.

Import FrameTimeline.

Lemma popOlderFrames_spec (d : N) (frames : list nat) :
  (1 <= d)%N ->
  popOlderFrames d frames = Some (lastn (N.to_nat d - 1) frames).
Proof.
  intros Hd. induction frames as [|x frames IH].
  - cbn. rewrite decide_False by lia. reflexivity.
  - cbn [popOlderFrames].
    destruct (decide (N.of_nat (length (x :: frames)) >= d)%N) as [Hfull|Hroom].
    + rewrite IH. f_equal. unfold lastn. cbn [length] in *.
      replace (S (length frames) - (N.to_nat d - 1))%nat
        with (S (length frames - (N.to_nat d - 1)))%nat by lia.
      reflexivity.
    + f_equal. unfold lastn. cbn [length] in *.
      replace (S (length frames) - (N.to_nat d - 1))%nat with 0%nat by lia.
      reflexivity.
Qed.

(** [setSfPresent], read backwards: the flush of the queue with the
    current frame behind it, and the finalization. *)
Lemma setSfPresent_Some time fence fences (ft ft' : t) outs :
  setSfPresent time fence fences ft = Some (ft', outs) ->
  ∃ rest h1 frames,
    flushPendingPresentFences_loop fences
      (mPendingPresentFences ft ++ [(fence, mCurrentDisplayFrame ft)])
      (alter (DisplayFrame.setActualEndTime time) (mCurrentDisplayFrame ft)
             (heap ft))
    = Some (rest, h1, outs)
    ∧ popOlderFrames (mMaxDisplayFrames ft) (mDisplayFrames ft) = Some frames
    ∧ ft' = {| heap := h1 ++ [DisplayFrame.make (mJankClassificationThresholds ft)];
               mCurrentDisplayFrame := length h1;
               mPendingPresentFences := rest;
               mDisplayFrames := frames ++ [mCurrentDisplayFrame ft];
               mMaxDisplayFrames := mMaxDisplayFrames ft;
               mTokenManager := mTokenManager ft;
               mSurfaceFlingerPid := mSurfaceFlingerPid ft;
               mJankClassificationThresholds :=
                 mJankClassificationThresholds ft |}.
Proof.
  unfold setSfPresent, flushPendingPresentFences. intros Hcall.
  cbn [with_heap with_mPendingPresentFences heap mPendingPresentFences
       mCurrentDisplayFrame] in Hcall.
  destruct (flushPendingPresentFences_loop fences _ _)
    as [[[rest h1] out]|] eqn:Hloop; [|discriminate].
  unfold finalizeCurrentDisplayFrame in Hcall. cbn in Hcall.
  destruct (popOlderFrames _ _) as [frames|] eqn:Hpop; [|discriminate].
  injection Hcall as <- <-. by exists rest, h1, frames.
Qed.

(** The same, forwards. *)
Lemma setSfPresent_eq time fence fences (ft : t) rest h1 outs frames :
  flushPendingPresentFences_loop fences
    (mPendingPresentFences ft ++ [(fence, mCurrentDisplayFrame ft)])
    (alter (DisplayFrame.setActualEndTime time) (mCurrentDisplayFrame ft)
           (heap ft))
  = Some (rest, h1, outs) ->
  popOlderFrames (mMaxDisplayFrames ft) (mDisplayFrames ft) = Some frames ->
  setSfPresent time fence fences ft
  = Some ({| heap := h1 ++ [DisplayFrame.make (mJankClassificationThresholds ft)];
             mCurrentDisplayFrame := length h1;
             mPendingPresentFences := rest;
             mDisplayFrames := frames ++ [mCurrentDisplayFrame ft];
             mMaxDisplayFrames := mMaxDisplayFrames ft;
             mTokenManager := mTokenManager ft;
             mSurfaceFlingerPid := mSurfaceFlingerPid ft;
             mJankClassificationThresholds :=
               mJankClassificationThresholds ft |}, outs).
Proof.
  intros Hloop Hpop. unfold setSfPresent, flushPendingPresentFences.
  cbn [with_heap with_mPendingPresentFences heap mPendingPresentFences
       mCurrentDisplayFrame].
  rewrite Hloop. unfold finalizeCurrentDisplayFrame. cbn. by rewrite Hpop.
Qed.

(** A run, call by call. *)
Lemma run_cons_Some (c : Call) (calls : list Call) (ft ft' : t) outs :
  run (c :: calls) ft = Some (ft', outs) ->
  ∃ ft1 out outs',
    call c ft = Some (ft1, out)
    ∧ run calls ft1 = Some (ft', outs')
    ∧ outs = out ++ outs'.
Proof.
  cbn [run]. intros Hrun.
  destruct (call c ft) as [[ft1 out]|] eqn:Hcall; [|discriminate].
  destruct (run calls ft1) as [[ft2 outs2]|] eqn:Hrest; [|discriminate].
  injection Hrun as <- <-. by exists ft1, out, outs2.
Qed.

(** One call that is not a resize, on a history within its depth. *)
Lemma call_history (c : Call) (ft ft' : t) outs :
  ¬ is_resize c ->
  (1 <= mMaxDisplayFrames ft)%N ->
  call c ft = Some (ft', outs) ->
  mMaxDisplayFrames ft' = mMaxDisplayFrames ft
  ∧ mDisplayFrames ft'
    = match c with
      | SetSfPresent _ _ _ =>
          lastn (N.to_nat (mMaxDisplayFrames ft))
                (mDisplayFrames ft ++ [mCurrentDisplayFrame ft])
      | _ => mDisplayFrames ft
      end.
Proof.
  intros Hc Hd Hcall.
  destruct c as [now1 now2 p|sf|token wake rate|time fence fences|size|];
    cbn in Hc; try contradiction; cbn [call] in Hcall;
    try (by injection Hcall as <- <-).
  apply setSfPresent_Some in Hcall as (rest & h1 & frames & _ & Hpop & ->).
  rewrite popOlderFrames_spec in Hpop by exact Hd. injection Hpop as <-.
  cbn. split; [reflexivity|].
  replace (N.to_nat (mMaxDisplayFrames ft))
    with (S (N.to_nat (mMaxDisplayFrames ft) - 1)) at 2 by lia.
  by rewrite lastn_snoc.
Qed.

Lemma run_history (calls : list Call) : ∀ (ft ft' : t) outs,
  Forall (λ c, ¬ is_resize c) calls ->
  (1 <= mMaxDisplayFrames ft)%N ->
  (length (mDisplayFrames ft) <= N.to_nat (mMaxDisplayFrames ft))%nat ->
  run calls ft = Some (ft', outs) ->
  mMaxDisplayFrames ft' = mMaxDisplayFrames ft
  ∧ mDisplayFrames ft'
    = lastn (N.to_nat (mMaxDisplayFrames ft))
            (mDisplayFrames ft ++ finalized calls ft).
Proof.
  induction calls as [|c calls IH]; intros ft ft' outs Hcalls Hd Hlen Hrun.
  - cbn in Hrun. injection Hrun as <- <-. cbn. rewrite app_nil_r. unfold lastn.
    replace (length (mDisplayFrames ft) - N.to_nat (mMaxDisplayFrames ft))%nat
      with 0%nat by lia.
    done.
  - apply Forall_cons in Hcalls as [Hc Hcalls].
    apply run_cons_Some in Hrun as (ft1 & out & outs' & Hcall & Hrun & ->).
    destruct (call_history c ft ft1 out Hc Hd Hcall) as (Hm & Hh).
    assert (Hlen1 : (length (mDisplayFrames ft1)
                     <= N.to_nat (mMaxDisplayFrames ft1))%nat).
    { rewrite Hh, Hm. destruct c; try exact Hlen. rewrite lastn_length. lia. }
    destruct (IH ft1 ft' outs' Hcalls ltac:(by rewrite Hm) Hlen1 Hrun)
      as (Hm2 & Hh2).
    cbn [finalized]. rewrite Hcall.
    split; [congruence|].
    rewrite Hh2, Hm, Hh.
    destruct c; try reflexivity.
    rewrite lastn_lastn_app, <- app_assoc. reflexivity.
Qed.

(** *** Runs that return *)

Lemma woken_alter (g : DisplayFrame.t -> DisplayFrame.t) (h : list DisplayFrame.t)
    (current d : nat) :
  (∀ f, DisplayFrame.mRefreshRate (g f) = DisplayFrame.mRefreshRate f) ->
  woken h d -> woken (alter g current h) d.
Proof.
  intros Hg (f & Hf & Hp). destruct (decide (d = current)) as [->|Hne].
  - exists (g f). split; [by rewrite list_lookup_alter_eq, Hf | by rewrite Hg].
  - exists f. split; [by rewrite list_lookup_alter_ne | exact Hp].
Qed.

Lemma woken_alter_ne (g : DisplayFrame.t -> DisplayFrame.t)
    (h : list DisplayFrame.t) (current d : nat) :
  d ≠ current -> woken h d -> woken (alter g current h) d.
Proof.
  intros Hne (f & Hf & Hp). exists f. split; [|exact Hp].
  by rewrite list_lookup_alter_ne.
Qed.

Lemma woken_app (h k : list DisplayFrame.t) (d : nat) :
  woken h d -> woken (h ++ k) d.
Proof.
  intros (f & Hf & Hp). exists f. split; [|exact Hp].
  by apply lookup_app_l_Some.
Qed.

(** One call of a well-driven run returns and keeps the run going. *)
Lemma call_driven (c : Call) (calls : list Call) (w : bool) (ft : t) :
  driven_inv w ft ->
  well_driven w (c :: calls) ->
  ∃ ft' outs w',
    call c ft = Some (ft', outs) ∧ driven_inv w' ft' ∧ well_driven w' calls.
Proof.
  intros (Hcur & Hq & Hw & Hmax) Hdriven.
  destruct c as [now1 now2 p|sf|token wake rate|time fence fences|size|];
    cbn [well_driven] in Hdriven; cbn [call].
  - eexists _, _, w. split; [reflexivity|]. split; [|exact Hdriven].
    by repeat split.
  - eexists _, _, w. split; [reflexivity|]. split; [|exact Hdriven].
    unfold driven_inv, addSurfaceFrame. cbn. rewrite length_alter.
    split; [exact Hcur|]. split; [|split; [|exact Hmax]].
    + eapply Forall_impl; [exact Hq|]. intros e [He Hwoken].
      split; [exact He|]. by apply woken_alter.
    + intros Hwt. by apply woken_alter, Hw.
  - eexists _, _, _. split; [reflexivity|]. split; [|exact Hdriven].
    unfold driven_inv, setSfWakeUp. cbn. rewrite length_alter.
    split; [exact Hcur|]. split; [|split; [|exact Hmax]].
    + eapply Forall_impl; [exact Hq|]. intros e [He Hwoken].
      split; [exact He|]. apply woken_alter_ne; [lia | exact Hwoken].
    + intros Hwt. apply bool_decide_eq_true_1 in Hwt.
      destruct (lookup_lt_is_Some_2 (heap ft) _ Hcur) as [f Hf].
      eexists. split; [by rewrite list_lookup_alter_eq, Hf|]. exact Hwt.
  - destruct Hdriven as [-> Hdriven]. specialize (Hw eq_refl).
    assert (Hall : Forall (λ e, resolved fences e ->
                     woken (alter (DisplayFrame.setActualEndTime time)
                              (mCurrentDisplayFrame ft) (heap ft)) e.2)
                     (mPendingPresentFences ft ++ [(fence, mCurrentDisplayFrame ft)])).
    { apply Forall_app. split.
      - eapply Forall_impl; [exact Hq|]. intros e [_ Hwoken] _.
        by apply woken_alter.
      - apply Forall_singleton. intros _. by apply woken_alter. }
    destruct (flushPendingPresentFences_loop_returns fences _ _ Hall)
      as [[[rest h1] outs] Hloop].
    destruct (flushPendingPresentFences_loop_spec _ _ _ _ _ _ Hloop)
      as (Hrest & Hlen & Hrates & _).
    rewrite length_alter in Hlen.
    pose proof (setSfPresent_eq time fence fences ft rest h1 outs _ Hloop
                  (popOlderFrames_spec _ (mDisplayFrames ft) Hmax)) as Hcall.
    eexists _, outs, false. split; [exact Hcall|].
    split; [|exact Hdriven].
    unfold driven_inv. cbn. rewrite length_app. cbn.
    split; [lia|]. split; [|split; [discriminate | exact Hmax]].
    rewrite Hrest. apply Forall_forall. intros e He.
    apply list_elem_of_filter in He as [_ He].
    apply elem_of_app in He as [He|He].
    + rewrite Forall_forall in Hq. destruct (Hq e He) as [Hlt Hwoken].
      split; [lia|]. apply woken_app.
      eapply woken_rates; [exact Hrates|]. by apply woken_alter.
    + apply list_elem_of_singleton in He as ->. cbn [snd].
      split; [lia|]. apply woken_app.
      eapply woken_rates; [exact Hrates|]. by apply woken_alter.
  - destruct Hdriven as [Hsize Hdriven].
    eexists _, _, w. split; [reflexivity|]. split; [|exact Hdriven].
    unfold driven_inv, setMaxDisplayFrames. cbn.
    split; [exact Hcur|]. split; [constructor|]. split; [exact Hw | exact Hsize].
  - destruct Hdriven as [Hsize Hdriven].
    eexists _, _, w. split; [reflexivity|]. split; [|exact Hdriven].
    unfold driven_inv, reset, setMaxDisplayFrames. cbn.
    split; [exact Hcur|]. split; [constructor|]. split; [exact Hw | exact Hsize].
Qed.

Lemma run_driven (calls : list Call) : ∀ (w : bool) (ft : t),
  driven_inv w ft ->
  well_driven w calls ->
  ∃ ft' outs w', run calls ft = Some (ft', outs) ∧ driven_inv w' ft'.
Proof.
  induction calls as [|c calls IH]; intros w ft Hinv Hdriven.
  - by exists ft, [], w.
  - destruct (call_driven c calls w ft Hinv Hdriven)
      as (ft1 & out & w1 & Hcall & Hinv1 & Hdriven1).
    destruct (IH w1 ft1 Hinv1 Hdriven1) as (ft2 & outs & w2 & Hrun & Hinv2).
    exists ft2, (out ++ outs), w2. cbn [run]. by rewrite Hcall, Hrun.
Qed.

Lemma make_driven_inv pid thresholds :
  (1 <= kDefaultMaxDisplayFrames)%N -> driven_inv false (make pid thresholds).
Proof.
  intros Hdefault. unfold driven_inv. cbn.
  split; [lia|]. split; [constructor|]. split; [discriminate | exact Hdefault].
Qed.

(** X25.  The history is a bounded FIFO for a depth of at least one.  From
    a new timeline of depth [d >= 1], every well-driven run of calls
    without a resize returns, and every such run that returns leaves in
    the history exactly the last min(n, d) of the n display frames it
    finalized, in the order they were finalized. *)
Theorem history_is_bounded_fifo (d : N) :
  (1 <= d)%N -> history_keeps_last d.
Proof.
  intros Hd pid thresholds calls ft Hcalls. split.
  - intros Hdriven.
    assert (Hinv : driven_inv false ft).
    { unfold driven_inv, ft. cbn.
      split; [lia|]. split; [constructor|]. split; [discriminate | exact Hd]. }
    destruct (run_driven calls false ft Hinv Hdriven)
      as (ft' & outs & w' & Hrun & _).
    by eexists.
  - intros ft' outs Hrun.
    destruct (run_history calls ft ft' outs Hcalls ltac:(exact Hd)
                ltac:(cbn; lia) Hrun)
      as (_ & Hh).
    cbn [ft setMaxDisplayFrames mDisplayFrames mMaxDisplayFrames app] in Hh.
    split; [exact Hh|]. rewrite Hh. apply lastn_length.
Qed.

End HistoryFacts.

Lemma history_is_bounded_fifo_witness :
  ∃ ft' outs,
    @FrameTimeline.run platform_header five_presents
      (FrameTimeline.setMaxDisplayFrames 3
         (@FrameTimeline.make platform_header 1 thresholds_2ms))
    = Some (ft', outs)
    ∧ FrameTimeline.mDisplayFrames ft' = [2; 3; 4]%nat
    ∧ length (FrameTimeline.mDisplayFrames ft') = 3%nat.
Proof.
  destruct (@FrameTimeline.run platform_header five_presents
              (FrameTimeline.setMaxDisplayFrames 3
                 (@FrameTimeline.make platform_header 1 thresholds_2ms)))
    as [[ft' outs]|] eqn:Hrun; [|vm_compute in Hrun; discriminate].
  exists ft', outs. split; [reflexivity|].
  destruct (@history_is_bounded_fifo platform_header 3 ltac:(lia) 1
              thresholds_2ms five_presents
              ltac:(repeat constructor; cbn; tauto))
    as [_ Hhistory].
  apply (Hhistory ft' outs Hrun).
Defined.

(** C8.  At the depth 0 the code misses a case.  After
    [setMaxDisplayFrames(0)] the loop of [finalizeCurrentDisplayFrame],
    whose test [size() >= mMaxDisplayFrames] holds of the empty deque,
    pops it: the first [setSfPresent], of a frame woken at 60 Hz and
    without a fence, has no result, where the claim has a history of
    min(1, 0) = 0 frames. *)
Theorem history_depth_zero_has_no_result :
  @FrameTimeline.run platform_header
    [ FrameTimeline.SetSfWakeUp 0 50 fps60;
      FrameTimeline.SetSfPresent 100 None fences_pending ]
    (FrameTimeline.setMaxDisplayFrames 0
       (@FrameTimeline.make platform_header 1 thresholds_2ms)) = None
  ∧ ¬ @history_keeps_last platform_header 0.
Proof.
  split; [vm_compute; reflexivity|].
  intros Hclaim.
  destruct (Hclaim 1 thresholds_2ms
              [ FrameTimeline.SetSfWakeUp 0 50 fps60;
                FrameTimeline.SetSfPresent 100 None fences_pending ]
              ltac:(repeat constructor; cbn; tauto))
    as [Hreturns _].
  destruct Hreturns as [r Hrun]; [cbn; auto|].
  vm_compute in Hrun. discriminate Hrun.
Qed.

(** ** Resizing the history *)

Section ResizeFacts.
Context `{Header}.

Import FrameTimeline.

Lemma popOlderFrames_not_elem (d : nat) (m : N) (l l' : list nat) :
  popOlderFrames m l = Some l' -> d ∉ l -> d ∉ l'.
Proof.
  revert l'. induction l as [|x l IH]; intros l' Hp Hn; cbn in Hp.
  - case_decide; [discriminate|]. by injection Hp as <-.
  - case_decide.
    + apply (IH _ Hp). rewrite not_elem_of_cons in Hn. tauto.
    + by injection Hp as <-.
Qed.

Lemma call_unreachable (c : Call) (d : nat) (ft ft' : t) outs :
  unreachable d ft ->
  call c ft = Some (ft', outs) ->
  unreachable d ft' ∧ heap ft' !! d = heap ft !! d ∧ d ∉ traced outs.
Proof.
  intros (Hlt & Hcur & Hq & Hh) Hcall.
  destruct c as [now1 now2 p|sf|token wake rate|time fence fences|size|];
    cbn [call] in Hcall.
  - injection Hcall as <- <-. repeat split; auto; apply not_elem_of_nil.
  - injection Hcall as <- <-. unfold unreachable. cbn.
    rewrite length_alter, list_lookup_alter_ne by auto.
    repeat split; auto; apply not_elem_of_nil.
  - injection Hcall as <- <-. unfold unreachable. cbn.
    rewrite length_alter, list_lookup_alter_ne by auto.
    repeat split; auto; apply not_elem_of_nil.
  - apply setSfPresent_Some in Hcall as (rest & h1 & frames & Hloop & Hpop & ->).
    assert (Hd : d ∉ (mPendingPresentFences ft
                      ++ [(fence, mCurrentDisplayFrame ft)]).*2)
      by (rewrite fmap_app, not_elem_of_app; split; [exact Hq|];
          cbn; rewrite not_elem_of_cons; split;
          [exact Hcur | apply not_elem_of_nil]).
    destruct (flushPendingPresentFences_loop_other _ _ _ _ _ _ _ Hd Hloop)
      as (Hh1 & Ht1 & Hq1).
    destruct (flushPendingPresentFences_loop_spec _ _ _ _ _ _ Hloop)
      as (_ & Hl1 & _).
    rewrite list_lookup_alter_ne in Hh1 by auto. rewrite length_alter in Hl1.
    unfold unreachable. cbn. rewrite length_app, Hl1. cbn.
    repeat split; try lia; auto.
    + rewrite not_elem_of_app, not_elem_of_cons.
      split; [by eapply popOlderFrames_not_elem|].
      split; [exact Hcur | apply not_elem_of_nil].
    + rewrite lookup_app_l by lia. exact Hh1.
  - injection Hcall as <- <-. unfold unreachable. cbn.
    repeat split; auto; apply not_elem_of_nil.
  - injection Hcall as <- <-. unfold unreachable. cbn.
    repeat split; auto; apply not_elem_of_nil.
Qed.

Lemma run_unreachable (calls : list Call) : ∀ (d : nat) (ft ft' : t) outs,
  unreachable d ft ->
  run calls ft = Some (ft', outs) ->
  unreachable d ft' ∧ heap ft' !! d = heap ft !! d ∧ d ∉ traced outs.
Proof.
  induction calls as [|c calls IH]; intros d ft ft' outs Hu Hrun.
  - cbn in Hrun. injection Hrun as <- <-.
    split; [exact Hu|]. split; [reflexivity | apply not_elem_of_nil].
  - apply run_cons_Some in Hrun as (ft1 & out & outs' & Hcall & Hrun & ->).
    destruct (call_unreachable c d ft ft1 out Hu Hcall) as (Hu1 & Hh1 & Ht1).
    destruct (IH d ft1 ft' outs' Hu1 Hrun) as (Hu2 & Hh2 & Ht2).
    split; [exact Hu2|]. split; [congruence|].
    rewrite traced_app, not_elem_of_app. auto.
Qed.

Lemma make_wf pid thresholds : wf (make pid thresholds).
Proof. split; cbn; [lia | constructor]. Qed.

Lemma call_wf (c : Call) (ft ft' : t) outs :
  wf ft -> call c ft = Some (ft', outs) -> wf ft'.
Proof.
  intros [Hcur Hq] Hcall.
  destruct c as [now1 now2 p|sf|token wake rate|time fence fences|size|];
    cbn [call] in Hcall;
    try (injection Hcall as <- <-; split; cbn; rewrite ?length_alter;
         [exact Hcur | first [exact Hq | constructor]]).
  apply setSfPresent_Some in Hcall as (rest & h1 & frames & Hloop & Hpop & ->).
  destruct (flushPendingPresentFences_loop_spec _ _ _ _ _ _ Hloop)
    as (Hrest & Hlen & _).
  rewrite length_alter in Hlen.
  split; cbn; rewrite length_app, Hlen; cbn; [lia|].
  rewrite Hrest. rewrite Forall_forall in *. intros e He.
  apply list_elem_of_filter in He as [_ He].
  apply elem_of_app in He as [He|He].
  - specialize (Hq e He). lia.
  - apply list_elem_of_singleton in He as ->. cbn. lia.
Qed.

Lemma run_wf (calls : list Call) : ∀ (ft ft' : t) outs,
  wf ft -> run calls ft = Some (ft', outs) -> wf ft'.
Proof.
  induction calls as [|c calls IH]; intros ft ft' outs Hwf Hrun.
  - cbn in Hrun. by injection Hrun as <- <-.
  - apply run_cons_Some in Hrun as (ft1 & out & outs' & Hcall & Hrun & ->).
    eapply IH; [|exact Hrun]. by eapply call_wf.
Qed.

(** C10.  In any state a run of calls reaches, [setMaxDisplayFrames]
    with any size leaves the history and the pending-fence queue empty and
    stores the size as the maximum.  The display frames that were waiting
    for their fence are out of reach from then on: whatever calls follow,
    they are never presented (classified and traced), they keep the
    contents they had, and neither the history nor the queue holds them
    again. *)
Theorem setMaxDisplayFrames_discards_pending
    (calls : list Call) pid thresholds (ft : t) outs (size : N) :
  run calls (make pid thresholds) = Some (ft, outs) ->
  let resized := setMaxDisplayFrames size ft in
  mDisplayFrames resized = []
  ∧ mPendingPresentFences resized = []
  ∧ mMaxDisplayFrames resized = size
  ∧ ∀ fence (d : nat) (later : list Call) (ft' : t) outs',
      (fence, d) ∈ mPendingPresentFences ft ->
      run later resized = Some (ft', outs') ->
      heap ft' !! d = heap ft !! d
      ∧ (d ∉ traced outs')
      ∧ (d ∉ mDisplayFrames ft')
      ∧ (d ∉ (mPendingPresentFences ft').*2).
Proof.
  intros Hrun. cbv zeta. do 3 (split; [reflexivity|]).
  intros fence d later ft' outs' Hin Hlater.
  destruct (run_wf calls _ _ _ (make_wf pid thresholds) Hrun) as [Hcur Hq].
  rewrite Forall_forall in Hq. specialize (Hq _ Hin). cbn in Hq.
  assert (Hu : unreachable d (setMaxDisplayFrames size ft)).
  { unfold unreachable. cbn.
    repeat split; try tauto; apply not_elem_of_nil. }
  destruct (run_unreachable later d _ ft' outs' Hu Hlater)
    as ((_ & _ & Hq' & Hh') & Hheap & Htraced).
  auto.
Qed.

End ResizeFacts.

Lemma setMaxDisplayFrames_discards_pending_witness :
  let resized := FrameTimeline.setMaxDisplayFrames 5 after_two_presents in
  FrameTimeline.mDisplayFrames resized = []
  ∧ FrameTimeline.mPendingPresentFences resized = []
  ∧ FrameTimeline.mMaxDisplayFrames resized = 5%N
  ∧ ∃ ft' outs',
      @FrameTimeline.run platform_header
        [ FrameTimeline.SetSfWakeUp 0 250 fps60;
          FrameTimeline.SetSfPresent 300 (Some 1%nat) fences_second_signalled ]
        resized = Some (ft', outs')
      ∧ traced outs' = [2%nat]
      ∧ (1%nat ∉ traced outs').
Proof.
  destruct (@setMaxDisplayFrames_discards_pending platform_header two_presents
              1 thresholds_2ms after_two_presents [] 5
              ltac:(vm_compute; reflexivity))
    as (Hhistory & Hqueue & Hmax & Hlater).
  cbv zeta. do 3 (split; [assumption|]).
  destruct (@FrameTimeline.run platform_header
              [ FrameTimeline.SetSfWakeUp 0 250 fps60;
                FrameTimeline.SetSfPresent 300 (Some 1%nat)
                  fences_second_signalled ]
              (FrameTimeline.setMaxDisplayFrames 5 after_two_presents))
    as [[ft' outs']|] eqn:Hrun; [|vm_compute in Hrun; discriminate].
  exists ft', outs'. split; [reflexivity|]. split.
  - vm_compute in Hrun. injection Hrun as _ <-. reflexivity.
  - apply (Hlater (Some 1%nat) 1%nat _ ft' outs'
             ltac:(vm_compute; repeat constructor) Hrun).
Defined.

(** ** The base time of a dump *)






(** The fourth test of [getMinTime] looks at the actual present time and
    then takes the actual end time: a present time of 500 next to an end
    time of 700 gives 700. *)
Lemma getMinTime_overlooks_presentTime :
  getMinTime PredictionState.None TimelineItem_default
    {| startTime := 0; endTime := 700; presentTime := 500 |} = 700.
Proof. reflexivity. Qed.


Section DumpFacts.
Context `{Header}.


End DumpFacts.



(** * Further properties *)

(** ** Bit masks *)

Lemma land_lor_absorb (a x : Z) : Z.land (Z.lor a x) x = x.
Proof.
  apply Z.bits_inj'. intros n _.
  rewrite Z.land_spec, Z.lor_spec.
  destruct (Z.testbit a n), (Z.testbit x n); reflexivity.
Qed.

Lemma lor_lor_idem (a x : Z) : Z.lor (Z.lor a x) x = Z.lor a x.
Proof. by rewrite <- Z.lor_assoc, Z.lor_diag. Qed.

Lemma lor_lor_lor_idem (a s x : Z) :
  Z.lor (Z.lor (Z.lor (Z.lor a s) x) s) x = Z.lor (Z.lor a s) x.
Proof.
  apply Z.bits_inj'. intros n _. rewrite !Z.lor_spec.
  destruct (Z.testbit a n), (Z.testbit s n), (Z.testbit x n); reflexivity.
Qed.

Lemma lor_nonzero_r (a x : Z) : x ≠ 0 -> Z.lor a x ≠ 0.
Proof. intros Hx Hlor. apply Z.lor_eq_0_iff in Hlor. tauto. Qed.

(** Case analysis on the tests of the code, dropping the impossible
    branches as they come. *)
Ltac prune_decide := repeat (case_decide; try congruence).

(** ** More on the surface-frame classifier *)

Section SurfaceClassifierMore.

Import SurfaceFrame.

Variables (presentTime' displayFrameJankType : Z) (refreshRate : Fps).
Variables (displayDeadlineDelta displayPresentDelta : Z).

Local Abbreviation present_with f :=
  (onPresent presentTime' displayFrameJankType refreshRate
             displayDeadlineDelta displayPresentDelta f).

(** X1.  A presented surface frame without valid predictions.  [onPresent]
    returns, whatever the refresh period is.  Without a token (state
    [None]) only the actual present time is recorded: the jank type and
    the metadata stay as they were and nothing is sent to the metrics
    collaborator.  With an expired token the frame gets the jank type
    [Unknown] and unknown metadata, and exactly one observation is sent,
    with the jank type [Unknown], the deltas of the display frame and an
    application deadline delta of -1. *)
Theorem onPresent_without_predictions (f : t) :
  mPresentState f = PresentState.Presented ->
  mPredictionState f ≠ PredictionState.Valid ->
  ∃ r out,
    present_with f = Some (r, out)
    ∧ presentTime (mActuals r) = presentTime'
    ∧ startTime (mActuals r) = startTime (mActuals f)
    ∧ endTime (mActuals r) = endTime (mActuals f)
    ∧ (mPredictionState f = PredictionState.None ->
       mJankType r = mJankType f
       ∧ mFramePresentMetadata r = mFramePresentMetadata f
       ∧ mFrameReadyMetadata r = mFrameReadyMetadata f
       ∧ out = [])
    ∧ (mPredictionState f = PredictionState.Expired ->
       mJankType r = JankType.Unknown
       ∧ mFramePresentMetadata r = UnknownPresent
       ∧ mFrameReadyMetadata r = UnknownFinish
       ∧ out = [ {| info_refreshRate := refreshRate;
                    info_renderRate := mRenderRate f;
                    info_uid := mOwnerUid f;
                    info_layerName := mLayerName f;
                    info_jankType := JankType.Unknown;
                    info_displayDeadlineDelta := displayDeadlineDelta;
                    info_displayPresentDelta := displayPresentDelta;
                    info_appDeadlineDelta := -1 |} ]).
Proof.
  intros Hstate Hnot.
  destruct (mPredictionState f) eqn:Hp; [congruence| |].
  - rewrite (onPresent_expired_eq _ _ _ _ _ f Hstate Hp).
    eexists _, _. split; [reflexivity|]. cbn.
    repeat split; intros; try discriminate; reflexivity.
  - rewrite (onPresent_none_eq _ _ _ _ _ f Hstate Hp).
    eexists _, _. split; [reflexivity|]. cbn.
    repeat split; intros; try discriminate; reflexivity.
Qed.

(** X2.  A presented surface frame with valid predictions, at a refresh
    period that is not 0, that the classifier finds [EarlyPresent] gets a
    jank type that replaces whatever it had: with [OnTimeFinish],
    [SurfaceFlingerScheduling] when |presentDelta| mod period is a factor
    of vsync and [PredictionError] otherwise; with [LateFinish],
    [Unknown].  The jank type of the display frame and the last latch
    time play no part. *)
Theorem onPresent_early_present (f : t) :
  mPresentState f = PresentState.Presented ->
  mPredictionState f = PredictionState.Valid ->
  getPeriodNsecs refreshRate ≠ 0 ->
  let period := getPeriodNsecs refreshRate in
  let threshold := presentThreshold (mJankClassificationThresholds f) in
  let deltaToVsync :=
    Z.rem (abs64 (sub64 presentTime' (presentTime (mPredictions f)))) period in
  let vsyncFactor :=
    deltaToVsync < threshold ∨ deltaToVsync >= sub64 period threshold in
  ∃ r out,
    present_with f = Some (r, out)
    ∧ (mFramePresentMetadata r = EarlyPresent ->
       let ready := mFrameReadyMetadata r in
       let jank := mJankType r in
       sub64 presentTime' (presentTime (mPredictions f)) <= 0
       ∧ (ready = OnTimeFinish ∨ ready = LateFinish)
       ∧ (ready = OnTimeFinish -> vsyncFactor ->
          jank = JankType.SurfaceFlingerScheduling)
       ∧ (ready = OnTimeFinish -> ¬ vsyncFactor ->
          jank = JankType.PredictionError)
       ∧ (ready = LateFinish -> jank = JankType.Unknown)).
Proof.
  intros Hstate Hpred Hperiod. cbv zeta.
  destruct (onPresent_valid presentTime' displayFrameJankType refreshRate
              displayDeadlineDelta displayPresentDelta f Hstate Hpred Hperiod)
    as (r & out & Hrun & Hp & Hr & Hj).
  exists r, out. split; [exact Hrun|]. intros Hearly.
  rewrite Hj, Hr. rewrite Hp in Hearly.
  assert (Hneg : sub64 presentTime' (presentTime (mPredictions f)) <= 0).
  { clear Hj Hr Hp. revert Hearly.
    repeat case_decide; intros; try discriminate; lia. }
  rewrite Hearly. clear Hj Hr Hp Hearly.
  unfold classify, isVsyncFactor.
  destruct (decide (EarlyPresent = OnTimePresent)) as [?|_]; [discriminate|].
  destruct (decide (EarlyPresent = EarlyPresent)) as [_|?]; [|congruence].
  split; [exact Hneg|].
  destruct (decide (sub64 (endTime (mActuals f)) (endTime (mPredictions f))
                    > deadlineThreshold (mJankClassificationThresholds f)));
    (split; [auto|]);
    repeat split; intros; try discriminate;
    repeat case_decide; try case_bool_decide;
    try discriminate; try reflexivity; try contradiction; try tauto.
Qed.

(** X3.  For a presented surface frame with valid predictions, at a
    refresh period that is not 0, the jank type after classification is
    [None] exactly when the frame was presented on time: every early or
    late frame carries at least one cause. *)
Theorem onPresent_janky_iff_not_on_time (f : t) :
  mPresentState f = PresentState.Presented ->
  mPredictionState f = PredictionState.Valid ->
  getPeriodNsecs refreshRate ≠ 0 ->
  ∃ r out,
    present_with f = Some (r, out)
    ∧ (mJankType r = JankType.None
       <-> mFramePresentMetadata r = OnTimePresent).
Proof.
  intros Hstate Hpred Hperiod.
  destruct (onPresent_valid presentTime' displayFrameJankType refreshRate
              displayDeadlineDelta displayPresentDelta f Hstate Hpred Hperiod)
    as (r & out & Hrun & Hp & _ & Hj).
  exists r, out. split; [exact Hrun|].
  rewrite Hj, Hp. clear Hj Hp.
  unfold classify, isVsyncFactor, JankType.None.
  prune_decide; try case_bool_decide;
    split; intros Heq; try discriminate; try reflexivity; try congruence;
    exfalso; revert Heq;
    apply lor_nonzero_r; first [assumption | discriminate].
Qed.

Lemma classify_idempotent jank present ready deltaToVsync period threshold
    lastLatchTime predictedEnd display :
  classify (classify jank present ready deltaToVsync period threshold
              lastLatchTime predictedEnd display)
           present ready deltaToVsync period threshold lastLatchTime
           predictedEnd display
  = classify jank present ready deltaToVsync period threshold lastLatchTime
             predictedEnd display.
Proof.
  unfold classify.
  prune_decide; try destruct (isVsyncFactor _ _ _); try reflexivity;
    rewrite ?lor_lor_lor_idem, ?lor_lor_idem; reflexivity.
Qed.

(** Presenting twice is presenting once. *)
Lemma onPresent_twice (f : t) :
  (present_with f ≫= λ first, present_with first.1) = present_with f.
Proof.
  destruct (decide (mPresentState f = PresentState.Presented)) as [Hp|Hn].
  - destruct (mPredictionState f) eqn:Hpred.
    + destruct (decide (getPeriodNsecs refreshRate = 0)) as [Hz|Hz].
      { by rewrite (onPresent_valid_zero _ _ _ _ _ f Hp Hpred Hz). }
      rewrite (onPresent_valid_eq _ _ _ _ _ f Hp Hpred Hz). cbv zeta.
      cbn [mbind option_bind fst].
      rewrite onPresent_valid_eq by assumption. cbv zeta.
      cbn [mPredictions mActuals mJankType mJankClassificationThresholds
           mLastLatchTime mRenderRate mOwnerUid mLayerName
           with_mActuals with_classification startTime endTime presentTime].
      rewrite classify_idempotent. reflexivity.
    + rewrite (onPresent_expired_eq _ _ _ _ _ f Hp Hpred).
      cbn [mbind option_bind fst].
      rewrite onPresent_expired_eq by assumption. reflexivity.
    + rewrite (onPresent_none_eq _ _ _ _ _ f Hp Hpred).
      cbn [mbind option_bind fst].
      rewrite onPresent_none_eq by assumption. reflexivity.
  - rewrite (onPresent_unpresented_eq _ _ _ _ _ f Hn).
    cbn [mbind option_bind fst].
    by apply onPresent_unpresented_eq.
Qed.

(** X4.  Presenting a surface frame a second time with the same arguments
    changes nothing: when the first call returns, the second call returns
    too, with the record the first call left, and the observation sent is
    the same as the first. *)
Theorem onPresent_idempotent (f r : t) (out : list JankyFramesInfo) :
  present_with f = Some (r, out) -> present_with r = Some (r, out).
Proof.
  intros Hfirst. pose proof (onPresent_twice f) as Htwice.
  by rewrite Hfirst in Htwice.
Qed.

End SurfaceClassifierMore.

Lemma onPresent_without_predictions_witness :
  ∃ r,
    SurfaceFrame.onPresent 16000000 JankType.None fps60 5 7
      surface_expired_presented
    = Some (r, [ {| info_refreshRate := fps60;
                    info_renderRate := None;
                    info_uid := 10001;
                    info_layerName := "layer";
                    info_jankType := JankType.Unknown;
                    info_displayDeadlineDelta := 5;
                    info_displayPresentDelta := 7;
                    info_appDeadlineDelta := -1 |} ]).
Proof.
  destruct (onPresent_without_predictions 16000000 JankType.None fps60 5 7
              surface_expired_presented eq_refl ltac:(discriminate))
    as (r & out & Hrun & _ & _ & _ & _ & Hexpired).
  destruct (Hexpired eq_refl) as (_ & _ & _ & Hout).
  exists r. rewrite Hrun, Hout. reflexivity.
Defined.

Lemma onPresent_early_present_witness :
  ∃ r out,
    SurfaceFrame.onPresent 6000000 JankType.None fps60 0 0 surface_presented
    = Some (r, out)
    ∧ SurfaceFrame.mJankType r = JankType.PredictionError.
Proof.
  destruct (onPresent_early_present 6000000 JankType.None fps60 0 0
              surface_presented eq_refl eq_refl ltac:(discriminate))
    as (r & out & Hrun & Hearly).
  exists r, out. split; [exact Hrun|].
  vm_compute in Hrun. injection Hrun as <- _.
  cbv zeta in Hearly. destruct (Hearly eq_refl) as (_ & _ & _ & Herr & _).
  apply Herr; [reflexivity|].
  vm_compute. intros [Hlt | Hge]; [discriminate Hlt | apply Hge; reflexivity].
Defined.

Lemma onPresent_janky_iff_not_on_time_witness :
  ∃ r out,
    SurfaceFrame.onPresent 16000000 JankType.DisplayHAL fps60 0 0
      surface_presented = Some (r, out)
    ∧ SurfaceFrame.mJankType r = JankType.None.
Proof.
  destruct (onPresent_janky_iff_not_on_time 16000000 JankType.DisplayHAL fps60
              0 0 surface_presented eq_refl eq_refl ltac:(discriminate))
    as (r & out & Hrun & Hiff).
  exists r, out. split; [exact Hrun|]. apply Hiff.
  vm_compute in Hrun. injection Hrun as <- _. reflexivity.
Defined.

Lemma onPresent_idempotent_witness :
  ∃ r out,
    SurfaceFrame.onPresent 26000000 JankType.DisplayHAL fps60 0 10000000
      surface_presented = Some (r, out)
    ∧ SurfaceFrame.mJankType r = JankType.DisplayHAL
    ∧ SurfaceFrame.onPresent 26000000 JankType.DisplayHAL fps60 0 10000000 r
      = Some (r, out).
Proof.
  destruct (SurfaceFrame.onPresent 26000000 JankType.DisplayHAL fps60 0
              10000000 surface_presented) as [[r out]|] eqn:Hfirst.
  - exists r, out. split; [reflexivity|]. split.
    + vm_compute in Hfirst. injection Hfirst as <- _. reflexivity.
    + exact (onPresent_idempotent _ _ _ _ _ _ _ _ Hfirst).
  - vm_compute in Hfirst. discriminate Hfirst.
Defined.

(** ** More on the display-frame classifier *)

(** X5.  A display frame that had no jank type and whose refresh period is
    not 0 gets a jank type exactly when it is not presented on time, and
    then it is a single cause, one of [SurfaceFlingerScheduling],
    [PredictionError], [DisplayHAL] and [SurfaceFlingerCpuDeadlineMissed]:
    the display classifier never gives [Unknown], a GPU deadline miss, an
    application deadline miss or buffer stuffing. *)
Theorem DisplayFrame_onPresent_verdict (f : DisplayFrame.t) (signalTime : Z) :
  getPeriodNsecs (DisplayFrame.mRefreshRate f) ≠ 0 ->
  DisplayFrame.mJankType f = JankType.None ->
  ∃ r outs,
    DisplayFrame.onPresent signalTime f = Some (r, outs)
    ∧ (DisplayFrame.mJankType r = JankType.None
       <-> DisplayFrame.mFramePresentMetadata r = OnTimePresent)
    ∧ (DisplayFrame.mJankType r = JankType.None
       ∨ DisplayFrame.mJankType r = JankType.SurfaceFlingerScheduling
       ∨ DisplayFrame.mJankType r = JankType.PredictionError
       ∨ DisplayFrame.mJankType r = JankType.DisplayHAL
       ∨ DisplayFrame.mJankType r = JankType.SurfaceFlingerCpuDeadlineMissed).
Proof.
  intros Hperiod Hnone.
  destruct (DisplayFrame_onPresent_fields f signalTime Hperiod)
    as (r & outs & Hrun & Hp & Hr & Hj & _).
  exists r, outs. split; [exact Hrun|].
  rewrite Hj, Hp, Hnone. clear Hj Hp Hr.
  unfold DisplayFrame.classify.
  prune_decide; try destruct (isVsyncFactor _ _ _); split;
    try (split; intros; first [discriminate | congruence | reflexivity]);
    tauto.
Qed.

Lemma DisplayFrame_onPresent_verdict_witness :
  ∃ r outs,
    DisplayFrame.onPresent 20000000 display_early_late = Some (r, outs)
    ∧ DisplayFrame.mJankType r = JankType.SurfaceFlingerScheduling.
Proof.
  destruct (DisplayFrame_onPresent_verdict display_early_late 20000000
              ltac:(discriminate) eq_refl)
    as (r & outs & Hrun & _ & Hcases).
  exists r, outs. split; [exact Hrun|].
  vm_compute in Hrun. injection Hrun as <- _.
  vm_compute in Hcases.
  destruct Hcases as [H|[H|[H|[H|H]]]]; try discriminate H.
  vm_compute. reflexivity.
Defined.

(** What one surface frame makes of a call of its [onPresent] that
    returns. *)
Lemma SurfaceFrame_onPresent_child signalTime jank refreshRate deadlineDelta
    deltaToVsync (sf sf' : SurfaceFrame.t) out :
  SurfaceFrame.onPresent signalTime jank refreshRate deadlineDelta deltaToVsync
    sf = Some (sf', out) ->
  SurfaceFrame.mToken sf' = SurfaceFrame.mToken sf
  ∧ SurfaceFrame.mPresentState sf' = SurfaceFrame.mPresentState sf
  ∧ (SurfaceFrame.mPresentState sf ≠ PresentState.Presented -> sf' = sf)
  ∧ (SurfaceFrame.mPresentState sf = PresentState.Presented ->
     presentTime (SurfaceFrame.mActuals sf') = signalTime)
  ∧ length out = (if decide (reportsJank sf) then 1 else 0)%nat
  ∧ Forall (λ info, info_refreshRate info = refreshRate) out.
Proof.
  intros Hrun.
  destruct (decide (SurfaceFrame.mPresentState sf = PresentState.Presented))
    as [Hp|Hn].
  - destruct (SurfaceFrame.mPredictionState sf) eqn:Hpred.
    + destruct (decide (getPeriodNsecs refreshRate = 0)) as [Hz|Hz].
      { rewrite onPresent_valid_zero in Hrun by assumption. discriminate. }
      rewrite onPresent_valid_eq in Hrun by assumption. cbv zeta in Hrun.
      injection Hrun as <- <-.
      rewrite (decide_True (P := reportsJank sf))
        by (unfold reportsJank; split; congruence).
      repeat split; try reflexivity; try congruence.
      by repeat constructor.
    + rewrite onPresent_expired_eq in Hrun by assumption.
      injection Hrun as <- <-.
      rewrite (decide_True (P := reportsJank sf))
        by (unfold reportsJank; split; congruence).
      repeat split; try reflexivity; try congruence.
      by repeat constructor.
    + rewrite onPresent_none_eq in Hrun by assumption.
      injection Hrun as <- <-.
      rewrite (decide_False (P := reportsJank sf))
        by (unfold reportsJank; intros [_ ?]; congruence).
      repeat split; try reflexivity; try congruence. constructor.
  - rewrite onPresent_unpresented_eq in Hrun by assumption.
    injection Hrun as <- <-.
    rewrite (decide_False (P := reportsJank sf))
      by (unfold reportsJank; intros [? _]; congruence).
    repeat split; try reflexivity; try congruence. constructor.
Qed.

(** X6.  When a display frame whose refresh period is not 0 is presented,
    its verdict goes to every surface frame it holds, in their order:
    each surface frame becomes what its own [onPresent] returns for the
    signal time, the jank type the display frame has just been given, the
    refresh rate of the display frame, the display frame's deadline delta
    and |presentDelta| mod period; and the observations sent are those of
    the surface frames, one after the other.  So the frames stay as many;
    a surface frame that is not [Presented] is left as it was; a presented
    one gets the signal time as its actual present time; and the metrics
    collaborator receives exactly one observation for every presented
    surface frame that has a token, each with the refresh rate of the
    display frame. *)
Theorem DisplayFrame_onPresent_children (f : DisplayFrame.t) (signalTime : Z) :
  getPeriodNsecs (DisplayFrame.mRefreshRate f) ≠ 0 ->
  let predictions := DisplayFrame.mSurfaceFlingerPredictions f in
  let actuals := DisplayFrame.mSurfaceFlingerActuals f in
  let deadlineDelta := sub64 (endTime actuals) (endTime predictions) in
  let deltaToVsync :=
    Z.rem (abs64 (sub64 signalTime (presentTime predictions)))
          (getPeriodNsecs (DisplayFrame.mRefreshRate f)) in
  ∃ r outs children,
    DisplayFrame.onPresent signalTime f = Some (r, outs)
    ∧ DisplayFrame.mSurfaceFrames r = children.*1
    ∧ outs = concat children.*2
    ∧ length children = length (DisplayFrame.mSurfaceFrames f)
    ∧ (∀ (i : nat) sf, DisplayFrame.mSurfaceFrames f !! i = Some sf ->
         ∃ sf' out, children !! i = Some (sf', out)
           ∧ SurfaceFrame.onPresent signalTime (DisplayFrame.mJankType r)
               (DisplayFrame.mRefreshRate f) deadlineDelta deltaToVsync sf
             = Some (sf', out)
           ∧ SurfaceFrame.mToken sf' = SurfaceFrame.mToken sf
           ∧ SurfaceFrame.mPresentState sf' = SurfaceFrame.mPresentState sf
           ∧ (SurfaceFrame.mPresentState sf ≠ PresentState.Presented -> sf' = sf)
           ∧ (SurfaceFrame.mPresentState sf = PresentState.Presented ->
              presentTime (SurfaceFrame.mActuals sf') = signalTime))
    ∧ length outs
      = length (filter reportsJank (DisplayFrame.mSurfaceFrames f))
    ∧ Forall (λ info, info_refreshRate info = DisplayFrame.mRefreshRate f) outs.
Proof.
  intros Hperiod. cbv zeta.
  destruct (DisplayFrame_onPresent_eq f signalTime Hperiod)
    as (children & Hchildren & Heq).
  cbv zeta in Heq, Hchildren.
  eexists _, _, children. split; [exact Heq|].
  cbn [DisplayFrame.mSurfaceFrames DisplayFrame.mJankType].
  apply mapM_Some_1 in Hchildren.
  split; [reflexivity|]. split; [reflexivity|].
  clear Heq. revert Hchildren.
  generalize (DisplayFrame.mSurfaceFrames f). intros frames Hchildren.
  split; [symmetry; eapply Forall2_length; exact Hchildren|].
  split; [|split].
  - intros i sf Hi.
    destruct (Forall2_lookup_l _ _ _ _ _ Hchildren Hi) as ([sf' out] & Hc & Hrun).
    exists sf', out. split; [exact Hc|]. split; [exact Hrun|].
    destruct (SurfaceFrame_onPresent_child _ _ _ _ _ _ _ _ Hrun)
      as (? & ? & ? & ? & _). auto.
  - induction Hchildren as [|sf [sf' out] frames' children' Hrun _ IH];
      [reflexivity|].
    rewrite !fmap_cons. cbn [concat snd]. rewrite length_app, IH, filter_cons.
    destruct (SurfaceFrame_onPresent_child _ _ _ _ _ _ _ _ Hrun)
      as (_ & _ & _ & _ & -> & _).
    destruct (decide (reportsJank sf)); reflexivity.
  - induction Hchildren as [|sf [sf' out] frames' children' Hrun _ IH];
      [constructor|].
    rewrite !fmap_cons. cbn [concat snd]. apply Forall_app. split; [|exact IH].
    by destruct (SurfaceFrame_onPresent_child _ _ _ _ _ _ _ _ Hrun)
      as (_ & _ & _ & _ & _ & ?).
Qed.

Lemma DisplayFrame_onPresent_children_witness :
  ∃ r outs,
    DisplayFrame.onPresent 16000000 display_with_children = Some (r, outs)
    ∧ length (DisplayFrame.mSurfaceFrames r) = 3%nat
    ∧ length outs = 2%nat.
Proof.
  destruct (DisplayFrame_onPresent_children display_with_children 16000000
              ltac:(discriminate))
    as (r & outs & children & Hrun & Hframes & _ & Hlen & _ & Houts & _).
  exists r, outs. split; [exact Hrun|].
  rewrite Hframes, length_fmap, Hlen, Houts. split; reflexivity.
Defined.
(** ** The state of the frame timeline *)

Lemma StronglySorted_lt_NoDup (l : list nat) : StronglySorted lt l -> NoDup l.
Proof.
  induction l as [|x l IH]; intros Hs; [constructor|].
  apply StronglySorted_cons in Hs as [Hall Hs].
  constructor; [|by apply IH].
  intros Hin. rewrite Forall_forall in Hall. specialize (Hall x Hin). lia.
Qed.

Lemma StronglySorted_snoc_lt (l : list nat) (x : nat) :
  StronglySorted lt l -> Forall (λ d, (d < x)%nat) l ->
  StronglySorted lt (l ++ [x]).
Proof.
  intros Hs Hall. apply StronglySorted_app. split; [|split].
  - intros a b Ha Hb. apply list_elem_of_singleton in Hb as ->.
    rewrite Forall_forall in Hall. by apply Hall.
  - exact Hs.
  - repeat constructor.
Qed.

Lemma StronglySorted_filter_snd {A} (P : A * nat -> Prop)
    `{!∀ x, Decision (P x)} (q : list (A * nat)) :
  StronglySorted lt q.*2 -> StronglySorted lt (filter P q).*2.
Proof.
  induction q as [|e q IH]; intros Hs; [constructor|].
  rewrite fmap_cons in Hs. apply StronglySorted_cons in Hs as [Hall Hs].
  rewrite filter_cons. destruct (decide (P e)); [|by apply IH].
  rewrite fmap_cons. apply StronglySorted_cons. split; [|by apply IH].
  rewrite Forall_forall in *. intros d Hd. apply Hall.
  apply list_elem_of_fmap in Hd as (e' & -> & He').
  apply list_elem_of_filter in He' as [_ He'].
  apply list_elem_of_fmap. by exists e'.
Qed.

Lemma elem_of_filter_snd {A} (P : A * nat -> Prop)
    `{!∀ x, Decision (P x)} (q : list (A * nat)) (d : nat) :
  d ∈ (filter P q).*2 -> d ∈ q.*2.
Proof.
  intros Hd. apply list_elem_of_fmap in Hd as (e & -> & He).
  apply list_elem_of_filter in He as [_ He].
  apply list_elem_of_fmap. by exists e.
Qed.

(** Two entries of a queue in which no frame occurs twice, for the same
    frame, are one entry. *)
Lemma NoDup_snd_functional {A} (q : list (A * nat)) (a b : A) (d : nat) :
  NoDup q.*2 -> (a, d) ∈ q -> (b, d) ∈ q -> a = b.
Proof.
  induction q as [|[c d'] q IH]; intros Hnd Ha Hb; [inversion Ha|].
  rewrite fmap_cons in Hnd. apply NoDup_cons in Hnd as [Hnot Hnd].
  cbn [snd] in Hnot.
  apply elem_of_cons in Ha as [Ha|Ha]; apply elem_of_cons in Hb as [Hb|Hb].
  - congruence.
  - exfalso. apply Hnot. apply list_elem_of_fmap. exists (b, d).
    split; [cbn; congruence | exact Hb].
  - exfalso. apply Hnot. apply list_elem_of_fmap. exists (a, d).
    split; [cbn; congruence | exact Ha].
  - by apply IH.
Qed.

Section TimelineState.
Context `{Header}.

Import FrameTimeline.

Lemma popOlderFrames_suffix (m : N) (l l' : list nat) :
  popOlderFrames m l = Some l' ->
  l' `suffix_of` l ∧ (N.of_nat (length l') < m)%N.
Proof.
  induction l as [|x l IH]; intros Hpop; cbn [popOlderFrames] in Hpop.
  - case_decide; [discriminate|]. injection Hpop as <-. split; [done|lia].
  - case_decide as Hfull.
    + destruct (IH Hpop) as [Hsuffix Hlen]. split; [|exact Hlen].
      by apply suffix_cons_r.
    + injection Hpop as <-. split; [done|lia].
Qed.

Lemma make_timeline_inv pid thresholds : timeline_inv (make pid thresholds).
Proof.
  unfold timeline_inv. cbn. repeat split; try constructor. lia.
Qed.

(** The entries of the queue [setSfPresent] flushes point into the
    heap. *)
Lemma setSfPresent_queue_valid time fence (ft : t) :
  timeline_inv ft ->
  Forall (λ e : option nat * nat,
            (e.2 < length (alter (DisplayFrame.setActualEndTime time)
                             (mCurrentDisplayFrame ft) (heap ft)))%nat)
         (mPendingPresentFences ft ++ [(fence, mCurrentDisplayFrame ft)]).
Proof.
  intros (Hcur & Hq & _).
  rewrite length_alter, <- Hcur. apply Forall_app. split.
  - apply Forall_fmap in Hq. eapply Forall_impl; [exact Hq|].
    cbn. intros; lia.
  - repeat constructor; cbn; lia.
Qed.

Lemma call_timeline_inv (c : Call) (ft ft' : t) outs :
  timeline_inv ft -> call c ft = Some (ft', outs) -> timeline_inv ft'.
Proof.
  intros Hinv Hcall.
  pose proof Hinv as (Hcur & Hq & Hh & Hqs & Hhs & Hlen).
  destruct c as [now1 now2 p|sf|token wake rate|time fence fences|size|];
    cbn [call] in Hcall;
    try (injection Hcall as <- <-; unfold timeline_inv; cbn;
         rewrite ?length_alter; repeat split;
         first [assumption | constructor | lia]).
  apply setSfPresent_Some in Hcall as (rest & h1 & frames & Hloop & Hpop & ->).
  apply flushPendingPresentFences_loop_spec in Hloop as (Hrest & Hlen1 & _).
  rewrite length_alter in Hlen1.
  apply popOlderFrames_suffix in Hpop as [[older Holder] Hshort].
  unfold timeline_inv. cbn.
  rewrite length_app, Hlen1. cbn.
  assert (Hq1 : StronglySorted lt
                  (mPendingPresentFences ft ++ [(fence, mCurrentDisplayFrame ft)]).*2).
  { rewrite fmap_app. by apply StronglySorted_snoc_lt. }
  rewrite Holder in Hh, Hhs. apply Forall_app in Hh as [_ Hh].
  apply StronglySorted_app_1_r in Hhs.
  repeat split.
  - lia.
  - rewrite Hrest, <- Hcur, Forall_forall. intros d Hd.
    apply elem_of_filter_snd in Hd. rewrite fmap_app in Hd.
    apply elem_of_app in Hd as [Hd|Hd].
    + rewrite Forall_forall in Hq. specialize (Hq d Hd). lia.
    + apply list_elem_of_singleton in Hd. cbn in Hd. lia.
  - rewrite <- Hcur. apply Forall_app. split.
    + eapply Forall_impl; [exact Hh|]. cbn. intros; lia.
    + repeat constructor; lia.
  - rewrite Hrest. by apply StronglySorted_filter_snd.
  - apply StronglySorted_snoc_lt; [exact Hhs|].
    eapply Forall_impl; [exact Hh|]. cbn. intros; lia.
  - rewrite length_app. cbn. lia.
Qed.

Lemma run_timeline_inv (calls : list Call) : ∀ (ft ft' : t) outs,
  timeline_inv ft -> run calls ft = Some (ft', outs) -> timeline_inv ft'.
Proof.
  induction calls as [|c calls IH]; intros ft ft' outs Hinv Hrun.
  - cbn in Hrun. by injection Hrun as <- <-.
  - apply run_cons_Some in Hrun as (ft1 & out & outs2 & Hcall & Hrun2 & _).
    eapply IH; [|exact Hrun2]. by eapply call_timeline_inv.
Qed.


(** X7.  In every state that a run of calls reaches from the constructor:
    the current display frame is the newest frame of the heap; the queue
    and the history point only to frames that exist and are older than the
    current one, so the current frame is in neither; both hold their
    frames in the order in which the frames were made, none twice; and the
    history is no longer than the maximum. *)
Theorem FrameTimeline_invariant (calls : list Call) pid thresholds (ft : t) outs :
  run calls (make pid thresholds) = Some (ft, outs) ->
  S (mCurrentDisplayFrame ft) = length (heap ft)
  ∧ (∀ d, d ∈ (mPendingPresentFences ft).*2 ∨ d ∈ mDisplayFrames ft ->
       (d < mCurrentDisplayFrame ft)%nat ∧ is_Some (heap ft !! d))
  ∧ StronglySorted lt (mPendingPresentFences ft).*2
  ∧ StronglySorted lt (mDisplayFrames ft)
  ∧ NoDup (mPendingPresentFences ft).*2
  ∧ NoDup (mDisplayFrames ft)
  ∧ (N.of_nat (length (mDisplayFrames ft)) <= mMaxDisplayFrames ft)%N.
Proof.
  intros Hrun.
  destruct (run_timeline_inv calls _ _ _ (make_timeline_inv pid thresholds) Hrun)
    as (Hcur & Hq & Hh & Hqs & Hhs & Hlen).
  rewrite Forall_forall in Hq, Hh.
  repeat split; try assumption; try by apply StronglySorted_lt_NoDup.
  - destruct H0 as [Hd|Hd]; auto.
  - apply lookup_lt_is_Some_2. rewrite <- Hcur.
    destruct H0 as [Hd|Hd];
      [specialize (Hq d Hd) | specialize (Hh d Hd)]; lia.
Qed.

End TimelineState.

Lemma FrameTimeline_invariant_witness :
  NoDup (FrameTimeline.mDisplayFrames after_two_presents)
  ∧ (N.of_nat (length (FrameTimeline.mDisplayFrames after_two_presents))
     <= FrameTimeline.mMaxDisplayFrames after_two_presents)%N.
Proof.
  destruct (@FrameTimeline_invariant platform_header two_presents 1
              thresholds_2ms after_two_presents []
              ltac:(vm_compute; reflexivity))
    as (_ & _ & _ & _ & _ & Hnodup & Hlen).
  auto.
Defined.

Section TimelineRuns.
Context `{Header}.

Import FrameTimeline.

(** One call: what it traces, and where the queue and the current frame
    go. *)
Lemma call_traced (c : Call) (ft ft' : t) outs :
  timeline_inv ft -> call c ft = Some (ft', outs) ->
  NoDup (traced outs)
  ∧ (∀ d, d ∈ traced outs ->
       (d <= mCurrentDisplayFrame ft)%nat
       ∧ (d ∈ (mPendingPresentFences ft).*2 ∨ d = mCurrentDisplayFrame ft)
       ∧ (d ∉ (mPendingPresentFences ft').*2))
  ∧ (∀ d, d ∈ (mPendingPresentFences ft').*2 ->
       d ∈ (mPendingPresentFences ft).*2 ∨ d = mCurrentDisplayFrame ft)
  ∧ (mCurrentDisplayFrame ft <= mCurrentDisplayFrame ft')%nat
  ∧ (match c with
     | SetSfPresent _ _ _ => mCurrentDisplayFrame ft' = S (mCurrentDisplayFrame ft)
     | _ => outs = []
     end).
Proof.
  intros Hinv Hcall.
  pose proof Hinv as (Hcur & Hq & Hh & Hqs & Hhs & Hlen).
  assert (Hother :
    outs = [] ->
    (mPendingPresentFences ft' = mPendingPresentFences ft
     ∨ mPendingPresentFences ft' = []) ->
    mCurrentDisplayFrame ft' = mCurrentDisplayFrame ft ->
    NoDup (traced outs)
    ∧ (∀ d, d ∈ traced outs ->
         (d <= mCurrentDisplayFrame ft)%nat
         ∧ (d ∈ (mPendingPresentFences ft).*2 ∨ d = mCurrentDisplayFrame ft)
         ∧ (d ∉ (mPendingPresentFences ft').*2))
    ∧ (∀ d, d ∈ (mPendingPresentFences ft').*2 ->
         d ∈ (mPendingPresentFences ft).*2 ∨ d = mCurrentDisplayFrame ft)
    ∧ (mCurrentDisplayFrame ft <= mCurrentDisplayFrame ft')%nat).
  { intros -> Hqueue ->. split; [constructor|]. split; [|split; [|lia]].
    - intros d Hd. inversion Hd.
    - intros d Hd. destruct Hqueue as [Hsame|Hnil].
      + left. by rewrite <- Hsame.
      + rewrite Hnil in Hd. inversion Hd. }
  destruct c as [now1 now2 p|sf|token wake rate|time fence fences|size|];
    cbn [call] in Hcall.
  1-3,5-6: injection Hcall as <- <-;
    (destruct Hother as (? & ? & ? & ?);
     [reflexivity | cbn; auto | reflexivity
     | refine (conj _ (conj _ (conj _ (conj _ _))));
       first [assumption | reflexivity]]).
  clear Hother.
  apply setSfPresent_Some in Hcall as (rest & h1 & frames & Hloop & Hpop & ->).
  apply flushPendingPresentFences_loop_spec in Hloop
    as (Hrest & Hlen1 & _ & Htraced & _).
  specialize (Htraced (setSfPresent_queue_valid time fence ft Hinv)).
  rewrite length_alter in Hlen1. cbn.
  assert (Hq1 : StronglySorted lt
                  (mPendingPresentFences ft ++ [(fence, mCurrentDisplayFrame ft)]).*2).
  { rewrite fmap_app. by apply StronglySorted_snoc_lt. }
  assert (Hin1 : ∀ d,
            d ∈ (mPendingPresentFences ft ++ [(fence, mCurrentDisplayFrame ft)]).*2 ->
            d ∈ (mPendingPresentFences ft).*2 ∨ d = mCurrentDisplayFrame ft).
  { intros d Hd. rewrite fmap_app in Hd. apply elem_of_app in Hd as [Hd|Hd];
      [by left|]. right. by apply list_elem_of_singleton in Hd. }
  rewrite Htraced, Hrest.
  split; [|split; [|split; [|split; [lia | lia]]]].
  - apply StronglySorted_lt_NoDup. by apply StronglySorted_filter_snd.
  - intros d Hd. split; [|split].
    { apply elem_of_filter_snd, Hin1 in Hd as [Hd| ->]; [|lia].
      rewrite Forall_forall in Hq. specialize (Hq d Hd). lia. }
    { by apply elem_of_filter_snd, Hin1 in Hd. }
    intros Hpending.
    apply list_elem_of_fmap in Hd as ([f1 d1] & -> & He1).
    apply list_elem_of_fmap in Hpending as ([f2 d2] & Heq & He2).
    cbn [snd] in Heq. subst d2.
    apply list_elem_of_filter in He1 as [Hres He1].
    apply list_elem_of_filter in He2 as [Hpen He2].
    assert (f1 = f2) as <-
      by (eapply NoDup_snd_functional;
          [apply StronglySorted_lt_NoDup; exact Hq1 | exact He1 | exact He2]).
    unfold resolved, stillPending in Hres, Hpen. cbn [fst] in Hres, Hpen.
    destruct f1; tauto.
  - intros d Hd. by apply elem_of_filter_snd, Hin1 in Hd.
Qed.

Lemma run_traced (calls : list Call) : ∀ (ft ft' : t) outs,
  timeline_inv ft -> run calls ft = Some (ft', outs) ->
  NoDup (traced outs)
  ∧ (∀ d, d ∈ traced outs ->
       d ∈ (mPendingPresentFences ft).*2 ∨ (mCurrentDisplayFrame ft <= d)%nat).
Proof.
  induction calls as [|c calls IH]; intros ft ft' outs Hinv Hrun.
  - cbn in Hrun. injection Hrun as <- <-.
    split; [constructor|]. intros d Hd. inversion Hd.
  - apply run_cons_Some in Hrun as (ft1 & out & outs2 & Hcall & Hrun2 & ->).
    destruct (call_traced c ft ft1 out Hinv Hcall)
      as (Hnd1 & Hout1 & Hqueue & Hmono & _).
    destruct (IH ft1 ft' outs2 (call_timeline_inv c ft ft1 out Hinv Hcall) Hrun2)
      as (Hnd2 & Hout2).
    rewrite traced_app. split.
    + apply NoDup_app. split; [exact Hnd1|]. split; [|exact Hnd2].
      intros d Hd1 Hd2. destruct (Hout1 d Hd1) as (Hle & _ & Hgone).
      destruct (Hout2 d Hd2) as [Hq2|Hge]; [by apply Hgone|].
      destruct (call_traced c ft ft1 out Hinv Hcall) as (_ & _ & _ & _ & Hc).
      destruct c; try (rewrite Hc in Hd1; inversion Hd1; fail). lia.
    + intros d Hd. apply elem_of_app in Hd as [Hd|Hd].
      * destruct (Hout1 d Hd) as (_ & [?| ->] & _); [by left | right; lia].
      * destruct (Hout2 d Hd) as [Hq2|Hge]; [|right; lia].
        destruct (Hqueue d Hq2) as [?| ->]; [by left | right; lia].
Qed.


(** X8.  In any run of calls from the constructor, every display frame is
    presented (classified and traced) at most once. *)
Theorem display_frames_presented_at_most_once
    (calls : list Call) pid thresholds (ft : t) outs :
  run calls (make pid thresholds) = Some (ft, outs) ->
  NoDup (traced outs).
Proof.
  intros Hrun.
  by destruct (run_traced calls _ _ _ (make_timeline_inv pid thresholds) Hrun).
Qed.

(** X9.  A flush that is repeated with the same answers of the fences does
    nothing: after a flush that returned, a second one returns too, the
    queue, the frames and the history stay as the first flush left them,
    and nothing is presented or traced. *)
Theorem flushPendingPresentFences_idempotent (fences : nat -> FenceTime)
    (ft ft' : t) outs :
  flushPendingPresentFences fences ft = Some (ft', outs) ->
  flushPendingPresentFences fences ft' = Some (ft', []).
Proof.
  unfold flushPendingPresentFences. intros Hflush.
  destruct (flushPendingPresentFences_loop fences (mPendingPresentFences ft)
              (heap ft)) as [[[rest h] outs1]|] eqn:Hloop; [|discriminate].
  injection Hflush as <- <-.
  apply flushPendingPresentFences_loop_spec in Hloop as (Hrest & _).
  cbn [mPendingPresentFences heap with_mPendingPresentFences with_heap].
  rewrite flushPendingPresentFences_loop_all_pending; [reflexivity|].
  rewrite Hrest, Forall_forall. intros e He.
  by apply list_elem_of_filter in He as [? _].
Qed.

End TimelineRuns.

Lemma display_frames_presented_at_most_once_witness :
  ∃ ft outs,
    @FrameTimeline.run platform_header three_woken_presents
      (@FrameTimeline.make platform_header 1 thresholds_2ms) = Some (ft, outs)
    ∧ traced outs = [1; 2]%nat
    ∧ NoDup (traced outs).
Proof.
  destruct (@FrameTimeline.run platform_header three_woken_presents
              (@FrameTimeline.make platform_header 1 thresholds_2ms))
    as [[ft outs]|] eqn:Hrun.
  - exists ft, outs. split; [reflexivity|]. split.
    + vm_compute in Hrun. injection Hrun as _ <-. vm_compute. reflexivity.
    + exact (@display_frames_presented_at_most_once platform_header _ _ _ _ _
               Hrun).
  - vm_compute in Hrun. discriminate Hrun.
Defined.

Lemma flushPendingPresentFences_idempotent_witness :
  ∃ ft' outs,
    @FrameTimeline.flushPendingPresentFences platform_header
      fences_second_signalled after_two_woken_presents = Some (ft', outs)
    ∧ traced outs = [1%nat]
    ∧ @FrameTimeline.flushPendingPresentFences platform_header
        fences_second_signalled ft' = Some (ft', []).
Proof.
  destruct (@FrameTimeline.flushPendingPresentFences platform_header
              fences_second_signalled after_two_woken_presents)
    as [[ft' outs]|] eqn:Hflush.
  - exists ft', outs. split; [reflexivity|]. split.
    + vm_compute in Hflush. injection Hflush as _ <-. vm_compute. reflexivity.
    + exact (@flushPendingPresentFences_idempotent platform_header _ _ _ _
               Hflush).
  - vm_compute in Hflush. discriminate Hflush.
Defined.

Section TimelineFrames.
Context `{Header}.

Import FrameTimeline.

(** X10.  What a flush does to the frames, for a queue in which no frame
    occurs twice and in which the frame of every entry whose fence has a
    signal time has been woken up with a refresh period that is not 0.
    The flush returns; the frame of an entry whose fence has a signal time
    becomes the frame [onPresent] makes of it at that time; the frame of
    every other entry, and every frame the queue does not point to, is
    left as it was. *)
Theorem flushPendingPresentFences_frames (fences : nat -> FenceTime) (ft : t) :
  NoDup (mPendingPresentFences ft).*2 ->
  Forall (λ e, resolved fences e -> woken (heap ft) e.2)
         (mPendingPresentFences ft) ->
  ∃ ft' outs,
    flushPendingPresentFences fences ft = Some (ft', outs)
    ∧ (∀ fence (d : nat) f,
         (fence, d) ∈ mPendingPresentFences ft -> heap ft !! d = Some f ->
         (resolved fences (fence, d) ->
          ∃ f' o,
            DisplayFrame.onPresent (signalOf fences fence) f = Some (f', o)
            ∧ heap ft' !! d = Some f')
         ∧ (¬ resolved fences (fence, d) -> heap ft' !! d = Some f))
    ∧ (∀ d : nat, d ∉ (mPendingPresentFences ft).*2 ->
         heap ft' !! d = heap ft !! d).
Proof.
  intros Hnd Hwoken. unfold flushPendingPresentFences.
  destruct (flushPendingPresentFences_loop_returns fences _ (heap ft) Hwoken)
    as [[[rest h'] outs] Hloop].
  rewrite Hloop. eexists _, _. split; [reflexivity|].
  cbn [heap with_heap with_mPendingPresentFences]. split.
  - intros fence d f Hin Hf.
    exact (flushPendingPresentFences_loop_heap fences _ _ _ _ _ Hnd Hloop
             fence d f Hin Hf).
  - intros d Hd.
    by destruct (flushPendingPresentFences_loop_other fences d _ _ _ _ _ Hd
                   Hloop) as (Hsame & _).
Qed.

Lemma call_settled (c : Call) (d : nat) (ft ft' : t) outs :
  timeline_inv ft -> settled d ft -> call c ft = Some (ft', outs) ->
  settled d ft' ∧ heap ft' !! d = heap ft !! d ∧ (d ∉ traced outs).
Proof.
  intros (Hcur & _) [Hlt Hq] Hcall.
  destruct c as [now1 now2 p|sf|token wake rate|time fence fences|size|];
    cbn [call] in Hcall.
  1-3,5-6: injection Hcall as <- <-; unfold settled; cbn;
    rewrite ?list_lookup_alter_ne by lia;
    (split; [split; [lia | first [assumption | apply not_elem_of_nil]]|]);
    (split; [reflexivity | apply not_elem_of_nil]).
  apply setSfPresent_Some in Hcall as (rest & h1 & frames & Hloop & Hpop & ->).
  assert (Hd : d ∉ (mPendingPresentFences ft
                    ++ [(fence, mCurrentDisplayFrame ft)]).*2)
    by (rewrite fmap_app, not_elem_of_app; split; [exact Hq|];
        cbn; rewrite not_elem_of_cons; split; [lia | apply not_elem_of_nil]).
  destruct (flushPendingPresentFences_loop_other fences d _ _ _ _ _ Hd Hloop)
    as (Hh1 & Ht1 & Hq1).
  apply flushPendingPresentFences_loop_spec in Hloop as (_ & Hl1 & _).
  rewrite list_lookup_alter_ne in Hh1 by lia. rewrite length_alter in Hl1.
  unfold settled. cbn.
  rewrite Hl1, lookup_app_l by lia.
  split; [split; [lia | exact Hq1]|]. by split.
Qed.

Lemma run_settled (calls : list Call) : ∀ (d : nat) (ft ft' : t) outs,
  timeline_inv ft -> settled d ft -> run calls ft = Some (ft', outs) ->
  settled d ft' ∧ heap ft' !! d = heap ft !! d ∧ (d ∉ traced outs).
Proof.
  induction calls as [|c calls IH]; intros d ft ft' outs Hinv Hs Hrun.
  - cbn in Hrun. injection Hrun as <- <-.
    split; [exact Hs|]. split; [reflexivity | apply not_elem_of_nil].
  - apply run_cons_Some in Hrun as (ft1 & out & outs2 & Hcall & Hrun2 & ->).
    destruct (call_settled c d ft ft1 out Hinv Hs Hcall) as (Hs1 & Hh1 & Ht1).
    destruct (IH d ft1 ft' outs2 (call_timeline_inv c ft ft1 out Hinv Hcall)
                Hs1 Hrun2) as (Hs2 & Hh2 & Ht2).
    split; [exact Hs2|]. split; [congruence|].
    rewrite traced_app, not_elem_of_app. auto.
Qed.


(** X11.  A display frame that has been finalized and is not waiting in
    the queue, because its fence had signalled, was missing or was
    invalid, is settled for good: no later call changes it, presents it,
    traces it or queues it again, whether or not it is still in the
    history. *)
Theorem settled_frames_are_frozen
    (calls later : list Call) pid thresholds (ft ft' : t) outs outs' (d : nat) :
  run calls (make pid thresholds) = Some (ft, outs) ->
  (d < mCurrentDisplayFrame ft)%nat ->
  d ∉ (mPendingPresentFences ft).*2 ->
  run later ft = Some (ft', outs') ->
  heap ft' !! d = heap ft !! d
  ∧ (d ∉ traced outs')
  ∧ (d ∉ (mPendingPresentFences ft').*2)
  ∧ (d < mCurrentDisplayFrame ft')%nat.
Proof.
  intros Hrun Hlt Hq Hlater.
  pose proof (run_timeline_inv calls _ _ _ (make_timeline_inv pid thresholds) Hrun)
    as Hinv.
  destruct (run_settled later d ft ft' outs' Hinv (conj Hlt Hq) Hlater)
    as ([Hlt' Hq'] & Hheap & Htraced).
  auto.
Qed.

End TimelineFrames.

Lemma flushPendingPresentFences_frames_witness :
  ∃ ft' outs f f' o,
    @FrameTimeline.flushPendingPresentFences platform_header
      fences_second_signalled after_two_woken_presents = Some (ft', outs)
    ∧ FrameTimeline.heap after_two_woken_presents !! 1%nat = Some f
    ∧ DisplayFrame.onPresent 250 f = Some (f', o)
    ∧ FrameTimeline.heap ft' !! 1%nat = Some f'
    ∧ FrameTimeline.heap ft' !! 0%nat
      = FrameTimeline.heap after_two_woken_presents !! 0%nat.
Proof.
  destruct (@flushPendingPresentFences_frames platform_header
              fences_second_signalled after_two_woken_presents)
    as (ft' & outs & Hflush & Hqueue & _).
  - apply StronglySorted_lt_NoDup. vm_compute. repeat constructor.
  - vm_compute. repeat constructor; intros _; eexists;
      (split; [reflexivity | discriminate]).
  - destruct (FrameTimeline.heap after_two_woken_presents !! 1%nat)
      as [f|] eqn:Hf; [|vm_compute in Hf; discriminate Hf].
    destruct (FrameTimeline.heap after_two_woken_presents !! 0%nat)
      as [f0|] eqn:Hf0; [|vm_compute in Hf0; discriminate Hf0].
    destruct (Hqueue (Some 1%nat) 1%nat f ltac:(vm_compute; right; left) Hf)
      as [Hresolved _].
    destruct Hresolved as (f' & o & Hon & Hf').
    { vm_compute. repeat split; discriminate. }
    destruct (Hqueue (Some 0%nat) 0%nat f0 ltac:(vm_compute; left) Hf0)
      as [_ Hkept].
    exists ft', outs, f, f', o.
    split; [exact Hflush|]. split; [reflexivity|]. split; [exact Hon|].
    split; [exact Hf'|].
    apply Hkept. vm_compute. intros (_ & Hnot & _). by apply Hnot.
Defined.

Lemma settled_frames_are_frozen_witness :
  match @FrameTimeline.run platform_header three_woken_presents
          (@FrameTimeline.make platform_header 1 thresholds_2ms) with
  | Some (ft, _) =>
      match @FrameTimeline.run platform_header
              [ FrameTimeline.SetSfWakeUp 0 350 fps60;
                FrameTimeline.SetSfPresent 400 None fences_second_signalled ] ft
      with
      | Some (ft', outs') =>
          FrameTimeline.heap ft' !! 1%nat = FrameTimeline.heap ft !! 1%nat
          ∧ (1%nat ∉ traced outs')
      | None => False
      end
  | None => False
  end.
Proof.
  destruct (@FrameTimeline.run platform_header three_woken_presents
              (@FrameTimeline.make platform_header 1 thresholds_2ms))
    as [[ft outs]|] eqn:Hrun; [|vm_compute in Hrun; discriminate Hrun].
  pose proof Hrun as Hstate. vm_compute in Hstate.
  injection Hstate as Hft _. subst ft.
  match goal with |- context [FrameTimeline.run ?later ?ft] =>
    destruct (FrameTimeline.run later ft) as [[ft' outs']|] eqn:Hlater;
      [|vm_compute in Hlater; discriminate Hlater]
  end.
  destruct (@settled_frames_are_frozen platform_header _ _ _ _ _ _ _ _ 1%nat
              Hrun ltac:(vm_compute; lia)
              ltac:(vm_compute; intros Hin; inversion Hin as [|? ? ? Hin'];
                    inversion Hin')
              Hlater)
    as (Hheap & Htraced & _).
  by split.
Defined.

Section TimelinePresent.
Context `{Header}.

Import FrameTimeline.

(** X12.  What [setSfPresent] does with the current display frame, in any
    state a run reaches, for a maximum of at least one, when every frame
    the call presents (the frame of an entry of the queue, the current
    frame's included, whose fence has a signal time) has been woken up
    with a refresh period that is not 0.  The call returns; the frame
    gets the given actual end time and becomes the last of the history; a
    new frame, as the constructor makes it, becomes the current one.  When
    the fence given has a signal time the frame is presented at that time
    within the call and is not queued.  Otherwise it is not presented, and
    it waits in the queue exactly when the fence is valid and has not
    signalled: with no fence, an invalid fence or an invalid signal time
    it is never presented. *)
Theorem setSfPresent_current_frame
    (calls : list Call) pid thresholds (ft : t) outs0
    (time : Z) (fence : option nat) (fences : nat -> FenceTime) :
  run calls (make pid thresholds) = Some (ft, outs0) ->
  (1 <= mMaxDisplayFrames ft)%N ->
  Forall (λ e, resolved fences e -> woken (heap ft) e.2)
         (mPendingPresentFences ft ++ [(fence, mCurrentDisplayFrame ft)]) ->
  let current := mCurrentDisplayFrame ft in
  ∃ f ft' outs,
    heap ft !! current = Some f
    ∧ setSfPresent time fence fences ft = Some (ft', outs)
    ∧ mCurrentDisplayFrame ft' = S current
    ∧ heap ft' !! S current
      = Some (DisplayFrame.make (mJankClassificationThresholds ft))
    ∧ last (mDisplayFrames ft') = Some current
    ∧ (resolved fences (fence, current) ->
       (∃ f' o,
          DisplayFrame.onPresent (signalOf fences fence)
            (DisplayFrame.setActualEndTime time f) = Some (f', o)
          ∧ heap ft' !! current = Some f')
       ∧ current ∈ traced outs
       ∧ (current ∉ (mPendingPresentFences ft').*2))
    ∧ (¬ resolved fences (fence, current) ->
       heap ft' !! current = Some (DisplayFrame.setActualEndTime time f)
       ∧ (current ∉ traced outs)
       ∧ (current ∈ (mPendingPresentFences ft').*2
          <-> stillPending fences (fence, current))).
Proof.
  intros Hrun Hmax Hwoken. cbv zeta.
  pose proof (run_timeline_inv calls _ _ _ (make_timeline_inv pid thresholds) Hrun)
    as Hinv.
  pose proof Hinv as (Hcur & Hq & Hh & Hqs & Hhs & Hlen).
  destruct (lookup_lt_is_Some_2 (heap ft) (mCurrentDisplayFrame ft) ltac:(lia))
    as [f Hf].
  exists f.
  pose proof (setSfPresent_queue_valid time fence ft Hinv) as Hall.
  set (cur := mCurrentDisplayFrame ft) in *.
  set (q := mPendingPresentFences ft ++ [(fence, cur)]) in *.
  set (h0 := alter (DisplayFrame.setActualEndTime time) cur (heap ft)) in *.
  assert (Hf0 : h0 !! cur = Some (DisplayFrame.setActualEndTime time f))
    by (unfold h0; by rewrite list_lookup_alter_eq, Hf).
  assert (Hsorted : StronglySorted lt q.*2)
    by (unfold q; rewrite fmap_app; by apply StronglySorted_snoc_lt).
  assert (Hnd : NoDup q.*2) by by apply StronglySorted_lt_NoDup.
  assert (Hin : (fence, cur) ∈ q)
    by (unfold q; apply elem_of_app; right; by apply list_elem_of_singleton).
  assert (Hwoken0 : Forall (λ e, resolved fences e -> woken h0 e.2) q).
  { eapply Forall_impl; [exact Hwoken|]. cbn. intros e He Hr.
    apply woken_alter; [done | by apply He]. }
  destruct (flushPendingPresentFences_loop_returns fences q h0 Hwoken0)
    as [[[rest h1] out] Hloop].
  pose proof (flushPendingPresentFences_loop_spec fences q _ _ _ _ Hloop)
    as (Hrest & Hlen1 & _ & Htraced & _).
  specialize (Htraced Hall).
  pose proof (flushPendingPresentFences_loop_heap fences q _ _ _ _ Hnd Hloop
                fence cur _ Hin Hf0) as Hheap.
  unfold h0 in Hlen1. rewrite length_alter in Hlen1.
  pose proof (setSfPresent_eq time fence fences ft rest h1 out _ Hloop
                (popOlderFrames_spec _ (mDisplayFrames ft) Hmax)) as Hcall.
  eexists _, _. split; [exact Hf|]. split; [exact Hcall|]. cbn.
  assert (Hmember : ∀ (P : option nat * nat -> Prop) `{!∀ x, Decision (P x)},
            cur ∈ (filter P q).*2 <-> P (fence, cur)).
  { intros P ?. split.
    - intros Hc. apply list_elem_of_fmap in Hc as ([f' d'] & Heq & He).
      cbn [snd] in Heq. subst d'.
      apply list_elem_of_filter in He as [HP He].
      by rewrite (NoDup_snd_functional q fence f' cur Hnd Hin He).
    - intros HP. apply list_elem_of_fmap. exists (fence, cur).
      split; [reflexivity|]. by apply list_elem_of_filter. }
  split; [lia|]. split.
  { rewrite lookup_app_r by lia. by rewrite Hlen1, <- Hcur, Nat.sub_diag. }
  split; [by rewrite last_snoc|].
  rewrite lookup_app_l by lia. rewrite Htraced, Hrest.
  destruct Hheap as [Hpresented Hkept].
  split; intros Hr.
  - split; [by apply Hpresented|].
    split; [by apply Hmember|].
    rewrite Hmember. unfold resolved, stillPending in *. cbn [fst] in *.
    destruct fence; tauto.
  - split; [by apply Hkept|].
    split; [by rewrite Hmember | by apply Hmember].
Qed.


(** X13.  [addSurfaceFrame] touches the current display frame only, and
    appends: after the surface frames [sfs] have been added one after the
    other, the current frame holds them behind those it had, in the order
    in which they were added; every other frame, the queue, the history
    and the current-frame pointer are as before. *)
Theorem addSurfaceFrame_appends (sfs : list SurfaceFrame.t) : ∀ (ft : t) f,
  heap ft !! mCurrentDisplayFrame ft = Some f ->
  ∃ ft' f',
    run (AddSurfaceFrame <$> sfs) ft = Some (ft', [])
    ∧ heap ft' !! mCurrentDisplayFrame ft = Some f'
    ∧ DisplayFrame.mSurfaceFrames f' = DisplayFrame.mSurfaceFrames f ++ sfs
    ∧ DisplayFrame.mSurfaceFlingerActuals f' = DisplayFrame.mSurfaceFlingerActuals f
    ∧ DisplayFrame.mSurfaceFlingerPredictions f'
      = DisplayFrame.mSurfaceFlingerPredictions f
    ∧ DisplayFrame.mPredictionState f' = DisplayFrame.mPredictionState f
    ∧ DisplayFrame.mJankType f' = DisplayFrame.mJankType f
    ∧ (∀ d : nat, d ≠ mCurrentDisplayFrame ft -> heap ft' !! d = heap ft !! d)
    ∧ mCurrentDisplayFrame ft' = mCurrentDisplayFrame ft
    ∧ mPendingPresentFences ft' = mPendingPresentFences ft
    ∧ mDisplayFrames ft' = mDisplayFrames ft.
Proof.
  induction sfs as [|sf sfs IH]; intros ft f Hf.
  - exists ft, f. cbn. rewrite app_nil_r. by repeat split.
  - destruct (IH (addSurfaceFrame sf ft) (DisplayFrame.addSurfaceFrame sf f))
      as (ft' & f' & Hrun & Hf' & Hsfs & Ha & Hp & Hs & Hj & Hother & Hc & Hq & Hh).
    { cbn. by rewrite list_lookup_alter_eq, Hf. }
    cbn in Hf', Hsfs, Ha, Hp, Hs, Hj, Hother, Hc, Hq, Hh.
    exists ft', f'. rewrite fmap_cons. cbn [run call]. rewrite Hrun.
    split; [reflexivity|]. split; [exact Hf'|].
    split; [by rewrite Hsfs, <- app_assoc|].
    repeat (split; [assumption|]).
    split; [|by repeat split].
    intros d Hd. rewrite (Hother d Hd). by apply list_lookup_alter_ne.
Qed.

End TimelinePresent.

Lemma setSfPresent_current_frame_witness :
  ∃ f ft' outs f' o,
    FrameTimeline.heap after_two_woken_presents !! 2%nat = Some f
    ∧ @FrameTimeline.setSfPresent platform_header 300 (Some 1%nat)
        fences_second_signalled
        (FrameTimeline.setSfWakeUp 0 250 fps60 after_two_woken_presents)
      = Some (ft', outs)
    ∧ DisplayFrame.onPresent 250
        (DisplayFrame.setActualEndTime 300
           (DisplayFrame.onSfWakeUp 0 fps60 None 250 f)) = Some (f', o)
    ∧ FrameTimeline.heap ft' !! 2%nat = Some f'
    ∧ traced outs = [1; 2]%nat.
Proof.
  destruct (@setSfPresent_current_frame platform_header
              (two_woken_presents ++ [FrameTimeline.SetSfWakeUp 0 250 fps60]) 1
              thresholds_2ms
              (FrameTimeline.setSfWakeUp 0 250 fps60 after_two_woken_presents)
              [] 300 (Some 1%nat) fences_second_signalled)
    as (f & ft' & outs & Hf & Hcall & _ & _ & _ & Hresolved & _).
  - vm_compute. reflexivity.
  - vm_compute. discriminate.
  - vm_compute. repeat constructor; intros _; eexists;
      (split; [reflexivity | discriminate]).
  - destruct Hresolved as ((f' & o & Hon & Hf') & _).
    { vm_compute. repeat split; discriminate. }
    destruct (FrameTimeline.heap after_two_woken_presents !! 2%nat)
      as [g|] eqn:Hg; [|vm_compute in Hg; discriminate Hg].
    exists g, ft', outs, f', o. split; [reflexivity|]. split; [exact Hcall|].
    assert (Hfg : f = DisplayFrame.onSfWakeUp 0 fps60 None 250 g).
    { vm_compute in Hf, Hg. injection Hf as <-. injection Hg as <-.
      vm_compute. reflexivity. }
    rewrite <- Hfg. split; [exact Hon|]. split; [exact Hf'|].
    vm_compute in Hcall. injection Hcall as _ <-. vm_compute. reflexivity.
Defined.

Lemma addSurfaceFrame_appends_witness :
  ∃ ft' f',
    @FrameTimeline.run platform_header
      (FrameTimeline.AddSurfaceFrame <$> [surface_presented; surface_valid])
      after_two_presents = Some (ft', [])
    ∧ FrameTimeline.heap ft' !! 2%nat = Some f'
    ∧ DisplayFrame.mSurfaceFrames f' = [surface_presented; surface_valid].
Proof.
  destruct (@addSurfaceFrame_appends platform_header
              [surface_presented; surface_valid] after_two_presents
              (@DisplayFrame.make platform_header thresholds_2ms)
              ltac:(vm_compute; reflexivity))
    as (ft' & f' & Hrun & Hf' & Hsfs & _).
  exists ft', f'. split; [exact Hrun|]. split; [exact Hf'|]. exact Hsfs.
Defined.

(** ** More on the token manager *)

Section TokenLedgerMore.
Context `{Header}.

Import TokenManager.

(** X14.  Tokens are consecutive: a run of [generateTokenForPredictions]
    calls returns the value of the counter and the integers that follow
    it, so every call returns a token larger than all the tokens before
    it and no token is returned twice, whatever the clock does.  The
    counter ends behind the last token. *)
Theorem tokens_are_consecutive (evs : list Issue) : ∀ (tm : t),
  - 2 ^ 63 <= mCurrentToken tm ->
  mCurrentToken tm + Z.of_nat (length evs) < 2 ^ 63 ->
  (issueAll evs tm).1
  = (λ i : nat, mCurrentToken tm + Z.of_nat i) <$> seq 0 (length evs)
  ∧ mCurrentToken (issueAll evs tm).2 = mCurrentToken tm + Z.of_nat (length evs)
  ∧ StronglySorted Z.lt (issueAll evs tm).1
  ∧ NoDup (issueAll evs tm).1.
Proof.
  assert (Hlist : ∀ evs tm,
    - 2 ^ 63 <= mCurrentToken tm ->
    mCurrentToken tm + Z.of_nat (length evs) < 2 ^ 63 ->
    (issueAll evs tm).1
    = (λ i : nat, mCurrentToken tm + Z.of_nat i) <$> seq 0 (length evs)
    ∧ mCurrentToken (issueAll evs tm).2
      = mCurrentToken tm + Z.of_nat (length evs)).
  { clear evs. induction evs as [|e evs IH]; intros tm Hlo Hhi.
    - cbn. split; [reflexivity | lia].
    - cbn [issueAll length] in *.
      unfold generateTokenForPredictions, flushTokens.
      cbn [mCurrentToken mPredictions].
      set (tm1 := {| mCurrentToken := wrap64 (mCurrentToken tm + 1);
                     mPredictions := _ |}).
      assert (Hnext : mCurrentToken tm1 = mCurrentToken tm + 1)
        by (unfold tm1; cbn; apply wrap64_id; unfold int64; lia).
      destruct (IH tm1 ltac:(lia) ltac:(lia)) as [Htokens Hcounter].
      destruct (issueAll evs tm1) as [tokens tm2].
      cbn [fst snd] in Htokens, Hcounter |- *.
      rewrite Htokens, Hcounter, Hnext. split; [|lia].
      cbn [seq fmap list_fmap]. f_equal; [f_equal; lia|].
      rewrite <- seq_shift, <- list_fmap_compose.
      apply list_fmap_ext. intros i x _. cbn. lia. }
  intros tm Hlo Hhi. destruct (Hlist evs tm Hlo Hhi) as [Htokens Hcounter].
  assert (Hsorted : StronglySorted Z.lt (issueAll evs tm).1).
  { rewrite Htokens. generalize (mCurrentToken tm) as base. clear.
    generalize 0%nat as from.
    induction (length evs) as [|n IH]; intros from base; [constructor|].
    cbn [seq fmap list_fmap]. constructor; [apply IH|].
    apply Forall_fmap, Forall_forall. intros i Hi.
    apply list_elem_of_In, in_seq in Hi. cbn. lia. }
  repeat split; try assumption.
  clear Htokens. induction Hsorted as [|x l _ IH Hall]; constructor; [|exact IH].
  intros Hin. rewrite Forall_forall in Hall. specialize (Hall x Hin). lia.
Qed.

(** X15.  After any run of calls under a monotonic clock the map holds
    exactly the entries issued that were younger than the retention window
    at the latest eviction pass, in the order of their tokens: it never
    keeps an entry that was at least a window old at that pass, and never
    holds more entries than tokens were issued. *)
Theorem ledger_holds_young_entries (evs : list Issue) :
  clock_ok 0 evs ->
  - 2 ^ 63 <= INVALID_VSYNC_ID + 1 ->
  INVALID_VSYNC_ID + 1 + Z.of_nat (length evs) < 2 ^ 63 ->
  let m := mPredictions (issueAll evs make).2 in
  m = filter (young (lastFlush 0 evs)) (issuedEntries (INVALID_VSYNC_ID + 1) evs)
  ∧ Forall (λ kv, lastFlush 0 evs - timestamp kv.2 < kMaxRetentionTime) m
  ∧ StronglySorted Z.lt m.*1
  ∧ (length m <= length evs)%nat.
Proof.
  intros Hclock Hid Hroom. cbv zeta.
  destruct (issueAll_inv evs make [] 0 (ledger_inv_make Hid) Hclock Hroom)
    as [_ (Hmap & Hsorted & _)].
  rewrite app_nil_l in Hmap, Hsorted. cbn [make mCurrentToken] in *.
  rewrite Hmap. split; [reflexivity|]. split; [|split].
  - apply Forall_forall. intros kv Hkv.
    by apply list_elem_of_filter in Hkv as [Hy _].
  - apply (StronglySorted_filter_entries (young (lastFlush 0 evs))) in Hsorted.
    clear Hmap. revert Hsorted.
    generalize (filter (young (lastFlush 0 evs))
                  (issuedEntries (INVALID_VSYNC_ID + 1) evs)).
    intros m Hsorted.
    induction Hsorted as [|kv l _ IH Hall]; [constructor|].
    rewrite fmap_cons. constructor; [exact IH|].
    apply Forall_fmap. eapply Forall_impl; [exact Hall|].
    intros kv' [Hlt _]. exact Hlt.
  - etransitivity; [apply length_filter|].
    clear. generalize (INVALID_VSYNC_ID + 1).
    induction evs as [|e evs IH]; intros z; cbn; [lia|].
    specialize (IH (z + 1)). lia.
Qed.

End TokenLedgerMore.

Lemma tokens_are_consecutive_witness :
  (@issueAll platform_header
     [ {| now1 := 10; now2 := 11; issued := TimelineItem_default |};
       {| now1 := 5; now2 := 4; issued := TimelineItem_default |} ]
     (@TokenManager.make platform_header)).1 = [0; 1].
Proof.
  destruct (@tokens_are_consecutive platform_header
              [ {| now1 := 10; now2 := 11; issued := TimelineItem_default |};
                {| now1 := 5; now2 := 4; issued := TimelineItem_default |} ]
              (@TokenManager.make platform_header)
              ltac:(vm_compute; discriminate) ltac:(vm_compute; reflexivity))
    as [Htokens _].
  rewrite Htokens. reflexivity.
Defined.

Lemma ledger_holds_young_entries_witness :
  length
    (TokenManager.mPredictions
       (@issueAll platform_header
          [ {| now1 := 0; now2 := 1; issued := TimelineItem_default |};
            {| now1 := 200000000; now2 := 200000001;
               issued := TimelineItem_default |} ]
          (@TokenManager.make platform_header)).2) = 1%nat.
Proof.
  destruct (@ledger_holds_young_entries platform_header
              [ {| now1 := 0; now2 := 1; issued := TimelineItem_default |};
                {| now1 := 200000000; now2 := 200000001;
                   issued := TimelineItem_default |} ])
    as [Hmap _].
  - cbn. lia.
  - cbn. lia.
  - cbn. lia.
  - rewrite Hmap. reflexivity.
Defined.

(** ** Tokens in the frame timeline *)
Section TokenFlow.
Context `{Header}.

Lemma ledger_find (evs : list Issue) token v :
  clock_ok 0 evs ->
  - 2 ^ 63 <= INVALID_VSYNC_ID + 1 ->
  INVALID_VSYNC_ID + 1 + Z.of_nat (length evs) < 2 ^ 63 ->
  TokenManager.map_find token
    (TokenManager.mPredictions (issueAll evs TokenManager.make).2) = Some v
  <-> young (lastFlush 0 evs) (token, v)
      ∧ (token, v) ∈ issuedEntries (INVALID_VSYNC_ID + 1) evs.
Proof.
  intros Hclock Hid Hroom.
  destruct (issueAll_inv evs TokenManager.make [] 0 (ledger_inv_make Hid)
              Hclock Hroom) as [_ (Hmap & Hsorted & _)].
  rewrite app_nil_l in Hmap, Hsorted.
  cbn [TokenManager.make TokenManager.mCurrentToken] in *.
  rewrite Hmap.
  rewrite map_find_sorted by by apply StronglySorted_filter_entries.
  apply list_elem_of_filter.
Qed.

Lemma ledger_lookup_issued (evs : list Issue) (i : nat) e :
  clock_ok 0 evs ->
  - 2 ^ 63 <= INVALID_VSYNC_ID + 1 ->
  INVALID_VSYNC_ID + 1 + Z.of_nat (length evs) < 2 ^ 63 ->
  evs !! i = Some e ->
  TokenManager.getPredictionsForToken (INVALID_VSYNC_ID + 1 + Z.of_nat i)
    (issueAll evs TokenManager.make).2
  = if decide (lastFlush 0 evs - now1 e < kMaxRetentionTime)
    then Some (issued e) else None.
Proof.
  intros Hclock Hid Hroom Hi. unfold TokenManager.getPredictionsForToken.
  destruct (TokenManager.map_find _ _) as [v|] eqn:Hv.
  - apply ledger_find in Hv as [Hy Hin]; try assumption.
    apply list_elem_of_lookup in Hin as [j Hj].
    rewrite issuedEntries_lookup in Hj.
    destruct (evs !! j) as [e'|] eqn:Hj'; [|discriminate]. cbn in Hj.
    injection Hj as Hij <-. assert (j = i) as -> by lia.
    rewrite Hi in Hj'. injection Hj' as <-.
    unfold young in Hy. cbn in Hy. by rewrite decide_True.
  - case_decide as Hy; [|reflexivity]. exfalso.
    assert (Hsome : TokenManager.map_find (INVALID_VSYNC_ID + 1 + Z.of_nat i)
                      (TokenManager.mPredictions
                         (issueAll evs TokenManager.make).2)
                    = Some {| TokenManager.timestamp := now1 e;
                              TokenManager.predictions := issued e |}).
    { apply ledger_find; try assumption. split; [exact Hy|].
      apply list_elem_of_lookup. exists i.
      by rewrite issuedEntries_lookup, Hi. }
    congruence.
Qed.

Lemma ledger_lookup_unknown (evs : list Issue) token :
  clock_ok 0 evs ->
  - 2 ^ 63 <= INVALID_VSYNC_ID + 1 ->
  INVALID_VSYNC_ID + 1 + Z.of_nat (length evs) < 2 ^ 63 ->
  (∀ i : nat, (i < length evs)%nat -> token ≠ INVALID_VSYNC_ID + 1 + Z.of_nat i) ->
  TokenManager.getPredictionsForToken token (issueAll evs TokenManager.make).2
  = None.
Proof.
  intros Hclock Hid Hroom Hnew. unfold TokenManager.getPredictionsForToken.
  destruct (TokenManager.map_find _ _) as [v|] eqn:Hv; [|reflexivity].
  apply ledger_find in Hv as [_ Hin]; try assumption.
  apply list_elem_of_lookup in Hin as [j Hj].
  rewrite issuedEntries_lookup in Hj.
  destruct (evs !! j) as [e'|] eqn:Hj'; [|discriminate]. cbn in Hj.
  injection Hj as Hij _. exfalso.
  apply (Hnew j); [by eapply lookup_lt_Some | lia].
Qed.

Lemma issueAll_cons_snd (e : Issue) (evs : list Issue) (tm : TokenManager.t) :
  (issueAll (e :: evs) tm).2
  = (issueAll evs
       (TokenManager.generateTokenForPredictions (now1 e) (now2 e) (issued e)
          tm).2).2.
Proof.
  cbn [issueAll].
  destruct (TokenManager.generateTokenForPredictions _ _ _ tm) as [token tm1].
  cbn [snd]. by destruct (issueAll evs tm1).
Qed.

(** The token manager and the thresholds of a frame timeline after a
    run. *)
Lemma run_tokenManager (calls : list FrameTimeline.Call) :
  ∀ (ft ft' : FrameTimeline.t) outs,
  FrameTimeline.run calls ft = Some (ft', outs) ->
  FrameTimeline.mTokenManager ft'
  = (issueAll (issuesOf calls) (FrameTimeline.mTokenManager ft)).2
  ∧ FrameTimeline.mJankClassificationThresholds ft'
    = FrameTimeline.mJankClassificationThresholds ft.
Proof.
  induction calls as [|c calls IH]; intros ft ft' outs Hrun;
    cbn [FrameTimeline.run] in Hrun.
  - by injection Hrun as <- <-.
  - destruct (FrameTimeline.call c ft) as [[ft1 out]|] eqn:Hcall; [|discriminate].
    destruct (FrameTimeline.run calls ft1) as [[ft2 outs2]|] eqn:Hrun2;
      [|discriminate].
    injection Hrun as <- <-. destruct (IH ft1 ft2 outs2 Hrun2) as [Htm Hthr].
    destruct c as [t1 t2 p|sf|token wake rate|time fence fences|size|];
      cbn [FrameTimeline.call] in Hcall; cbn [issuesOf].
    1-3,5-6: injection Hcall as <- <-.
    + rewrite issueAll_cons_snd. by rewrite Htm, Hthr.
    + by rewrite Htm, Hthr.
    + by rewrite Htm, Hthr.
    + by rewrite Htm, Hthr.
    + by rewrite Htm, Hthr.
    + rewrite Htm, Hthr.
      by apply setSfPresent_Some in Hcall as (rest & h1 & frames & _ & _ & ->).
Qed.

Section Reached.

Variables (calls : list FrameTimeline.Call) (pid : Z).
Variables (thresholds : JankClassificationThresholds).
Variables (ft : FrameTimeline.t) (outs : list Output).

Hypothesis Hrun :
  FrameTimeline.run calls (FrameTimeline.make pid thresholds) = Some (ft, outs).
Hypothesis Hclock : clock_ok 0 (issuesOf calls).
Hypothesis Hid : - 2 ^ 63 <= INVALID_VSYNC_ID + 1.
Hypothesis Hroom :
  INVALID_VSYNC_ID + 1 + Z.of_nat (length (issuesOf calls)) < 2 ^ 63.

(** X16.  The prediction state of a surface frame made by
    [createSurfaceFrameForToken] in a state that a run has reached.  With
    the invalid vsync id the state is [None]; with the token of a call of
    the run, it is [Valid] with the predictions given to that call when
    the token was younger than the retention window at the latest
    eviction pass, and [Expired] with zero predictions when it was not;
    with any other id it is [Expired].  The new frame always has the given
    token, the thresholds of the timeline, no present state, no jank type
    and no actual times. *)
Theorem createSurfaceFrameForToken_states
    (vsyncId inputEventId ownerPid ownerUid : Z) (layerName debugName : string) :
  let sf := FrameTimeline.createSurfaceFrameForToken vsyncId inputEventId
              ownerPid ownerUid layerName debugName ft in
  let evs := issuesOf calls in
  SurfaceFrame.mToken sf = vsyncId
  ∧ SurfaceFrame.mPresentState sf = PresentState.Unknown
  ∧ SurfaceFrame.mJankType sf = JankType.None
  ∧ SurfaceFrame.mActuals sf = TimelineItem_default
  ∧ SurfaceFrame.mJankClassificationThresholds sf = thresholds
  ∧ (vsyncId = INVALID_VSYNC_ID ->
     SurfaceFrame.mPredictionState sf = PredictionState.None
     ∧ SurfaceFrame.mPredictions sf = TimelineItem_default)
  ∧ (∀ (i : nat) e,
       evs !! i = Some e -> vsyncId = INVALID_VSYNC_ID + 1 + Z.of_nat i ->
       (lastFlush 0 evs - now1 e < kMaxRetentionTime ->
        SurfaceFrame.mPredictionState sf = PredictionState.Valid
        ∧ SurfaceFrame.mPredictions sf = issued e)
       ∧ (¬ lastFlush 0 evs - now1 e < kMaxRetentionTime ->
          SurfaceFrame.mPredictionState sf = PredictionState.Expired
          ∧ SurfaceFrame.mPredictions sf = TimelineItem_default))
  ∧ (vsyncId ≠ INVALID_VSYNC_ID ->
     (∀ i : nat, (i < length evs)%nat ->
        vsyncId ≠ INVALID_VSYNC_ID + 1 + Z.of_nat i) ->
     SurfaceFrame.mPredictionState sf = PredictionState.Expired
     ∧ SurfaceFrame.mPredictions sf = TimelineItem_default).
Proof.
  cbv zeta. destruct (run_tokenManager calls _ _ _ Hrun) as [Htm Hthr].
  cbn [FrameTimeline.make FrameTimeline.mTokenManager
       FrameTimeline.mJankClassificationThresholds] in Htm, Hthr.
  unfold FrameTimeline.createSurfaceFrameForToken. rewrite Htm, Hthr.
  assert (Hshape : ∀ state p,
    let sf := SurfaceFrame.make vsyncId inputEventId ownerPid ownerUid
                layerName debugName state p thresholds in
    SurfaceFrame.mToken sf = vsyncId
    ∧ SurfaceFrame.mPresentState sf = PresentState.Unknown
    ∧ SurfaceFrame.mJankType sf = JankType.None
    ∧ SurfaceFrame.mActuals sf = TimelineItem_default
    ∧ SurfaceFrame.mJankClassificationThresholds sf = thresholds)
    by (intros; by repeat split).
  destruct (decide (vsyncId = INVALID_VSYNC_ID)) as [Hinv|Hvalid].
  - destruct (Hshape PredictionState.None TimelineItem_default)
      as (? & ? & ? & ? & ?).
    repeat (split; [assumption|]). split; [done|]. split; [|done].
    intros i e Hi Hv. exfalso. lia.
  - split_and!; try (destruct (TokenManager.getPredictionsForToken _ _);
                     by apply Hshape).
    + done.
    + intros i e Hi ->. rewrite (ledger_lookup_issued _ i e) by assumption.
      split; intros Hy.
      * by rewrite decide_True.
      * by rewrite decide_False.
    + intros _ Hnew. by rewrite ledger_lookup_unknown.
Qed.

(** X17.  [setSfWakeUp] in a state that a run has reached.  The current
    display frame takes the token, the refresh rate and the wake-up time
    as its actual start; its other actual times, its surface frames and
    its jank type stay.  It becomes [Valid] with the predictions of the
    token when the token was issued by the run and was younger than the
    retention window at the latest eviction pass; otherwise it becomes
    [Expired] and keeps the predictions it had. *)
Theorem setSfWakeUp_prediction_state (token wakeUpTime : Z) (refreshRate : Fps) :
  let evs := issuesOf calls in
  let current := FrameTimeline.mCurrentDisplayFrame ft in
  ∃ f f',
    FrameTimeline.heap ft !! current = Some f
    ∧ FrameTimeline.heap
        (FrameTimeline.setSfWakeUp token wakeUpTime refreshRate ft) !! current
      = Some f'
    ∧ DisplayFrame.mToken f' = token
    ∧ DisplayFrame.mRefreshRate f' = refreshRate
    ∧ DisplayFrame.mSurfaceFlingerActuals f'
      = {| startTime := wakeUpTime;
           endTime := endTime (DisplayFrame.mSurfaceFlingerActuals f);
           presentTime := presentTime (DisplayFrame.mSurfaceFlingerActuals f) |}
    ∧ DisplayFrame.mSurfaceFrames f' = DisplayFrame.mSurfaceFrames f
    ∧ DisplayFrame.mJankType f' = DisplayFrame.mJankType f
    ∧ (∀ (i : nat) e,
         evs !! i = Some e -> token = INVALID_VSYNC_ID + 1 + Z.of_nat i ->
         (lastFlush 0 evs - now1 e < kMaxRetentionTime ->
          DisplayFrame.mPredictionState f' = PredictionState.Valid
          ∧ DisplayFrame.mSurfaceFlingerPredictions f' = issued e)
         ∧ (¬ lastFlush 0 evs - now1 e < kMaxRetentionTime ->
            DisplayFrame.mPredictionState f' = PredictionState.Expired
            ∧ DisplayFrame.mSurfaceFlingerPredictions f'
              = DisplayFrame.mSurfaceFlingerPredictions f))
    ∧ ((∀ i : nat, (i < length evs)%nat ->
          token ≠ INVALID_VSYNC_ID + 1 + Z.of_nat i) ->
       DisplayFrame.mPredictionState f' = PredictionState.Expired
       ∧ DisplayFrame.mSurfaceFlingerPredictions f'
         = DisplayFrame.mSurfaceFlingerPredictions f).
Proof.
  cbv zeta. destruct (run_tokenManager calls _ _ _ Hrun) as [Htm _].
  cbn [FrameTimeline.make FrameTimeline.mTokenManager] in Htm.
  destruct (run_timeline_inv calls _ _ _ (make_timeline_inv pid thresholds) Hrun)
    as (Hcur & _).
  destruct (lookup_lt_is_Some_2 (FrameTimeline.heap ft)
              (FrameTimeline.mCurrentDisplayFrame ft) ltac:(lia)) as [f Hf].
  exists f. eexists. split; [exact Hf|].
  unfold FrameTimeline.setSfWakeUp. cbn [FrameTimeline.heap FrameTimeline.with_heap].
  rewrite list_lookup_alter_eq, Hf, Htm. cbn [fmap option_fmap option_map].
  split; [reflexivity|]. cbn.
  repeat (split; [reflexivity|]). split.
  - intros i e Hi ->. rewrite (ledger_lookup_issued _ i e) by assumption.
    split; intros Hy.
    + by rewrite decide_True.
    + by rewrite decide_False.
  - intros Hnew. by rewrite ledger_lookup_unknown.
Qed.

End Reached.

End TokenFlow.

Lemma createSurfaceFrameForToken_states_witness :
  let fresh :=
    @FrameTimeline.createSurfaceFrameForToken platform_header 1 0 100 10001
      "layer" "layer#0" after_token_calls in
  let stale :=
    @FrameTimeline.createSurfaceFrameForToken platform_header 0 0 100 10001
      "layer" "layer#0" after_token_calls in
  (SurfaceFrame.mPredictionState fresh = PredictionState.Valid
   ∧ SurfaceFrame.mPredictions fresh
     = {| startTime := 201000000; endTime := 210000000;
          presentTime := 216000000 |})
  ∧ SurfaceFrame.mPredictionState stale = PredictionState.Expired.
Proof.
  cbv zeta. split.
  - destruct (@createSurfaceFrameForToken_states platform_header token_calls 1
                thresholds_2ms after_token_calls []
                ltac:(vm_compute; reflexivity) ltac:(cbn; lia)
                ltac:(vm_compute; discriminate) ltac:(vm_compute; reflexivity)
                1 0 100 10001 "layer" "layer#0")
      as (_ & _ & _ & _ & _ & _ & Hissued & _).
    apply (Hissued 1%nat _ eq_refl); [reflexivity | vm_compute; reflexivity].
  - destruct (@createSurfaceFrameForToken_states platform_header token_calls 1
                thresholds_2ms after_token_calls []
                ltac:(vm_compute; reflexivity) ltac:(cbn; lia)
                ltac:(vm_compute; discriminate) ltac:(vm_compute; reflexivity)
                0 0 100 10001 "layer" "layer#0")
      as (_ & _ & _ & _ & _ & _ & Hissued & _).
    apply (Hissued 0%nat _ eq_refl); [reflexivity | vm_compute; discriminate].
Defined.

Lemma setSfWakeUp_prediction_state_witness :
  ∃ f',
    FrameTimeline.heap
      (FrameTimeline.setSfWakeUp 1 201000000 fps60 after_token_calls) !! 0%nat
    = Some f'
    ∧ DisplayFrame.mPredictionState f' = PredictionState.Valid
    ∧ DisplayFrame.mSurfaceFlingerPredictions f'
      = {| startTime := 201000000; endTime := 210000000;
           presentTime := 216000000 |}.
Proof.
  destruct (@setSfWakeUp_prediction_state platform_header token_calls 1
              thresholds_2ms after_token_calls []
              ltac:(vm_compute; reflexivity) ltac:(cbn; lia)
              ltac:(vm_compute; discriminate) ltac:(vm_compute; reflexivity)
              1 201000000 fps60)
    as (f & f' & _ & Hf' & _ & _ & _ & _ & _ & Hissued & _).
  exists f'. split; [exact Hf'|].
  apply (Hissued 1%nat _ eq_refl); [reflexivity | vm_compute; reflexivity].
Defined.

(** ** Names and decoders *)

(** X18.  In each of the five enumerations that [toString] names, distinct
    values have distinct names: a name in a dump tells the value. *)
Theorem toString_names_distinct :
  (∀ a b : PredictionState.t, toString a = toString b -> a = b)
  ∧ (∀ a b : FramePresentMetadata, toString a = toString b -> a = b)
  ∧ (∀ a b : FrameReadyMetadata, toString a = toString b -> a = b)
  ∧ (∀ a b : FrameStartMetadata, toString a = toString b -> a = b)
  ∧ (∀ a b : PresentState.t, toString a = toString b -> a = b).
Proof. repeat split; intros [] []; (reflexivity || discriminate). Qed.

Lemma ldiff_disjoint (j c : Z) : Z.land j c = 0 -> Z.ldiff j c = j.
Proof.
  intros Hz. apply Z.bits_inj'. intros n Hn. rewrite Z.ldiff_spec.
  pose proof (f_equal (λ x, Z.testbit x n) Hz) as Hb. cbn beta in Hb.
  rewrite Z.land_spec, Z.bits_0 in Hb.
  destruct (Z.testbit j n), (Z.testbit c n); cbn in *; congruence.
Qed.

(** One block of a decoder clears the bits of its cause, whether it takes
    note of the cause or not. *)
Lemma takeJank_snd {A} (cause : Z) (note : A -> A) (st : A * Z) :
  (takeJank cause note st).2 = Z.ldiff st.2 cause.
Proof.
  destruct st as [acc j]. unfold takeJank. cbn [snd]. case_decide as Hz; cbn [snd].
  - symmetry. apply Z.ldiff_land.
  - symmetry. apply ldiff_disjoint. lia.
Qed.

(** What the eight blocks leave of the bitmask. *)
Lemma takeJank_all_snd {A} (n1 n2 n3 n4 n5 n6 n7 n8 : A -> A) (acc : A) (j : Z) :
  (takeJank JankType.Unknown n8
     (takeJank JankType.BufferStuffing n7
        (takeJank JankType.SurfaceFlingerScheduling n6
           (takeJank JankType.PredictionError n5
              (takeJank JankType.AppDeadlineMissed n4
                 (takeJank JankType.SurfaceFlingerGpuDeadlineMissed n3
                    (takeJank JankType.SurfaceFlingerCpuDeadlineMissed n2
                       (takeJank JankType.DisplayHAL n1 (acc, j))))))))).2
  = Z.ldiff j 255.
Proof.
  rewrite !takeJank_snd. cbn [snd]. rewrite !Z.ldiff_ldiff_l. reflexivity.
Qed.

Lemma ldiff_255 (j : Z) : Z.ldiff j 255 = 0 <-> 0 <= j < 256.
Proof.
  change 255 with (Z.ones 8). rewrite Z.ldiff_ones_r by lia.
  rewrite Z.shiftl_mul_pow2, Z.shiftr_div_pow2 by lia. change (2 ^ 8) with 256.
  split.
  - intros Hz. assert (Hq : j / 256 = 0) by lia.
    apply Z.div_small_iff in Hq; lia.
  - intros Hj. rewrite Z.div_small by lia. reflexivity.
Qed.

Lemma jankTypeBitmaskToString_None (jankType : Z) :
  jankTypeBitmaskToString jankType = None <-> ¬ (0 <= jankType < 256).
Proof.
  unfold jankTypeBitmaskToString. case_decide as Hz.
  - unfold JankType.None in Hz. subst. split; [discriminate | lia].
  - cbv zeta.
    destruct (takeJank JankType.Unknown _ _) as [janks left] eqn:Hst.
    apply (f_equal snd) in Hst. rewrite takeJank_all_snd in Hst.
    cbn [snd] in Hst. rewrite <- ldiff_255, Hst.
    case_decide; split; intros; congruence.
Qed.

Lemma jankTypeBitmaskToProto_None `{FrameTimelineEvent} (jankType : Z) :
  jankTypeBitmaskToProto jankType = None <-> ¬ (0 <= jankType < 256).
Proof.
  unfold jankTypeBitmaskToProto. case_decide as Hz.
  - unfold JankType.None in Hz. subst. split; [discriminate | lia].
  - cbv zeta.
    destruct (takeJank JankType.Unknown _ _) as [janks left] eqn:Hst.
    apply (f_equal snd) in Hst. rewrite takeJank_all_snd in Hst.
    cbn [snd] in Hst. rewrite <- ldiff_255, Hst.
    case_decide; split; intros; congruence.
Qed.

(** X19.  The two decoders of a jank-type bitmask abort exactly on the
    bitmasks that have a bit outside the eight causes, that is, outside
    0 .. 255 (a negative bitmask has such a bit); on every other bitmask
    they return. *)
Theorem jankTypeBitmask_decoders_abort `{FrameTimelineEvent} (jankType : Z) :
  (jankTypeBitmaskToString jankType = None <-> ¬ (0 <= jankType < 256))
  ∧ (jankTypeBitmaskToProto jankType = None <-> ¬ (0 <= jankType < 256)).
Proof.
  split; [apply jankTypeBitmaskToString_None | apply jankTypeBitmaskToProto_None].
Qed.

Lemma decoded_names_NoDup :
  NoDup ((λ i : nat, jankTypeBitmaskToString (Z.of_nat i)) <$> seq 0 256).
Proof. apply (bool_decide_unpack _). vm_compute. exact I. Qed.

(** X20.  [jankTypeBitmaskToString] loses nothing: two different bitmasks
    of the eight causes are written differently. *)
Theorem jankTypeBitmaskToString_distinct (a b : Z) :
  0 <= a < 256 -> 0 <= b < 256 -> a ≠ b ->
  jankTypeBitmaskToString a ≠ jankTypeBitmaskToString b.
Proof.
  intros Ha Hb Hab Heq. apply Hab.
  assert (Hlookup : ∀ x, 0 <= x < 256 ->
    ((λ i : nat, jankTypeBitmaskToString (Z.of_nat i)) <$> seq 0 256)
      !! Z.to_nat x = Some (jankTypeBitmaskToString x)).
  { intros x Hx. rewrite list_lookup_fmap, lookup_seq_lt by lia.
    cbn. by rewrite Z2Nat.id by lia. }
  pose proof (Hlookup a Ha) as Hla. rewrite Heq in Hla.
  pose proof (NoDup_lookup _ _ _ _ decoded_names_NoDup Hla (Hlookup b Hb)).
  lia.
Qed.

Lemma jankTypeBitmaskToString_distinct_witness :
  jankTypeBitmaskToString JankType.DisplayHAL
  ≠ jankTypeBitmaskToString
      (Z.lor JankType.DisplayHAL JankType.AppDeadlineMissed).
Proof.
  apply (jankTypeBitmaskToString_distinct 1 9); [lia | lia | lia].
Defined.

(** ** [dumpJank] *)

Lemma dumpJank_dumps_iff (f : DisplayFrame.t) :
  DisplayFrame.dumpJank_dumps f = true
  <-> DisplayFrame.mJankType f ≠ JankType.None
      ∨ Exists (λ sf, presentTime (SurfaceFrame.mActuals sf) = 0
                      ∨ SurfaceFrame.mJankType sf ≠ JankType.None)
               (DisplayFrame.mSurfaceFrames f).
Proof.
  unfold DisplayFrame.dumpJank_dumps. case_decide as Hj.
  - rewrite <- Is_true_true, existb_True. split.
    + intros Hex. right. eapply Exists_impl; [exact Hex|].
      intros sf. cbn. unfold SurfaceFrame.getJankType.
      case_decide; [by left|]. intros Hb. right.
      by apply bool_decide_unpack in Hb.
    + intros [?|Hex]; [done|]. eapply Exists_impl; [exact Hex|].
      intros sf. cbn. unfold SurfaceFrame.getJankType.
      case_decide; [done|]. intros [?|Hb]; [done|].
      by apply bool_decide_pack.
  - split; [by left | reflexivity].
Qed.

(** X21.  What [dumpJank] selects.  Position [i] of the history is dumped
    if and only if the display frame there has a jank type, or one of its
    surface frames has a jank type or has no actual present time (its
    [getJankType()] is then empty, which differs from [None]).  So a
    display frame holding a surface frame that was never presented is
    dumped as janky, whatever the verdicts are. *)
Theorem dumpJank_selection (ft : FrameTimeline.t) (i : nat) :
  i ∈ FrameTimeline.dumpJank_frames ft
  <-> ∃ d f,
        FrameTimeline.mDisplayFrames ft !! i = Some d
        ∧ FrameTimeline.heap ft !! d = Some f
        ∧ (DisplayFrame.mJankType f ≠ JankType.None
           ∨ Exists (λ sf, presentTime (SurfaceFrame.mActuals sf) = 0
                           ∨ SurfaceFrame.mJankType sf ≠ JankType.None)
                    (DisplayFrame.mSurfaceFrames f)).
Proof.
  unfold FrameTimeline.dumpJank_frames. rewrite list_elem_of_omap. split.
  - intros ([j d] & Hin & Hsel).
    apply elem_of_lookup_imap in Hin as (j' & d' & [= -> ->] & Hd).
    destruct (FrameTimeline.heap ft !! d') as [f|] eqn:Hf; [|discriminate].
    destruct (DisplayFrame.dumpJank_dumps f) eqn:Hdump; [|discriminate].
    injection Hsel as ->. exists d', f. by rewrite <- dumpJank_dumps_iff.
  - intros (d & f & Hd & Hf & Hjank). exists (i, d). split.
    + apply elem_of_lookup_imap. by exists i, d.
    + rewrite Hf. apply dumpJank_dumps_iff in Hjank. by rewrite Hjank.
Qed.

(** ** The jank types of the frames of a run *)

Lemma lor_decodable (a b : Z) :
  decodable a -> decodable b -> decodable (Z.lor a b).
Proof.
  unfold decodable. rewrite <- !ldiff_255. intros Ha Hb.
  apply Z.bits_inj'. intros n Hn.
  pose proof (f_equal (λ x, Z.testbit x n) Ha) as Hta.
  pose proof (f_equal (λ x, Z.testbit x n) Hb) as Htb. cbn beta in Hta, Htb.
  rewrite Z.ldiff_spec, Z.bits_0 in Hta, Htb.
  rewrite Z.ldiff_spec, Z.lor_spec, Z.bits_0.
  destruct (Z.testbit a n), (Z.testbit b n), (Z.testbit 255 n);
    cbn in *; congruence.
Qed.

Ltac solve_decodable :=
  repeat first
    [ assumption
    | apply lor_decodable
    | (unfold decodable; vm_compute; split; [discriminate | reflexivity]) ].

Lemma SurfaceFrame_classify_decodable jank present ready deltaToVsync period
    threshold lastLatchTime predictedEnd displayFrameJankType :
  decodable jank -> decodable displayFrameJankType ->
  decodable (SurfaceFrame.classify jank present ready deltaToVsync period
               threshold lastLatchTime predictedEnd displayFrameJankType).
Proof.
  intros Hj Hd. unfold SurfaceFrame.classify.
  destruct (isVsyncFactor deltaToVsync period threshold);
    repeat case_decide; solve_decodable.
Qed.

Lemma SurfaceFrame_onPresent_decodable presentTime' displayFrameJankType
    refreshRate displayDeadlineDelta displayPresentDelta (sf sf' : SurfaceFrame.t)
    out :
  SurfaceFrame.onPresent presentTime' displayFrameJankType refreshRate
    displayDeadlineDelta displayPresentDelta sf = Some (sf', out) ->
  decodable displayFrameJankType ->
  decodable (SurfaceFrame.mJankType sf) ->
  decodable (SurfaceFrame.mJankType sf').
Proof.
  intros Hrun Hd Hj.
  destruct (decide (SurfaceFrame.mPresentState sf = PresentState.Presented))
    as [Hp|Hn].
  - destruct (SurfaceFrame.mPredictionState sf) eqn:Hpred.
    + destruct (decide (getPeriodNsecs refreshRate = 0)) as [Hz|Hz].
      { rewrite onPresent_valid_zero in Hrun by assumption. discriminate. }
      rewrite onPresent_valid_eq in Hrun by assumption. cbv zeta in Hrun.
      injection Hrun as <- _.
      cbn [SurfaceFrame.mJankType SurfaceFrame.with_classification].
      by apply SurfaceFrame_classify_decodable.
    + rewrite onPresent_expired_eq in Hrun by assumption.
      injection Hrun as <- _.
      cbn [SurfaceFrame.mJankType SurfaceFrame.with_classification].
      solve_decodable.
    + rewrite onPresent_none_eq in Hrun by assumption.
      injection Hrun as <- _. exact Hj.
  - rewrite onPresent_unpresented_eq in Hrun by assumption.
    injection Hrun as <- _. exact Hj.
Qed.


Lemma DisplayFrame_classify_decodable jank present ready deltaToVsync period
    threshold :
  decodable jank ->
  decodable (DisplayFrame.classify jank present ready deltaToVsync period
               threshold).
Proof.
  intros Hj. unfold DisplayFrame.classify.
  destruct (isVsyncFactor deltaToVsync period threshold);
    repeat case_decide; solve_decodable.
Qed.

Lemma DisplayFrame_onPresent_decodable signalTime (f f' : DisplayFrame.t) outs :
  DisplayFrame.onPresent signalTime f = Some (f', outs) ->
  frame_decodable f -> frame_decodable f'.
Proof.
  intros Hrun [Hj Hsf].
  destruct (decide (getPeriodNsecs (DisplayFrame.mRefreshRate f) = 0))
    as [Hz|Hz].
  { apply DisplayFrame_onPresent_None_iff with (signalTime := signalTime) in Hz.
    congruence. }
  destruct (DisplayFrame_onPresent_eq f signalTime Hz)
    as (children & Hchildren & Heq).
  cbv zeta in Hchildren, Heq. rewrite Heq in Hrun. injection Hrun as <- _.
  unfold frame_decodable.
  cbn [DisplayFrame.mJankType DisplayFrame.mSurfaceFrames].
  split; [by apply DisplayFrame_classify_decodable|].
  apply mapM_Some_1 in Hchildren. clear Heq. revert Hchildren Hsf.
  generalize (DisplayFrame.mSurfaceFrames f). intros frames Hchildren Hsf.
  induction Hchildren as [|sf [sf' out] frames' children' Hone _ IH];
    [constructor|].
  apply Forall_cons in Hsf as [Hsfj Hsf].
  rewrite fmap_cons. apply Forall_cons. split; [|by apply IH].
  cbn [fst].
  eapply SurfaceFrame_onPresent_decodable; [exact Hone| |exact Hsfj].
  by apply DisplayFrame_classify_decodable.
Qed.

Section Decodable.
Context `{Header}.

Import FrameTimeline.

Lemma DisplayFrame_make_decodable thresholds :
  frame_decodable (DisplayFrame.make thresholds).
Proof. split; [solve_decodable | constructor]. Qed.

Lemma presentDisplayFrame_decodable (d : nat) signalTime
    (h h1 : list DisplayFrame.t) out :
  presentDisplayFrame d signalTime h = Some (h1, out) ->
  Forall frame_decodable h -> Forall frame_decodable h1.
Proof.
  intros Hrun Hh.
  apply presentDisplayFrame_Some in Hrun
    as [(_ & -> & _)|(f & f' & outs & Hf & Hon & -> & _)]; [exact Hh|].
  apply Forall_insert; [exact Hh|].
  eapply DisplayFrame_onPresent_decodable; [exact Hon|].
  eapply Forall_lookup_1; [exact Hh | exact Hf].
Qed.

Lemma flushPendingPresentFences_loop_decodable (fences : nat -> FenceTime)
    (pending : list (option nat * nat)) :
  ∀ (h h' : list DisplayFrame.t) rest outs,
  flushPendingPresentFences_loop fences pending h = Some (rest, h', outs) ->
  Forall frame_decodable h -> Forall frame_decodable h'.
Proof.
  induction pending as [|[fence d] pending IH]; intros h h' rest outs Hloop Hh.
  - cbn in Hloop. by injection Hloop as _ <- _.
  - apply flushPendingPresentFences_loop_cons_Some in Hloop
      as [(_ & _ & rest0 & _ & Hloop)
         |[(_ & _ & h1 & out & outs0 & Hone & Hloop & _)|(_ & _ & Hloop)]].
    + by eapply IH.
    + eapply IH; [exact Hloop|]. by eapply presentDisplayFrame_decodable.
    + by eapply IH.
Qed.

Lemma call_decodable (c : Call) (ft ft' : t) outs :
  match c with
  | AddSurfaceFrame sf => decodable (SurfaceFrame.mJankType sf)
  | _ => True
  end ->
  Forall frame_decodable (heap ft) ->
  call c ft = Some (ft', outs) ->
  Forall frame_decodable (heap ft').
Proof.
  intros Hadd Hh Hcall.
  destruct c as [now1 now2 p|sf|token wake rate|time fence fences|size|];
    cbn [call] in Hcall.
  1-3,5-6: injection Hcall as <- <-.
  - exact Hh.
  - cbn. apply Forall_alter; [exact Hh|]. intros f _ [Hj Hsf].
    split; [exact Hj|]. cbn. apply Forall_app. split; [exact Hsf|].
    by constructor.
  - cbn. apply Forall_alter; [exact Hh|]. by intros f _ [Hj Hsf].
  - exact Hh.
  - exact Hh.
  - apply setSfPresent_Some in Hcall as (rest & h1 & frames & Hloop & _ & ->).
    cbn. apply Forall_app. split.
    + eapply flushPendingPresentFences_loop_decodable; [exact Hloop|].
      apply Forall_alter; [exact Hh|]. by intros f _ [Hj Hsf].
    + apply Forall_singleton, DisplayFrame_make_decodable.
Qed.

Lemma run_decodable (calls : list Call) : ∀ (ft ft' : t) outs,
  addsDecodable calls ->
  Forall frame_decodable (heap ft) ->
  run calls ft = Some (ft', outs) ->
  Forall frame_decodable (heap ft').
Proof.
  induction calls as [|c calls IH]; intros ft ft' outs Hadds Hh Hrun.
  - cbn in Hrun. by injection Hrun as <- <-.
  - apply Forall_cons in Hadds as [Hadd Hadds].
    apply run_cons_Some in Hrun as (ft1 & out & outs2 & Hcall & Hrun2 & _).
    eapply IH; [exact Hadds| |exact Hrun2].
    by eapply call_decodable.
Qed.


(** X22.  The jank types of a run stay within the eight causes.  When the
    surface frames given to [addSurfaceFrame] carry bitmasks of the eight
    causes (a new surface frame has none), then in every state a run of
    calls reaches, the jank type of every display frame ever made and of
    each of its surface frames is such a bitmask, so
    [jankTypeBitmaskToString] and [jankTypeBitmaskToProto], which the
    dumps and the traces call on it, return: the classifiers only ever
    set or add the eight causes. *)
Theorem jank_types_stay_decodable `{FrameTimelineEvent}
    (calls : list Call) (pid : Z) (thresholds : JankClassificationThresholds)
    (ft : t) (outs : list Output) :
  addsDecodable calls ->
  run calls (make pid thresholds) = Some (ft, outs) ->
  ∀ (d : nat) f, heap ft !! d = Some f ->
    (decodable (DisplayFrame.mJankType f)
     ∧ jankTypeBitmaskToString (DisplayFrame.mJankType f) ≠ None
     ∧ jankTypeBitmaskToProto (DisplayFrame.mJankType f) ≠ None)
    ∧ ∀ sf, sf ∈ DisplayFrame.mSurfaceFrames f ->
        decodable (SurfaceFrame.mJankType sf)
        ∧ jankTypeBitmaskToString (SurfaceFrame.mJankType sf) ≠ None
        ∧ jankTypeBitmaskToProto (SurfaceFrame.mJankType sf) ≠ None.
Proof.
  intros Hadds Hrun d f Hf.
  assert (Hinit : Forall frame_decodable (heap (make pid thresholds)))
    by apply Forall_singleton, DisplayFrame_make_decodable.
  pose proof (run_decodable calls _ _ _ Hadds Hinit Hrun) as Hh.
  destruct (Forall_lookup_1 _ _ _ _ Hh Hf) as [Hj Hsf].
  assert (Hdec : ∀ j, decodable j ->
    decodable j ∧ jankTypeBitmaskToString j ≠ None
    ∧ jankTypeBitmaskToProto j ≠ None).
  { intros j Hjd. split; [exact Hjd|].
    rewrite jankTypeBitmaskToString_None, jankTypeBitmaskToProto_None.
    unfold decodable in Hjd. split; intros Hno; by apply Hno. }
  split; [by apply Hdec|]. intros sf Hin. apply Hdec.
  rewrite Forall_forall in Hsf. by apply Hsf.
Qed.

End Decodable.

Lemma jank_types_stay_decodable_witness :
  match @FrameTimeline.run platform_header decodable_calls
          (@FrameTimeline.make platform_header 1 thresholds_2ms) with
  | Some (ft, _) =>
      ∃ f, FrameTimeline.heap ft !! 0%nat = Some f
           ∧ jankTypeBitmaskToString (DisplayFrame.mJankType f) ≠ None
           ∧ Forall (λ sf, jankTypeBitmaskToString (SurfaceFrame.mJankType sf)
                           ≠ None)
                    (DisplayFrame.mSurfaceFrames f)
  | None => False
  end.
Proof.
  destruct (@FrameTimeline.run platform_header decodable_calls
              (@FrameTimeline.make platform_header 1 thresholds_2ms))
    as [[ft outs]|] eqn:Hrun; [|vm_compute in Hrun; discriminate].
  assert (Hadds : addsDecodable decodable_calls).
  { unfold addsDecodable, decodable_calls, token_calls. cbn [app].
    repeat (apply Forall_cons; split; [first [exact I | solve_decodable]|]).
    constructor. }
  pose proof (@jank_types_stay_decodable platform_header sample_events
                decodable_calls 1 thresholds_2ms ft outs Hadds Hrun) as Hall.
  assert (Hsome : is_Some (FrameTimeline.heap ft !! 0%nat)).
  { pose proof Hrun as Hstate. vm_compute in Hstate.
    injection Hstate as <- _. vm_compute. eauto. }
  destruct Hsome as [f Hf]. exists f. split; [exact Hf|].
  destruct (Hall 0%nat f Hf) as [(_ & Hs & _) Hsfs]. split; [exact Hs|].
  apply Forall_forall. intros sf Hin. by destruct (Hsfs sf Hin) as (_ & ? & _).
Defined.






Section Dumps.
Context `{Header}.

Import FrameTimeline.


End Dumps.


(** ** The tables of the frame that gives the base time *)

Lemma getMinTime_le state predictions actuals :
  let m := getMinTime state predictions actuals in
  (state = PredictionState.Valid -> m <= startTime predictions)
  ∧ (startTime actuals ≠ 0 -> m <= startTime actuals)
  ∧ (endTime actuals ≠ 0 -> m <= endTime actuals).
Proof.
  unfold getMinTime. cbv zeta.
  repeat split; intros; repeat case_decide; try congruence; lia.
Qed.

Lemma getMinTime_ge lo state predictions actuals :
  lo <= INT64_MAX -> lo <= startTime predictions ->
  lo <= startTime actuals -> lo <= endTime actuals ->
  lo <= getMinTime state predictions actuals.
Proof. unfold getMinTime. cbv zeta. intros. repeat case_decide; lia. Qed.

(** The loop of [DisplayFrame::getBaseTime]: the result is below the
    value it starts from and below the base time of every surface frame
    that has one, and above any bound below all of these. *)
Lemma DisplayFrame_getBaseTime_loop (frames : list SurfaceFrame.t) : ∀ (base : Z),
  let result :=
    fold_left
      (λ baseTime surfaceFrame,
         if decide (SurfaceFrame.getBaseTime surfaceFrame ≠ 0)
         then Z.min baseTime (SurfaceFrame.getBaseTime surfaceFrame)
         else baseTime)
      frames base in
  result <= base
  ∧ (∀ sf, sf ∈ frames -> SurfaceFrame.getBaseTime sf ≠ 0 ->
       result <= SurfaceFrame.getBaseTime sf)
  ∧ (∀ lo, lo <= base ->
       (∀ sf, sf ∈ frames -> lo <= SurfaceFrame.getBaseTime sf) ->
       lo <= result).
Proof.
  induction frames as [|sf0 frames IH]; intros base; cbv zeta.
  - cbn. split; [lia|]. split; [|auto].
    intros sf Hin. by apply elem_of_nil in Hin.
  - cbn [fold_left].
    match goal with |- context [fold_left _ frames ?b] =>
      destruct (IH b) as (Hle & Hall & Hge); cbv zeta in Hle, Hall, Hge
    end.
    split; [|split].
    + case_decide; lia.
    + intros sf Hin Hnz. apply elem_of_cons in Hin as [->|Hin]; [|by apply Hall].
      destruct (decide (SurfaceFrame.getBaseTime sf0 ≠ 0)); [lia | contradiction].
    + intros lo Hlo Hsfs. apply Hge.
      * pose proof (Hsfs sf0 ltac:(left)). case_decide; lia.
      * intros sf Hin. apply Hsfs. by right.
Qed.

Lemma dumpTable_exact_offsets state predictions actuals baseTime :
  record_in_range predictions actuals ->
  - 2 ^ 62 <= baseTime ->
  baseTime <= getMinTime state predictions actuals ->
  exact_offsets state predictions actuals baseTime
    (dumpTable predictions actuals state baseTime).
Proof.
  intros (Hp & Hs & He) Hlo Hbase. unfold in_range in *.
  destruct (getMinTime_le state predictions actuals) as (Hmp & Hms & Hme).
  cbv zeta in Hmp, Hms, Hme.
  unfold exact_offsets, dumpTable, sub64. cbn [fst snd row_start row_end].
  split; [|split].
  - intros Hvalid. specialize (Hmp Hvalid). rewrite decide_True by exact Hvalid.
    eexists. split; [reflexivity|]. cbn [row_start].
    rewrite wrap64_id by (unfold int64; lia). split; [reflexivity | lia].
  - intros Hset. specialize (Hms Hset). rewrite decide_False by exact Hset.
    rewrite wrap64_id by (unfold int64; lia). split; [f_equal | ]; lia.
  - intros Hset. specialize (Hme ltac:(lia)). rewrite decide_False by lia.
    rewrite wrap64_id by (unfold int64; lia). split; [reflexivity | lia].
Qed.

(** X24.  The tables of the frame that gives the base time.  When a
    display frame is dumped relative to its own base time, as the first
    frame of the history is, its table and the table of each of its
    surface frames whose own base time is not zero show the predicted
    start, the actual start and the actual end as the exact distance to
    the base time, which is never negative: for these entries the clamp at
    0 of [dumpTable] never applies and the end time, which is not clamped,
    is not negative.  The times are taken well inside the 64-bit
    range. *)
Theorem dump_offsets_of_base_frame (f : DisplayFrame.t)
    (dumped : DisplayFrame.Dump) :
  frame_in_range f ->
  DisplayFrame.dump (DisplayFrame.getBaseTime f) f = Some dumped ->
  exact_offsets (DisplayFrame.mPredictionState f)
    (DisplayFrame.mSurfaceFlingerPredictions f)
    (DisplayFrame.mSurfaceFlingerActuals f)
    (DisplayFrame.getBaseTime f) (DisplayFrame.dump_table dumped)
  ∧ ∀ (i : nat) sf sd,
      DisplayFrame.mSurfaceFrames f !! i = Some sf ->
      DisplayFrame.dump_surfaceFrames dumped !! i = Some sd ->
      SurfaceFrame.getBaseTime sf ≠ 0 ->
      exact_offsets (SurfaceFrame.mPredictionState sf)
        (SurfaceFrame.mPredictions sf) (SurfaceFrame.mActuals sf)
        (DisplayFrame.getBaseTime f) (SurfaceFrame.dump_table sd).
Proof.
  intros [Hown Hsfs] Hdump.
  destruct (DisplayFrame_getBaseTime_loop (DisplayFrame.mSurfaceFrames f)
              (getMinTime (DisplayFrame.mPredictionState f)
                 (DisplayFrame.mSurfaceFlingerPredictions f)
                 (DisplayFrame.mSurfaceFlingerActuals f)))
    as (Hle & Hall & Hge).
  cbv zeta in Hle, Hall, Hge. fold (DisplayFrame.getBaseTime f) in Hle, Hall, Hge.
  assert (Hlo : - 2 ^ 62 <= DisplayFrame.getBaseTime f).
  { apply Hge.
    - destruct Hown as (? & ? & ?). unfold in_range in *.
      apply getMinTime_ge; unfold INT64_MAX; lia.
    - intros sf Hin. rewrite Forall_forall in Hsfs.
      destruct (Hsfs sf Hin) as (? & ? & ?). unfold in_range in *.
      apply getMinTime_ge; unfold INT64_MAX; lia. }
  unfold DisplayFrame.dump in Hdump.
  destruct (jankTypeBitmaskToString _) as [jank|]; [|discriminate].
  cbn in Hdump.
  destruct (decide (getPeriodNsecs (DisplayFrame.mRefreshRate f) = 0));
    [discriminate|].
  destruct (mapM _ _) as [dumps|] eqn:Hdumps; [|discriminate].
  injection Hdump as <-. cbn [DisplayFrame.dump_table DisplayFrame.dump_surfaceFrames].
  split.
  - by apply dumpTable_exact_offsets.
  - intros i sf sd Hsf Hsd Hnz. apply mapM_Some_1 in Hdumps.
    pose proof (Forall2_lookup_lr _ _ _ _ _ _ Hdumps Hsf Hsd) as Hdumped.
    cbn beta in Hdumped. unfold SurfaceFrame.dump in Hdumped.
    destruct (jankTypeBitmaskToString _); [|discriminate].
    injection Hdumped as <-. cbn [SurfaceFrame.dump_table].
    apply dumpTable_exact_offsets; [|exact Hlo|].
    + rewrite Forall_forall in Hsfs. apply Hsfs.
      by eapply list_elem_of_lookup_2.
    + apply Hall; [by eapply list_elem_of_lookup_2 | exact Hnz].
Qed.

Lemma dump_offsets_of_base_frame_witness :
  ∃ dumped,
    DisplayFrame.dump (DisplayFrame.getBaseTime display_dumped) display_dumped
    = Some dumped
    ∧ row_start (DisplayFrame.dump_table dumped).2 = Some 16000000
    ∧ row_end (DisplayFrame.dump_table dumped).2 = Some 26000000.
Proof.
  destruct (DisplayFrame.dump (DisplayFrame.getBaseTime display_dumped)
              display_dumped) as [dumped|] eqn:Hdump;
    [|vm_compute in Hdump; discriminate].
  exists dumped. split; [reflexivity|].
  assert (Hrange : frame_in_range display_dumped).
  { split; [|apply Forall_singleton];
      (split; [|split]); unfold in_range; vm_compute;
      (split; [discriminate | reflexivity]). }
  destruct (dump_offsets_of_base_frame display_dumped dumped Hrange Hdump)
    as [(_ & Hstart & Hend) _].
  split.
  - apply Hstart. vm_compute. discriminate.
  - apply Hend. vm_compute. reflexivity.
Defined.

(** ** Where the calls return *)

Section Returns.
Context `{Header}.

Import FrameTimeline.

(** X26.  A run of calls from the constructor returns (no call divides by
    a refresh period of 0, and none pops the empty history) when it is
    well driven: every [setSfPresent] follows a [setSfWakeUp] of the same
    frame whose refresh period is not 0, every size given to
    [setMaxDisplayFrames] is at least 1, and so is the default size, which
    the constructor and [reset] set. *)
Theorem well_driven_run_returns (calls : list Call) pid thresholds :
  (1 <= kDefaultMaxDisplayFrames)%N ->
  well_driven false calls ->
  ∃ ft outs, run calls (make pid thresholds) = Some (ft, outs).
Proof.
  intros Hdefault Hdriven.
  destruct (run_driven calls false (make pid thresholds)
              (make_driven_inv pid thresholds Hdefault) Hdriven)
    as (ft & outs & w & Hrun & _).
  by exists ft, outs.
Qed.

End Returns.

Lemma well_driven_run_returns_witness :
  ∃ ft outs,
    @FrameTimeline.run platform_header three_woken_presents
      (@FrameTimeline.make platform_header 1 thresholds_2ms) = Some (ft, outs)
    ∧ FrameTimeline.mDisplayFrames ft = [0; 1; 2]%nat.
Proof.
  destruct (@well_driven_run_returns platform_header three_woken_presents 1
              thresholds_2ms)
    as (ft & outs & Hrun).
  - vm_compute. discriminate.
  - vm_compute. tauto.
  - exists ft, outs. split; [exact Hrun|].
    vm_compute in Hrun. injection Hrun as <- _. reflexivity.
Defined.

(** X27.  Where [onPresent] has no result.  The display frame's has none
    exactly when the refresh period of the frame is 0, which is the period
    of a frame that [onSfWakeUp] never reached: it divides by the period
    before any test.  The surface frame's has none exactly when the frame
    is [Presented], its predictions are [Valid] and the period it is given
    is 0: it returns before the division when the frame is not presented,
    has no token, or has an expired one. *)
Theorem onPresent_no_result_iff_period_zero :
  (∀ (f : DisplayFrame.t) (signalTime : Z),
     DisplayFrame.onPresent signalTime f = None
     <-> getPeriodNsecs (DisplayFrame.mRefreshRate f) = 0)
  ∧ (∀ presentTime' displayFrameJankType refreshRate displayDeadlineDelta
       displayPresentDelta (f : SurfaceFrame.t),
       SurfaceFrame.onPresent presentTime' displayFrameJankType refreshRate
         displayDeadlineDelta displayPresentDelta f = None
       <-> SurfaceFrame.mPresentState f = PresentState.Presented
           ∧ SurfaceFrame.mPredictionState f = PredictionState.Valid
           ∧ getPeriodNsecs refreshRate = 0).
Proof.
  split.
  - exact DisplayFrame_onPresent_None_iff.
  - exact onPresent_None_iff.
Qed.
